(** * SOH Watch: the inventory rule engine

    A shallow embedding of the per-row rules of [inventory_utils.py]
    ([assess_status], [suggest_reorder], [simulate_runout]) and of the
    purchase-order enrichment of [inventory_health_app.py]
    ([po_next_arrival], [po_next_qty], [estimate_runout], [mitigates_oos]).

    Numbers.  A numeric cell of a row is a float64.  Here a cell is either
    [NaN] (the "missing" sentinel produced by [pd.to_numeric(errors='coerce')])
    or an exact rational [Num q]; rounding and the infinities of float64 are
    not modelled.  Arithmetic and comparisons on cells follow the IEEE rules
    for [NaN]: every operation with a [NaN] operand yields [NaN], every
    comparison with a [NaN] operand is false.

    Rows.  A row ([pd.Series]) is a finite map from column names to cells;
    [row.get(k, d)] is [row_get], [row[k]] is [row_item] and raises
    [KeyError] on an unknown column. *)

From Stdlib Require Import QArith Qround Lqa ZArith Lia Ascii String.
From Stdlib Require Floats Uint63.
From stdpp Require Import gmap strings list.

Local Open Scope Z_scope.

(** ** Exceptions *)

Inductive exn : Type :=
| KeyError (k : string)
| ValueError
| TypeError
| OverflowError.

Inductive outcome (A : Type) : Type :=
| Return (a : A)
| Raise (e : exn).

Arguments Return {A} a.
Arguments Raise {A} e.

#[global] Instance outcome_ret : MRet outcome := fun A a => Return a.

#[global] Instance outcome_bind : MBind outcome := fun A B k m =>
  match m with
  | Return a => k a
  | Raise e => Raise e
  end.

(** ** Cells *)

Inductive cell : Type :=
| NaN
| Num (q : Q).

(** [pd.isna] *)
Definition isna (c : cell) : bool :=
  match c with
  | NaN => true
  | Num _ => false
  end.

Definition Qltb (x y : Q) : bool := Qnum x * QDen y <? Qnum y * QDen x.

Definition cell_sub (a b : cell) : cell :=
  match a, b with
  | Num x, Num y => Num (x - y)
  | _, _ => NaN
  end.

Definition cell_mul (a b : cell) : cell :=
  match a, b with
  | Num x, Num y => Num (x * y)
  | _, _ => NaN
  end.

(** Division.  The code only divides by the literal 3 and by a cell it has
    just tested to be positive; a zero divisor is given [NaN] here. *)
Definition cell_div (a b : cell) : cell :=
  match a, b with
  | Num x, Num y => if Qeq_bool y 0 then NaN else Num (x / y)
  | _, _ => NaN
  end.

(** [np.ceil] *)
Definition cell_ceil (a : cell) : cell :=
  match a with
  | Num x => Num (inject_Z (Qceiling x))
  | NaN => NaN
  end.

Definition cell_ltb (a b : cell) : bool :=
  match a, b with
  | Num x, Num y => Qltb x y
  | _, _ => false
  end.

Definition cell_leb (a b : cell) : bool :=
  match a, b with
  | Num x, Num y => Qle_bool x y
  | _, _ => false
  end.

Definition cell_gtb (a b : cell) : bool := cell_ltb b a.
Definition cell_geb (a b : cell) : bool := cell_leb b a.

(** Python's builtin [max(a, b)]: [b] replaces [a] only when [b > a]. *)
Definition py_max (a b : cell) : cell :=
  if cell_gtb b a then b else a.

(** Truncation toward zero, as [int(x)] does on a float. *)
Definition Qtrunc (q : Q) : Z := Z.quot (Qnum q) (QDen q).

(** [int(x)]: raises [ValueError] on [NaN]. *)
Definition py_int (c : cell) : outcome Z :=
  match c with
  | Num q => Return (Qtrunc q)
  | NaN => Raise ValueError
  end.

(** ** Rows *)

Definition row_get (row : gmap string cell) (k : string) (d : cell) : cell :=
  match row !! k with
  | Some c => c
  | None => d
  end.

Definition row_item (row : gmap string cell) (k : string) : outcome cell :=
  match row !! k with
  | Some c => Return c
  | None => Raise (KeyError k)
  end.

(** ** inventory_utils.py *)

Definition CRITICAL_BELOW_MIN : string := "🔴 Critical!!! Below Min Qty".
Definition REORDER_LEVEL : string := "🟠 Reorder Level".
Definition OVERSTOCKED : string := "🕣 Overstocked".
Definition HEALTHY : string := "✅ Healthy".
Definition MISSING_SOH : string := "❓ Missing SOH".

Definition three : cell := Num 3.
Definition zero : cell := Num 0.

Definition assess_status (row : gmap string cell) : string :=
  let soh := row_get row "SOH" NaN in
  let min_qty := row_get row "Min Qty" NaN in
  let max_qty := row_get row "Max Qty" NaN in
  if isna soh then MISSING_SOH
  else if isna min_qty || isna max_qty then MISSING_SOH
  else
    let reorder_threshold :=
      cell_sub max_qty (cell_div (cell_sub max_qty min_qty) three) in
    if cell_ltb soh min_qty then CRITICAL_BELOW_MIN
    else if cell_ltb soh reorder_threshold then REORDER_LEVEL
    else if cell_gtb soh max_qty then OVERSTOCKED
    else HEALTHY.

Definition suggest_reorder (row : gmap string cell) : outcome (option Z) :=
  let soh := row_get row "SOH" NaN in
  let min_qty := row_get row "Min Qty" NaN in
  let max_qty := row_get row "Max Qty" NaN in
  let moq := row_get row "MOQ" NaN in
  let minor_mult := row_get row "Minor Order Multiple" NaN in
  if isna soh || isna min_qty || isna max_qty || isna moq then Return None
  else
    let reorder_threshold :=
      cell_sub max_qty (cell_div (cell_sub max_qty min_qty) three) in
    if cell_ltb soh reorder_threshold then
      let base := py_max moq (cell_sub min_qty soh) in
      let base :=
        if negb (isna minor_mult) && cell_gtb minor_mult zero
        then cell_mul (cell_ceil (cell_div base minor_mult)) minor_mult
        else base in
      n ← py_int base; Return (Some n)
    else Return None.

(** The loop body of [simulate_runout]: the remaining stock after the
    period and the mark appended to [result]. *)
Definition COVERED : string := "✅".
Definition NOT_COVERED : string := "".

Definition simulate_step (row : gmap string cell) (remaining_soh : cell)
    (col : string) : cell * string :=
  let usage := row_get row col NaN in
  if isna usage || isna remaining_soh then (remaining_soh, NOT_COVERED)
  else if cell_geb remaining_soh usage
       then (cell_sub remaining_soh usage, COVERED)
       else (remaining_soh, NOT_COVERED).

Fixpoint simulate_loop (row : gmap string cell) (remaining_soh : cell)
    (forecast_cols : list string) : list string :=
  match forecast_cols with
  | [] => []
  | col :: rest =>
      let '(remaining_soh', mark) := simulate_step row remaining_soh col in
      mark :: simulate_loop row remaining_soh' rest
  end.

(** The returned Series is indexed by [forecast_cols]; its values are the
    list below, in the same order. *)
Definition simulate_runout (row : gmap string cell)
    (forecast_cols : list string) : list string :=
  simulate_loop row (row_get row "SOH" NaN) forecast_cols.

(** The value of [remaining_soh] once the loop has gone through
    [forecast_cols]. *)
Definition simulate_remaining (row : gmap string cell) (remaining_soh : cell)
    (forecast_cols : list string) : cell :=
  foldl (fun r col => fst (simulate_step row r col)) remaining_soh forecast_cols.

(** ** inventory_health_app.py: runout estimate *)

(** The [for i, col in enumerate(forecast_cols)] loop of [estimate_runout],
    entered at index [i] with the given [remaining]. *)
Fixpoint estimate_loop (row : gmap string cell) (remaining : cell) (i : nat)
    (forecast_cols : list string) : cell :=
  match forecast_cols with
  | [] => NaN
  | col :: rest =>
      let usage := row_get row col zero in
      if isna usage then estimate_loop row remaining (S i) rest
      else
        let remaining := cell_sub remaining usage in
        if cell_leb remaining zero then Num (inject_Z (Z.of_nat i))
        else estimate_loop row remaining (S i) rest
  end.

Definition estimate_runout (forecast_cols : list string)
    (row : gmap string cell) : outcome cell :=
  match forecast_cols with
  | [] => Return NaN
  | _ :: _ =>
      soh ← row_item row "SOH";
      if cell_leb soh zero then Return NaN
      else
        remaining ← row_item row "SOH";
        Return (estimate_loop row remaining 0 forecast_cols)
  end.

(** ** inventory_health_app.py: purchase orders *)

(** A [pd.Timestamp] is a number of nanoseconds since the epoch. *)
Definition ns_per_day : Z := 86400000000000.
Definition ns_per_week : Z := 7 * ns_per_day.

(** [Timestamp.normalize]: back to midnight. *)
Definition normalize (t : Z) : Z := t - t mod ns_per_day.

(** [pd.Timedelta(weeks=w)] in nanoseconds.  [estimate_runout] only yields
    whole numbers of periods, on which this is exact. *)
Definition Timedelta_weeks (w : Q) : Z := Qtrunc (w * inject_Z ns_per_week).

(** One line of the purchase-order report, after the coercions of
    [pd.to_datetime(errors='coerce')] and [pd.to_numeric(errors='coerce')]:
    an unparseable date is [None] (NaT), an unparseable quantity is [NaN].
    [SKU_Code] is the cell as read: [None] when the cell is empty (NaN). *)
Record po_line : Type := mk_po_line {
  SKU_Code : option string;
  Order_Qty : cell;
  Expected_Delivery_Date : option Z
}.

(** [.astype(str)] on an object column: the missing value becomes the
    text "nan". *)
Definition astype_str (v : option string) : option string :=
  match v with
  | Some s => Some s
  | None => Some "nan"
  end.

(** [str.isspace], on the UTF-8 bytes of the text.  The whitespace
    characters are U+0009..U+000D, U+001C..U+0020 (one byte), U+0085 and
    U+00A0 (two bytes), U+1680, U+2000..U+200A, U+2028, U+2029, U+202F,
    U+205F and U+3000 (three bytes). *)
Definition is_space (a : ascii) : bool :=
  let n := nat_of_ascii a in
  ((9 <=? n)%nat && (n <=? 13)%nat) || ((28 <=? n)%nat && (n <=? 32)%nat).

Definition is_space2 (a b : ascii) : bool :=
  (nat_of_ascii a =? 194)%nat &&
  ((nat_of_ascii b =? 133)%nat || (nat_of_ascii b =? 160)%nat).

Definition is_space3 (a b c : ascii) : bool :=
  let x := nat_of_ascii a in
  let y := nat_of_ascii b in
  let z := nat_of_ascii c in
  ((x =? 225)%nat && (y =? 154)%nat && (z =? 128)%nat) ||
  ((x =? 226)%nat && (y =? 128)%nat &&
   (((128 <=? z)%nat && (z <=? 138)%nat) ||
    (z =? 168)%nat || (z =? 169)%nat || (z =? 175)%nat)) ||
  ((x =? 226)%nat && (y =? 129)%nat && (z =? 159)%nat) ||
  ((x =? 227)%nat && (y =? 128)%nat && (z =? 128)%nat).

(** Leading whitespace characters removed from a list of bytes. *)
Fixpoint lstrip_bytes (l : list ascii) : list ascii :=
  match l with
  | a :: l1 =>
      if is_space a then lstrip_bytes l1
      else
        match l1 with
        | b :: l2 =>
            if is_space2 a b then lstrip_bytes l2
            else
              match l2 with
              | c :: l3 => if is_space3 a b c then lstrip_bytes l3 else l
              | [] => l
              end
        | [] => l
        end
  | [] => []
  end.

(** The same on the reversed bytes, for the trailing whitespace. *)
Fixpoint lstrip_reversed (l : list ascii) : list ascii :=
  match l with
  | c :: l1 =>
      if is_space c then lstrip_reversed l1
      else
        match l1 with
        | b :: l2 =>
            if is_space2 b c then lstrip_reversed l2
            else
              match l2 with
              | a :: l3 => if is_space3 a b c then lstrip_reversed l3 else l
              | [] => l
              end
        | [] => l
        end
  | [] => []
  end.

Definition lstrip (s : string) : string :=
  string_of_list_ascii (lstrip_bytes (list_ascii_of_string s)).

Definition rstrip (s : string) : string :=
  string_of_list_ascii
    (rev (lstrip_reversed (rev (list_ascii_of_string s)))).

Definition strip (s : string) : string := rstrip (lstrip s).

(** [.str.strip()]: missing values stay missing. *)
Definition str_strip (v : option string) : option string := strip <$> v.

(** Line 80: [df_po['SKU Code'].astype(str).str.strip()]. *)
Definition clean_sku (l : po_line) : po_line :=
  mk_po_line (str_strip (astype_str (SKU_Code l))) (Order_Qty l)
             (Expected_Delivery_Date l).

(** Line 88: [dropna(subset=['SKU Code', 'Expected Delivery Date'])]. *)
Definition keep_line (l : po_line) : bool :=
  match SKU_Code l, Expected_Delivery_Date l with
  | Some _, Some _ => true
  | _, _ => false
  end.

Definition dropna (df : list po_line) : list po_line :=
  List.filter keep_line df.

Definition clean_po (df_po : list po_line) : list po_line :=
  dropna (map clean_sku df_po).

(** [groupby('SKU Code')['Expected Delivery Date'].min().to_dict()] *)
Definition groupby_min (df : list po_line) : gmap string Z :=
  foldl (fun (m : gmap string Z) l =>
           match SKU_Code l, Expected_Delivery_Date l with
           | Some k, Some d =>
               match m !! k with
               | Some d' => <[k := Z.min d' d]> m
               | None => <[k := d]> m
               end
           | _, _ => m
           end) ∅ df.

(** [groupby('SKU Code')['Order Qty'].sum().to_dict()]; the sum of a group
    skips [NaN] quantities. *)
Definition qty_or_zero (c : cell) : Q :=
  match c with
  | Num q => q
  | NaN => 0%Q
  end.

Definition groupby_sum (df : list po_line) : gmap string Q :=
  foldl (fun (m : gmap string Q) l =>
           match SKU_Code l with
           | Some k =>
               match m !! k with
               | Some q => <[k := (q + qty_or_zero (Order_Qty l))%Q]> m
               | None => <[k := (0 + qty_or_zero (Order_Qty l))%Q]> m
               end
           | None => m
           end) ∅ df.

Definition po_next_arrival (df_po : list po_line) : gmap string Z :=
  groupby_min (clean_po df_po).

Definition po_next_qty (df_po : list po_line) : gmap string Q :=
  groupby_sum (clean_po df_po).

(** [get_next_po]: [po_next_arrival.get(row['SKU Code'], None)] *)
Definition get_next_po (po_next_arrival : gmap string Z) (sku : string)
    : option Z :=
  po_next_arrival !! sku.

(** The two columns [mitigates_oos] reads; [Next_PO_Arrival] is [None]
    for NaT. *)
Record po_columns : Type := mk_po_columns {
  Runout_Period : cell;
  Next_PO_Arrival : option Z
}.

Definition UNKNOWN : string := "N/A".
Definition MITIGATES : string := "Yes".
Definition DOES_NOT_MITIGATE : string := "No".

(** [now] is the reading of the clock by [pd.Timestamp.today()]. *)
Definition mitigates_oos (now : Z) (row : po_columns) : string :=
  match Runout_Period row, Next_PO_Arrival row with
  | Num period, Some arrival =>
      let today := normalize now in
      let runout_date := today + Timedelta_weeks period in
      if arrival <=? runout_date then MITIGATES else DOES_NOT_MITIGATE
  | _, _ => UNKNOWN
  end.

(** ** Rows used in the examples *)

Definition scenario_A : gmap string cell :=
  {[ "SOH" := Num 30; "Min Qty" := Num 50; "Max Qty" := Num 200;
     "MOQ" := Num 10; "Minor Order Multiple" := Num 5 ]}.

Definition scenario_D : gmap string cell :=
  {[ "SOH" := Num 100; "Jan-25" := Num 40; "Feb-25" := Num 40;
     "Mar-25" := Num 40 ]}.

Definition scenario_D_cols : list string := ["Jan-25"; "Feb-25"; "Mar-25"].

Definition row_max_absent : gmap string cell :=
  {[ "SOH" := Num 1; "Min Qty" := Num 2; "Max Qty" := NaN ]}.

(** ** The rules in the words of the specification *)

(** A quantity is present when the row holds a number for it, absent when
    the column is unknown or holds the missing sentinel. *)
Definition present (row : gmap string cell) (k : string) (q : Q) : Prop :=
  row !! k = Some (Num q).

Definition absent (row : gmap string cell) (k : string) : Prop :=
  row !! k = None \/ row !! k = Some NaN.

Definition reorder_threshold_of (lo hi : Q) : Q := (hi - (hi - lo) / 3)%Q.

(** The fixed-order rule of the status classifier. *)
Inductive status_rule (row : gmap string cell) : string -> Prop :=
| rule_missing_soh :
    absent row "SOH" -> status_rule row MISSING_SOH
| rule_missing_bound :
    absent row "Min Qty" \/ absent row "Max Qty" ->
    status_rule row MISSING_SOH
| rule_critical s lo hi :
    present row "SOH" s -> present row "Min Qty" lo ->
    present row "Max Qty" hi ->
    (s < lo)%Q -> status_rule row CRITICAL_BELOW_MIN
| rule_reorder s lo hi :
    present row "SOH" s -> present row "Min Qty" lo ->
    present row "Max Qty" hi ->
    ~ (s < lo)%Q -> (s < reorder_threshold_of lo hi)%Q ->
    status_rule row REORDER_LEVEL
| rule_overstocked s lo hi :
    present row "SOH" s -> present row "Min Qty" lo ->
    present row "Max Qty" hi ->
    ~ (s < lo)%Q -> ~ (s < reorder_threshold_of lo hi)%Q -> (hi < s)%Q ->
    status_rule row OVERSTOCKED
| rule_healthy s lo hi :
    present row "SOH" s -> present row "Min Qty" lo ->
    present row "Max Qty" hi ->
    ~ (s < lo)%Q -> ~ (s < reorder_threshold_of lo hi)%Q -> ~ (hi < s)%Q ->
    status_rule row HEALTHY.

(** The quantities the reorder suggester computes on present fields. *)
Definition order_base (s lo q : Q) : Q :=
  if Qltb q (lo - s) then (lo - s)%Q else q.

Definition round_up (base m : Q) : Q :=
  (inject_Z (Qceiling (base / m)) * m)%Q.

(** The order quantity before truncation, on present fields. *)
Definition order_quantity (row : gmap string cell) (s lo q : Q) : Q :=
  match row_get row "Minor Order Multiple" NaN with
  | Num m =>
      if Qltb 0 m then round_up (order_base s lo q) m else order_base s lo q
  | NaN => order_base s lo q
  end.

(** [b] is the larger of [x] and [y]. *)
Definition is_max_of (b x y : Q) : Prop :=
  (x <= b)%Q /\ (y <= b)%Q /\ (b == x \/ b == y)%Q.

(** [r] is [base] rounded up to the nearest multiple of [m]. *)
Definition least_multiple_above (r base m : Q) : Prop :=
  exists k : Z,
    (r == inject_Z k * m)%Q /\ (base <= r)%Q /\
    forall k' : Z, (base <= inject_Z k' * m)%Q -> k <= k'.

(** [n] is [r] with its fractional part dropped. *)
Definition truncation_of (n : Z) (r : Q) : Prop :=
  ((0 <= r)%Q -> (inject_Z n <= r)%Q /\ (r < inject_Z (n + 1))%Q) /\
  ((r <= 0)%Q -> (inject_Z (n - 1) < r)%Q /\ (r <= inject_Z n)%Q).

Definition positive_multiple (row : gmap string cell) (m : Q) : Prop :=
  present row "Minor Order Multiple" m /\ (0 < m)%Q.

(** The rule of the reorder suggester. *)
Inductive reorder_rule (row : gmap string cell) : option Z -> Prop :=
| reorder_missing :
    absent row "SOH" \/ absent row "Min Qty" \/ absent row "Max Qty" \/
    absent row "MOQ" ->
    reorder_rule row None
| reorder_not_needed s lo hi q :
    present row "SOH" s -> present row "Min Qty" lo ->
    present row "Max Qty" hi -> present row "MOQ" q ->
    (reorder_threshold_of lo hi <= s)%Q ->
    reorder_rule row None
| reorder_plain s lo hi q base n :
    present row "SOH" s -> present row "Min Qty" lo ->
    present row "Max Qty" hi -> present row "MOQ" q ->
    (s < reorder_threshold_of lo hi)%Q ->
    is_max_of base q (lo - s) ->
    (forall m, ~ positive_multiple row m) ->
    truncation_of n base ->
    reorder_rule row (Some n)
| reorder_rounded s lo hi q base m r n :
    present row "SOH" s -> present row "Min Qty" lo ->
    present row "Max Qty" hi -> present row "MOQ" q ->
    (s < reorder_threshold_of lo hi)%Q ->
    is_max_of base q (lo - s) ->
    positive_multiple row m ->
    least_multiple_above r base m ->
    truncation_of n r ->
    reorder_rule row (Some n).

Definition row_negative_moq : gmap string cell :=
  {[ "SOH" := Num 20; "Min Qty" := Num 10; "Max Qty" := Num 100;
     "MOQ" := Num (-5) ]}.


(** The remaining stock [simulate_runout] holds when it reaches period [i]. *)
Definition remaining_before (row : gmap string cell)
    (forecast_cols : list string) (i : nat) : cell :=
  simulate_remaining row (row_get row "SOH" NaN) (take i forecast_cols).

(** Coverage of a period: stock and usage present, stock at least usage. *)
Definition covers (remaining usage : cell) : Prop :=
  exists r u, remaining = Num r /\ usage = Num u /\ (u <= r)%Q.


Definition row_dip : gmap string cell :=
  {[ "SOH" := Num 100; "Jan-25" := Num 40; "Feb-25" := Num 80;
     "Mar-25" := Num 40 ]}.

(** The runout estimate in the words of the specification: starting from
    on-hand, each period subtracts its usage if present. *)
Definition subtract_usage (row : gmap string cell) (r : Q) (col : string) : Q :=
  match row_get row col zero with
  | Num u => (r - u)%Q
  | NaN => r
  end.

Definition stock_after (row : gmap string cell) (s : Q)
    (forecast_cols : list string) : Q :=
  foldl (subtract_usage row) s forecast_cols.

(** Period [i] is the first after which the stock is exhausted. *)
Definition runs_out_at (row : gmap string cell) (s : Q)
    (forecast_cols : list string) (i : nat) : Prop :=
  (i < length forecast_cols)%nat /\
  (stock_after row s (take (S i) forecast_cols) <= 0)%Q /\
  forall j, (j < i)%nat -> (0 < stock_after row s (take (S j) forecast_cols))%Q.

Definition never_runs_out (row : gmap string cell) (s : Q)
    (forecast_cols : list string) : Prop :=
  forall j, (j < length forecast_cols)%nat ->
            (0 < stock_after row s (take (S j) forecast_cols))%Q.

(** No runout within the horizon. *)
Definition no_runout (row : gmap string cell) (soh : cell)
    (forecast_cols : list string) : Prop :=
  soh = NaN \/ (exists s, soh = Num s /\ (s <= 0)%Q) \/
  forecast_cols = [] \/
  (exists s, soh = Num s /\ never_runs_out row s forecast_cols).

(** The stock left of [s] after the usages [us], all present. *)
Definition stock_left (s : Q) (us : list Q) : Q := foldl Qminus s us.


(** Scenario E: runout in 2 weeks, the order arrives 10 days after the
    midnight before [clock_E]. *)
Definition clock_E : Z := 20000 * ns_per_day + 5000.

Definition scenario_E : po_columns :=
  mk_po_columns (Num 2) (Some (20000 * ns_per_day + 10 * ns_per_day)).

(** A purchase-order report whose first line has an empty SKU Code cell
    and whose last line has an unparseable date. *)
Definition po_missing_sku : list po_line :=
  [ mk_po_line None (Num 5) (Some 100);
    mk_po_line (Some "A1 ") (Num 3) (Some 200);
    mk_po_line (Some "A1") (Num 4) (Some 150);
    mk_po_line (Some "B2") (Num 7) None ].

(** The sum of the order quantities of the lines of SKU [k]. *)
Definition qty_of_sku (k : string) (df : list po_line) : Q :=
  foldl (fun acc l =>
           if decide (SKU_Code l = Some k)
           then (acc + qty_or_zero (Order_Qty l))%Q else acc) 0%Q df.

Definition has_sku (k : string) (df : list po_line) : Prop :=
  exists l, l ∈ df /\ SKU_Code l = Some k.

Definition statuses : list string :=
  [CRITICAL_BELOW_MIN; REORDER_LEVEL; OVERSTOCKED; HEALTHY; MISSING_SOH].

(** ** inventory_utils.py: row colours and cell styles *)

Definition get_row_fill_color (status : string) : string :=
  default "#FFFFFF"
    (({[ "🔴 Critical!!! Below Min Qty" := "#FFCCCC";
         "🟠 Reorder Level" := "#FFE4B3";
         "🕣 Overstocked" := "#FFCCFF";
         "✅ Healthy" := "#CCFFCC";
         "❓ Missing SOH" := "#E0E0E0" ]} : gmap string string) !! status).

(** A cell of a displayed row: text, a number, a timestamp (NaT is
    [VTime None]) or Python's [None]. *)
Inductive value : Type :=
| VStr (s : string)
| VNum (c : cell)
| VTime (t : option Z)
| VNone.

(** A displayed row: its cells in column order, each with its label. *)
Fixpoint series_get (row : list (string * value)) (k : string) (d : value)
    : value :=
  match row with
  | [] => d
  | (k', v) :: rest => if String.eqb k' k then v else series_get rest k d
  end.

(** The colour looked up for whatever the Status cell holds: the dictionary
    has text keys only, any other value gets the default. *)
Definition fill_color_of (status : value) : string :=
  match status with
  | VStr s => get_row_fill_color s
  | _ => "#FFFFFF"
  end.

Definition highlight_row (row : list (string * value)) : list string :=
  let status := series_get row "Status" (VStr "") in
  let fill_color := fill_color_of status in
  map (fun _ => "background-color: " +:+ fill_color +:+ "; color: black;") row.

Definition highlight_forecast (val : value) : string :=
  match val with
  | VStr s => if String.eqb s "✅" then "background-color: lightgreen" else ""
  | _ => ""
  end.

(** [s.replace(c, '')] for a one-character [c]. *)
Fixpoint remove_char (c : ascii) (s : string) : string :=
  match s with
  | EmptyString => EmptyString
  | String a s' =>
      if Ascii.eqb a c then remove_char c s' else String a (remove_char c s')
  end.

(** What [generate_excel] writes: the header line without fill, then one
    line per row with the fill passed to [PatternFill] ([None] when
    [fill_color] is empty and the row is left unfilled).  The font, the
    frozen header and the column widths are left out. *)
Definition excel_fill (row : list (string * value)) : option string :=
  let status := series_get row "Status" (VStr "") in
  let fill_color := fill_color_of status in
  if String.eqb fill_color "" then None
  else Some (remove_char "#" fill_color).

Definition generate_excel (headers : list string)
    (rows : list (list (string * value)))
    : list (list value * option string) :=
  (map VStr headers, None) ::
  map (fun row => (map snd row, excel_fill row)) rows.

(** ** inventory_health_app.py: the table *)

Definition FORECAST_SUFFIX : string := "-25".

(** [s.endswith(suffix)]: [suffix] is one of the tails of [s]. *)
Fixpoint endswith (s suffix : string) : bool :=
  String.eqb s suffix ||
  match s with
  | EmptyString => false
  | String _ s' => endswith s' suffix
  end.

(** [[col for col in df.columns if col.endswith(FORECAST_SUFFIX)]] *)
Definition forecast_columns (columns : list string) : list string :=
  List.filter (fun col => endswith col FORECAST_SUFFIX) columns.

Definition required_cols : list string :=
  [ "SKU Code"; "SKU Description"; "SKU Category"; "Site"; "Source";
    "SOH"; "Safety Stock"; "Min Qty"; "Max Qty";
    "MOQ"; "Max Order Qty"; "Minor Order Multiple"; "Major Order Multiple" ].

Definition string_cols : list string :=
  [ "SKU Code"; "SKU Description"; "SKU Category"; "Site"; "Source" ].

Definition numeric_cols : list string :=
  [ "SOH"; "Safety Stock"; "Min Qty"; "Max Qty"; "MOQ"; "Max Order Qty";
    "Minor Order Multiple"; "Major Order Multiple" ].


(** [df[c] = ...]: a new column goes last, an existing one keeps its place. *)
Definition assign_column (columns : list string) (c : string) : list string :=
  if bool_decide (c ∈ columns) then columns else columns ++ [c].

(** The columns of [df] once lines 65-129 have added the derived ones
    (the last four only with a purchase-order report). *)
Definition derived_cols (with_po : bool) : list string :=
  [ "Status"; "Suggested Reorder Qty" ] ++
  (if with_po
   then [ "Runout Period"; "Next PO Arrival"; "Next PO Qty";
          "PO Mitigates OOS?" ]
   else []).

Definition enriched_columns (with_po : bool) (columns : list string)
    : list string :=
  foldl assign_column columns (derived_cols with_po).



(** The identity columns of an inventory line, after line 50, and its
    numeric cells. *)
Record inventory_line : Type := mk_inventory_line {
  line_sku : string;
  line_category : string;
  line_site : string;
  line_source : string;
  line_cells : gmap string cell
}.

(** [Series.unique]: the distinct values in order of first appearance. *)
Fixpoint unique_from (seen : list string) (l : list string) : list string :=
  match l with
  | [] => []
  | x :: rest =>
      if bool_decide (x ∈ seen) then unique_from seen rest
      else x :: unique_from (x :: seen) rest
  end.

Definition unique (l : list string) : list string := unique_from [] l.

Definition isin (x : string) (selected : list string) : bool :=
  bool_decide (x ∈ selected).

(** Lines 60-62: the sidebar filter. *)
Definition filter_table (selected_site selected_cat selected_source : list string)
    (df : list inventory_line) : list inventory_line :=
  List.filter (fun r => isin (line_site r) selected_site &&
                        isin (line_category r) selected_cat &&
                        isin (line_source r) selected_source) df.

(** Line 151: [min(600, 40 + 30 * len(df_display))]. *)
Definition table_height (n : nat) : Z := Z.min 600 (40 + 30 * Z.of_nat n).

(** Lines 109-129 on one row: the runout estimate and the index entry of the
    row's SKU feed [mitigates_oos]. *)
Definition po_mitigates_column (now : Z) (po_next_arrival : gmap string Z)
    (sku : string) (runout_period : cell) : string :=
  mitigates_oos now
    (mk_po_columns runout_period (get_next_po po_next_arrival sku)).

(** The statuses in the order of growing stock. *)
Definition status_rank (st : string) : nat :=
  if String.eqb st CRITICAL_BELOW_MIN then 0
  else if String.eqb st REORDER_LEVEL then 1
  else if String.eqb st HEALTHY then 2
  else if String.eqb st OVERSTOCKED then 3
  else 4.

Definition row_min_above_max : gmap string cell :=
  {[ "SOH" := Num 50; "Min Qty" := Num 100; "Max Qty" := Num 10;
     "MOQ" := Num 10 ]}.

(** Six hexadecimal digits, as [PatternFill] expects a colour. *)
Definition is_hex_digit (a : ascii) : bool :=
  let n := nat_of_ascii a in
  ((48 <=? n)%nat && (n <=? 57)%nat) || ((65 <=? n)%nat && (n <=? 70)%nat).

Definition is_rgb (s : string) : bool :=
  (String.length s =? 6)%nat && forallb is_hex_digit (list_ascii_of_string s).

Definition display_row_A : list (string * value) :=
  [ ("SKU Code", VStr "SKU001"); ("SOH", VNum (Num 30));
    ("Status", VStr (assess_status scenario_A)) ].

Definition po_two_lines : list po_line :=
  [ mk_po_line (Some "A1") (Num 3) (Some 200);
    mk_po_line (Some "A1 ") (Num 4) (Some 150) ].

Definition po_two_lines_swapped : list po_line :=
  [ mk_po_line (Some "A1 ") (Num 4) (Some 150);
    mk_po_line (Some "A1") (Num 3) (Some 200) ].

(** The forecast usage of the periods that [marks] shows as covered. *)
Fixpoint covered_total (row : gmap string cell) (forecast_cols : list string)
    (marks : list string) : Q :=
  match forecast_cols, marks with
  | col :: cols, mark :: rest =>
      ((if String.eqb mark COVERED
        then qty_or_zero (row_get row col NaN) else 0)
       + covered_total row cols rest)%Q
  | _, _ => 0%Q
  end.

Definition row_gap : gmap string cell :=
  {[ "SOH" := Num 100; "Jan-25" := Num 40; "Feb-25" := NaN;
     "Mar-25" := Num 70 ]}.


(** * The binary64 embedding

    The cells as the interpreter holds them: a float64 with the operations
    of IEEE 754 (Rocq's primitive floats: every operation rounds to nearest
    even, with infinities and NaN), or a text, which a forecast column can
    hold since only the required numeric columns are coerced (line 52).
    An operation between a number and a text raises [TypeError], as in
    Python; two texts compare as Python compares them and cannot be
    subtracted. *)

Module F64.

Import PrimFloat FloatOps SpecFloat.
#[local] Set Warnings "-inexact-float".
#[local] Open Scope float_scope.

Inductive cell : Type :=
| Float (f : float)
| Text (s : string).

Definition NaN : cell := Float nan.

(** [pd.isna]: a text is never missing. *)
Definition isna (c : cell) : bool :=
  match c with
  | Float f => is_nan f
  | Text _ => false
  end.

Definition sub (a b : cell) : outcome float :=
  match a, b with
  | Float x, Float y => Return (x - y)
  | _, _ => Raise TypeError
  end.

Definition div (a b : cell) : outcome float :=
  match a, b with
  | Float x, Float y => Return (x / y)
  | _, _ => Raise TypeError
  end.

Definition mul (a b : cell) : outcome float :=
  match a, b with
  | Float x, Float y => Return (x * y)
  | _, _ => Raise TypeError
  end.

(** [a < b] and [a <= b]; texts are ordered by code points, which on UTF-8
    is the order of the bytes. *)
Definition lt (a b : cell) : outcome bool :=
  match a, b with
  | Float x, Float y => Return (x <? y)
  | Text s, Text t => Return (String.ltb s t)
  | _, _ => Raise TypeError
  end.

Definition le (a b : cell) : outcome bool :=
  match a, b with
  | Float x, Float y => Return (x <=? y)
  | Text s, Text t => Return (String.leb s t)
  | _, _ => Raise TypeError
  end.

Definition gt (a b : cell) : outcome bool := lt b a.
Definition ge (a b : cell) : outcome bool := le b a.

(** Python's builtin [max(a, b)] with a number [b]: [b] replaces [a] only
    when [b > a]. *)
Definition py_max (a : cell) (b : float) : outcome float :=
  match a with
  | Float x => Return (if x <? b then b else x)
  | Text _ => Raise TypeError
  end.

(** The float of a small non-negative integer (exact below 2^53). *)
Definition float_of_Z (z : Z) : float := of_uint63 (Uint63.of_Z z).

(** [float(i)] for the index of [enumerate]. *)
Definition float_of_nat (i : nat) : float := float_of_Z (Z.of_nat i).

(** [np.ceil].  A float with a non-negative exponent is an integer
    already; otherwise its magnitude m * 2^e is below 2^53 and the ceiling is
    computed on integers.  The ceiling of a number in (-1, 0) is -0.0. *)
Definition ceil (x : float) : float :=
  match Prim2SF x with
  | S754_finite s m e =>
      if (0 <=? e)%Z then x
      else
        let q := (Zpos m / 2 ^ (- e))%Z in
        let exact := (Zpos m mod 2 ^ (- e) =? 0)%Z in
        if s then - float_of_Z q
        else float_of_Z (if exact then q else (q + 1)%Z)
  | _ => x
  end.

(** [int(x)] on a float: truncation toward zero; [ValueError] on NaN,
    [OverflowError] on an infinity. *)
Definition py_int (x : float) : outcome Z :=
  match Prim2SF x with
  | S754_nan => Raise ValueError
  | S754_infinity _ => Raise OverflowError
  | S754_zero _ => Return 0%Z
  | S754_finite s m e =>
      let mag := if (0 <=? e)%Z then (Zpos m * 2 ^ e)%Z
                 else (Zpos m / 2 ^ (- e))%Z in
      Return (if s then (- mag)%Z else mag)
  end.

(** The exact value of a finite float, as a rational. *)
Definition exact (x : float) : Q :=
  match Prim2SF x with
  | S754_finite s m e =>
      let n := if s then Zneg m else Zpos m in
      if (0 <=? e)%Z then inject_Z (n * 2 ^ e)
      else Qmake n (Z.to_pos (2 ^ (- e)))
  | _ => 0%Q
  end.

Definition row_get (row : gmap string cell) (k : string) (d : cell) : cell :=
  match row !! k with
  | Some c => c
  | None => d
  end.

Definition row_item (row : gmap string cell) (k : string) : outcome cell :=
  match row !! k with
  | Some c => Return c
  | None => Raise (KeyError k)
  end.

Definition three : cell := Float 3.
Definition zero : cell := Float 0.

(** ** inventory_utils.py *)

Definition assess_status (row : gmap string cell) : outcome string :=
  let soh := row_get row "SOH" NaN in
  let min_qty := row_get row "Min Qty" NaN in
  let max_qty := row_get row "Max Qty" NaN in
  if isna soh then Return MISSING_SOH
  else if isna min_qty || isna max_qty then Return MISSING_SOH
  else
    d ← sub max_qty min_qty;
    q ← div (Float d) three;
    reorder_threshold ← sub max_qty (Float q);
    below_min ← lt soh min_qty;
    if (below_min : bool) then Return CRITICAL_BELOW_MIN
    else
      below_threshold ← lt soh (Float reorder_threshold);
      if (below_threshold : bool) then Return REORDER_LEVEL
      else
        above_max ← gt soh max_qty;
        if (above_max : bool) then Return OVERSTOCKED else Return HEALTHY.

Definition suggest_reorder (row : gmap string cell) : outcome (option Z) :=
  let soh := row_get row "SOH" NaN in
  let min_qty := row_get row "Min Qty" NaN in
  let max_qty := row_get row "Max Qty" NaN in
  let moq := row_get row "MOQ" NaN in
  let minor_mult := row_get row "Minor Order Multiple" NaN in
  if isna soh || isna min_qty || isna max_qty || isna moq then Return None
  else
    d ← sub max_qty min_qty;
    q ← div (Float d) three;
    reorder_threshold ← sub max_qty (Float q);
    below_threshold ← lt soh (Float reorder_threshold);
    if (below_threshold : bool) then
      gap ← sub min_qty soh;
      base ← py_max moq gap;
      base ← (if negb (isna minor_mult) then
                positive ← gt minor_mult zero;
                if (positive : bool) then
                  ratio ← div (Float base) minor_mult;
                  mul (Float (ceil ratio)) minor_mult
                else Return base
              else Return base);
      n ← py_int base;
      Return (Some n)
    else Return None.

(** The loop body of [simulate_runout]. *)
Definition simulate_step (row : gmap string cell) (remaining_soh : cell)
    (col : string) : outcome (cell * string) :=
  let usage := row_get row col NaN in
  if isna usage || isna remaining_soh then Return (remaining_soh, NOT_COVERED)
  else
    covered ← ge remaining_soh usage;
    if (covered : bool) then
      r ← sub remaining_soh usage;
      Return (Float r, COVERED)
    else Return (remaining_soh, NOT_COVERED).

Fixpoint simulate_loop (row : gmap string cell) (remaining_soh : cell)
    (forecast_cols : list string) : outcome (list string) :=
  match forecast_cols with
  | [] => Return []
  | col :: rest =>
      step ← simulate_step row remaining_soh col;
      marks ← simulate_loop row (fst step) rest;
      Return (snd step :: marks)
  end.

Definition simulate_runout (row : gmap string cell)
    (forecast_cols : list string) : outcome (list string) :=
  simulate_loop row (row_get row "SOH" NaN) forecast_cols.

(** The value of [remaining_soh] once the loop has gone through
    [forecast_cols]. *)
Fixpoint simulate_remaining (row : gmap string cell) (remaining_soh : cell)
    (forecast_cols : list string) : outcome cell :=
  match forecast_cols with
  | [] => Return remaining_soh
  | col :: rest =>
      step ← simulate_step row remaining_soh col;
      simulate_remaining row (fst step) rest
  end.

(** ** inventory_health_app.py *)

Fixpoint estimate_loop (row : gmap string cell) (remaining : cell) (i : nat)
    (forecast_cols : list string) : outcome float :=
  match forecast_cols with
  | [] => Return nan
  | col :: rest =>
      let usage := row_get row col zero in
      if isna usage then estimate_loop row remaining (S i) rest
      else
        r ← sub remaining usage;
        out ← le (Float r) zero;
        if (out : bool) then Return (float_of_nat i)
        else estimate_loop row (Float r) (S i) rest
  end.

Definition estimate_runout (forecast_cols : list string)
    (row : gmap string cell) : outcome float :=
  match forecast_cols with
  | [] => Return nan
  | _ :: _ =>
      soh ← row_item row "SOH";
      none_left ← le soh zero;
      if (none_left : bool) then Return nan
      else
        remaining ← row_item row "SOH";
        estimate_loop row remaining 0 forecast_cols
  end.

(** ** Rows of the examples *)

Definition num_row (l : list (string * float)) : gmap string cell :=
  list_to_map (prod_map id Float <$> l).

Definition row_A : gmap string cell :=
  num_row [("SOH", 30); ("Min Qty", 50); ("Max Qty", 200); ("MOQ", 10);
           ("Minor Order Multiple", 5)].

Definition row_threshold : gmap string cell :=
  num_row [("SOH", 3.9); ("Min Qty", 1.1); ("Max Qty", 5.3)].

Definition row_multiple : gmap string cell :=
  num_row [("SOH", 0); ("Min Qty", 1); ("Max Qty", 10); ("MOQ", 2.7);
           ("Minor Order Multiple", 0.3)].

Definition row_gap_rounds : gmap string cell :=
  num_row [("SOH", 0.3); ("Min Qty", 3.3); ("Max Qty", 10); ("MOQ", 1)].

Definition row_big : gmap string cell :=
  num_row [("SOH", 0); ("Min Qty", 1); ("Max Qty", 10);
           ("MOQ", 9007199254740992); ("Minor Order Multiple", 3)].

Definition row_negative_moq : gmap string cell :=
  num_row [("SOH", 20); ("Min Qty", 10); ("Max Qty", 100); ("MOQ", -5)].

Definition row_overflow : gmap string cell :=
  num_row [("SOH", 0); ("Min Qty", 1); ("Max Qty", 10); ("MOQ", 1e308);
           ("Minor Order Multiple", 0.5)].

Definition row_infinite_moq : gmap string cell :=
  num_row [("SOH", 0); ("Min Qty", 1); ("Max Qty", 10); ("MOQ", infinity)].

Definition periods : list string := ["Jan-25"; "Feb-25"; "Mar-25"].

Definition forecast_row (soh : float) (usages : list cell)
    : gmap string cell :=
  <["SOH" := Float soh]> (list_to_map (zip periods usages)).

(** ** The rules in the words of the specification *)

(** A quantity is present when the row holds a number for it, absent when
    the column is unknown or holds the missing sentinel; a cell is numeric
    when it is not a text. *)
Definition present (row : gmap string cell) (k : string) (x : float) : Prop :=
  row !! k = Some (Float x) /\ is_nan x = false.

Definition absent (row : gmap string cell) (k : string) : Prop :=
  row !! k = None \/ exists x, row !! k = Some (Float x) /\ is_nan x = true.

Definition numeric (row : gmap string cell) (k : string) : Prop :=
  forall t, row !! k <> Some (Text t).

(** [max - (max - min) / 3], each operation rounded. *)
Definition reorder_threshold_of (lo hi : float) : float :=
  hi - (hi - lo) / 3.

(** The fixed-order rule of the status classifier; [<?] is the comparison
    of the processor. *)
Inductive status_rule (row : gmap string cell) : string -> Prop :=
| rule_missing_soh :
    absent row "SOH" -> status_rule row MISSING_SOH
| rule_missing_bound :
    absent row "Min Qty" \/ absent row "Max Qty" ->
    status_rule row MISSING_SOH
| rule_critical s lo hi :
    present row "SOH" s -> present row "Min Qty" lo ->
    present row "Max Qty" hi ->
    (s <? lo) = true -> status_rule row CRITICAL_BELOW_MIN
| rule_reorder s lo hi :
    present row "SOH" s -> present row "Min Qty" lo ->
    present row "Max Qty" hi ->
    (s <? lo) = false -> (s <? reorder_threshold_of lo hi) = true ->
    status_rule row REORDER_LEVEL
| rule_overstocked s lo hi :
    present row "SOH" s -> present row "Min Qty" lo ->
    present row "Max Qty" hi ->
    (s <? lo) = false -> (s <? reorder_threshold_of lo hi) = false ->
    (hi <? s) = true ->
    status_rule row OVERSTOCKED
| rule_healthy s lo hi :
    present row "SOH" s -> present row "Min Qty" lo ->
    present row "Max Qty" hi ->
    (s <? lo) = false -> (s <? reorder_threshold_of lo hi) = false ->
    (hi <? s) = false ->
    status_rule row HEALTHY.

(** The larger of the minimum order quantity [q] and the gap [lo - s]. *)
Definition order_base (s lo q : float) : float :=
  let gap := lo - s in
  if q <? gap then gap else q.

(** Rounding up to a multiple of [m]: the quotient, rounded to a float,
    then up to a whole number, times [m], rounded to a float. *)
Definition round_up (base m : float) : float := ceil (base / m) * m.

(** The multiple is applied when it is present and positive. *)
Inductive multiple_rule (row : gmap string cell) (base : float)
    : float -> Prop :=
| multiple_absent :
    absent row "Minor Order Multiple" -> multiple_rule row base base
| multiple_not_positive m :
    present row "Minor Order Multiple" m -> (0 <? m) = false ->
    multiple_rule row base base
| multiple_positive m :
    present row "Minor Order Multiple" m -> (0 <? m) = true ->
    multiple_rule row base (round_up base m).

(** Truncation to an integer: the fractional part of the value is dropped;
    a quantity that is not a number or not finite has no integer. *)
Inductive truncation (x : float) : outcome (option Z) -> Prop :=
| truncation_nan :
    is_nan x = true -> truncation x (Raise ValueError)
| truncation_infinite :
    is_infinity x = true -> truncation x (Raise OverflowError)
| truncation_finite :
    is_finite x = true -> truncation x (Return (Some (Qtrunc (exact x)))).

(** The reorder rule. *)
Inductive reorder_rule (row : gmap string cell)
    : outcome (option Z) -> Prop :=
| reorder_missing :
    absent row "SOH" \/ absent row "Min Qty" \/ absent row "Max Qty" \/
    absent row "MOQ" ->
    reorder_rule row (Return None)
| reorder_not_below s lo hi q :
    present row "SOH" s -> present row "Min Qty" lo ->
    present row "Max Qty" hi -> present row "MOQ" q ->
    (s <? reorder_threshold_of lo hi) = false ->
    reorder_rule row (Return None)
| reorder_below s lo hi q b r :
    present row "SOH" s -> present row "Min Qty" lo ->
    present row "Max Qty" hi -> present row "MOQ" q ->
    (s <? reorder_threshold_of lo hi) = true ->
    multiple_rule row (order_base s lo q) b ->
    truncation b r ->
    reorder_rule row r.

(** The remaining stock [simulate_runout] holds when it reaches period
    [i]. *)
Definition remaining_before (row : gmap string cell)
    (forecast_cols : list string) (i : nat) : outcome cell :=
  simulate_remaining row (row_get row "SOH" NaN) (take i forecast_cols).

(** Coverage of a period: stock and usage present, stock at least usage. *)
Definition covered (remaining usage : float) : bool :=
  negb (is_nan usage) && negb (is_nan remaining) && (usage <=? remaining).

(** The runout estimate: starting from on-hand, each period subtracts its
    usage if present. *)
Definition subtract_usage (row : gmap string cell) (r : float)
    (col : string) : float :=
  match row_get row col zero with
  | Float u => if is_nan u then r else r - u
  | Text _ => r
  end.

Definition stock_after (row : gmap string cell) (s : float)
    (forecast_cols : list string) : float :=
  foldl (subtract_usage row) s forecast_cols.

(** Period [i] is the first after which the stock is exhausted. *)
Definition runs_out_at (row : gmap string cell) (s : float)
    (forecast_cols : list string) (i : nat) : Prop :=
  (i < length forecast_cols)%nat /\
  (stock_after row s (take (S i) forecast_cols) <=? 0) = true /\
  forall j, (j < i)%nat ->
            (stock_after row s (take (S j) forecast_cols) <=? 0) = false.

Definition never_runs_out (row : gmap string cell) (s : float)
    (forecast_cols : list string) : Prop :=
  forall j, (j < length forecast_cols)%nat ->
            (stock_after row s (take (S j) forecast_cols) <=? 0) = false.

(** No runout within the horizon. *)
Definition no_runout (row : gmap string cell) (s : float)
    (forecast_cols : list string) : Prop :=
  (s <=? 0) = true \/ forecast_cols = [] \/
  never_runs_out row s forecast_cols.

(** The stock left of [s] after the usages [us], all present. *)
Definition stock_left (s : float) (us : list float) : float :=
  foldl PrimFloat.sub s us.

(** A float that is a number and not an infinity. *)
Definition finite (x : float) : Prop :=
  match Prim2SF x with
  | S754_zero _ | S754_finite _ _ _ => True
  | _ => False
  end.

(** A float that is not a finite negative number. *)
Definition not_negative (x : float) : Prop :=
  match Prim2SF x with
  | S754_finite true _ _ => False
  | _ => True
  end.

(** A float, in its binary representation, that is above zero. *)
Definition strictly_positive (x : spec_float) : Prop :=
  match x with
  | S754_finite false _ _ | S754_infinity false => True
  | _ => False
  end.

End F64.

(** * Properties *)

(** ** Cells and rows *)

Lemma Qltb_lt (x y : Q) : Qltb x y = true <-> (x < y)%Q.
Proof. unfold Qltb, Qlt. apply Z.ltb_lt. Qed.

Lemma Qltb_nlt (x y : Q) : Qltb x y = false <-> ~ (x < y)%Q.
Proof. rewrite <- Qltb_lt. destruct (Qltb x y); intuition congruence. Qed.

Lemma Qle_bool_nle (x y : Q) : Qle_bool x y = false <-> (y < x)%Q.
Proof.
  split.
  - intros H. apply Qnot_le_lt. intros Hle.
    apply Qle_bool_iff in Hle. congruence.
  - intros H. destruct (Qle_bool x y) eqn:E; [|reflexivity].
    apply Qle_bool_iff in E. exfalso. apply (Qlt_not_le _ _ H E).
Qed.

Lemma row_get_present row k q d : present row k q -> row_get row k d = Num q.
Proof. unfold present, row_get. intros ->. reflexivity. Qed.

Lemma row_get_absent row k : absent row k <-> row_get row k NaN = NaN.
Proof.
  unfold absent, row_get. destruct (row !! k) as [[|q]|]; split; intros H;
    try reflexivity; try (destruct H; congruence); auto; discriminate.
Qed.

Lemma row_get_cases row k :
  (absent row k /\ row_get row k NaN = NaN) \/
  (exists q, present row k q /\ row_get row k NaN = Num q).
Proof.
  unfold absent, present, row_get.
  destruct (row !! k) as [[|q]|]; eauto.
Qed.



Lemma statuses_NoDup : NoDup statuses.
Proof.
  unfold statuses. repeat constructor; rewrite ?elem_of_cons, ?elem_of_nil;
    intros H; repeat destruct H as [H|H]; try discriminate H; auto.
Qed.

(** ** The status classifier *)

Example scenario_A_status : assess_status scenario_A = CRITICAL_BELOW_MIN.
Proof. vm_compute. reflexivity. Qed.

Example scenario_A_reorder : suggest_reorder scenario_A = Return (Some 20).
Proof. vm_compute. reflexivity. Qed.

Example scenario_D_marks :
  simulate_runout scenario_D scenario_D_cols = [COVERED; COVERED; NOT_COVERED].
Proof. vm_compute. reflexivity. Qed.

Example scenario_D_runout :
  estimate_runout scenario_D_cols scenario_D = Return (Num 2).
Proof. vm_compute. reflexivity. Qed.

Example strip_example : strip "  AB 1 	" = "AB 1".
Proof. vm_compute. reflexivity. Qed.

(** A no-break space (U+00A0) and an ideographic space (U+3000) are
    stripped like the ASCII ones. *)
Example strip_unicode_example :
  strip (String (ascii_of_nat 227) (String (ascii_of_nat 128)
           (String (ascii_of_nat 128)
              ("A1" +:+ String (ascii_of_nat 194)
                          (String (ascii_of_nat 160) "")))))
  = "A1".
Proof. vm_compute. reflexivity. Qed.

Lemma assess_status_present row s lo hi :
  present row "SOH" s -> present row "Min Qty" lo -> present row "Max Qty" hi ->
  assess_status row =
    if Qltb s lo then CRITICAL_BELOW_MIN
    else if Qltb s (reorder_threshold_of lo hi) then REORDER_LEVEL
    else if Qltb hi s then OVERSTOCKED
    else HEALTHY.
Proof.
  intros Hs Hlo Hhi. unfold assess_status.
  rewrite (row_get_present _ _ _ _ Hs), (row_get_present _ _ _ _ Hlo),
    (row_get_present _ _ _ _ Hhi).
  reflexivity.
Qed.


Lemma assess_status_missing_inv row :
  assess_status row = MISSING_SOH ->
  absent row "SOH" \/ absent row "Min Qty" \/ absent row "Max Qty".
Proof.
  intros H.
  destruct (row_get_cases row "SOH") as [[Ha _]|[s [Hs _]]]; [tauto|].
  destruct (row_get_cases row "Min Qty") as [[Ha _]|[lo [Hlo _]]]; [tauto|].
  destruct (row_get_cases row "Max Qty") as [[Ha _]|[hi [Hhi _]]]; [tauto|].
  rewrite (assess_status_present row s lo hi Hs Hlo Hhi) in H.
  destruct (Qltb s lo); [discriminate H|].
  destruct (Qltb s (reorder_threshold_of lo hi)); [discriminate H|].
  destruct (Qltb hi s); discriminate H.
Qed.



Lemma assess_status_in_statuses row : assess_status row ∈ statuses.
Proof.
  unfold assess_status, statuses.
  repeat match goal with
         | |- context [if ?b then _ else _] => destruct b
         end; set_solver.
Qed.

(** C2 as stated fails: with on-hand 1 below min 2 and no max quantity
    the status is MISSING_SOH, not CRITICAL_BELOW_MIN. *)
Lemma assess_status_below_min_without_max :
  present row_max_absent "SOH" 1 /\ present row_max_absent "Min Qty" 2 /\
  (1 < 2)%Q /\
  assess_status row_max_absent = MISSING_SOH /\
  assess_status row_max_absent <> CRITICAL_BELOW_MIN.
Proof.
  split; [reflexivity|]. split; [reflexivity|]. split; [reflexivity|].
  split; [vm_compute; reflexivity|]. vm_compute. discriminate.
Qed.

(** C2 (amended): for every row in which on-hand, min and max quantity are
    all present and on-hand < min, the status is CRITICAL_BELOW_MIN. *)
Theorem assess_status_below_min row s lo hi :
  present row "SOH" s -> present row "Min Qty" lo ->
  present row "Max Qty" hi -> (s < lo)%Q ->
  assess_status row = CRITICAL_BELOW_MIN.
Proof.
  intros Hs Hlo Hhi Hlt.
  rewrite (assess_status_present row s lo hi Hs Hlo Hhi).
  apply Qltb_lt in Hlt. rewrite Hlt. reflexivity.
Qed.

Lemma assess_status_below_min_witness :
  assess_status scenario_A = CRITICAL_BELOW_MIN.
Proof.
  apply (assess_status_below_min scenario_A 30 50 200);
    vm_compute; reflexivity.
Defined.


(** ** Truncation and rounding up *)








Lemma Qtrunc_inject_Z (z : Z) : Qtrunc (inject_Z z) = z.
Proof. unfold Qtrunc. simpl. apply Z.quot_1_r. Qed.









(** ** The reorder suggester *)

Lemma Qeq_bool_pos (m : Q) : Qltb 0 m = true -> Qeq_bool m 0 = false.
Proof.
  intros H. apply Qltb_lt in H.
  destruct (Qeq_bool m 0) eqn:E; [|reflexivity].
  apply Qeq_bool_iff in E. rewrite E in H. discriminate H.
Qed.

Lemma suggest_reorder_present row s lo hi q :
  present row "SOH" s -> present row "Min Qty" lo ->
  present row "Max Qty" hi -> present row "MOQ" q ->
  suggest_reorder row =
    if Qltb s (reorder_threshold_of lo hi)
    then Return (Some (Qtrunc (order_quantity row s lo q)))
    else Return None.
Proof.
  intros Hs Hlo Hhi Hq. unfold suggest_reorder, order_quantity.
  rewrite (row_get_present _ _ _ _ Hs), (row_get_present _ _ _ _ Hlo),
    (row_get_present _ _ _ _ Hhi), (row_get_present _ _ _ _ Hq).
  cbn [isna orb].
  change (cell_ltb (Num s) (cell_sub (Num hi)
            (cell_div (cell_sub (Num hi) (Num lo)) three)))
    with (Qltb s (reorder_threshold_of lo hi)).
  destruct (Qltb s (reorder_threshold_of lo hi)); [|reflexivity].
  assert (Hbase : py_max (Num q) (cell_sub (Num lo) (Num s))
                  = Num (order_base s lo q)).
  { unfold py_max, cell_gtb, order_base. simpl.
    destruct (Qltb q (lo - s)); reflexivity. }
  rewrite Hbase.
  destruct (row_get row "Minor Order Multiple" NaN) as [|m]; [reflexivity|].
  cbn [isna negb andb cell_gtb cell_ltb zero].
  destruct (Qltb 0 m) eqn:E; [|reflexivity].
  unfold cell_div. rewrite (Qeq_bool_pos m E). reflexivity.
Qed.

Lemma suggest_reorder_absent row :
  absent row "SOH" \/ absent row "Min Qty" \/ absent row "Max Qty" \/
  absent row "MOQ" ->
  suggest_reorder row = Return None.
Proof.
  intros H. unfold suggest_reorder.
  destruct H as [H|[H|[H|H]]]; apply row_get_absent in H; rewrite H;
    cbn [isna]; rewrite ?orb_true_r; reflexivity.
Qed.






(** C9: whenever the status is MISSING_SOH (on-hand, min or max absent), the
    suggester returns None for that row. *)
Theorem missing_status_no_suggestion row :
  assess_status row = MISSING_SOH -> suggest_reorder row = Return None.
Proof.
  intros H. apply assess_status_missing_inv in H.
  apply suggest_reorder_absent. tauto.
Qed.

Lemma missing_status_no_suggestion_witness :
  assess_status row_max_absent = MISSING_SOH /\
  suggest_reorder row_max_absent = Return None.
Proof.
  split; [vm_compute; reflexivity|].
  apply (missing_status_no_suggestion row_max_absent).
  vm_compute. reflexivity.
Defined.





Example scenario_A_divisible :
  present scenario_A "MOQ" 10 /\ present scenario_A "Minor Order Multiple" 5 /\
  suggest_reorder scenario_A = Return (Some 20) /\ 20 mod 5 = 0.
Proof. vm_compute. auto. Qed.

(** ** The coverage simulation *)

Lemma COVERED_neq : COVERED <> NOT_COVERED.
Proof. discriminate. Qed.

Lemma covers_dec (r u : cell) : covers r u \/ ~ covers r u.
Proof.
  destruct r as [|r0]; [right; intros (? & ? & ? & _); discriminate|].
  destruct u as [|u0]; [right; intros (? & ? & _ & ? & _); discriminate|].
  destruct (Qlt_le_dec r0 u0) as [Hlt|Hle].
  - right. intros (r & u & [= <-] & [= <-] & Hle).
    apply (Qlt_not_le _ _ Hlt Hle).
  - left. exists r0, u0. auto.
Qed.

Lemma simulate_step_covers row r col :
  covers r (row_get row col NaN) ->
  simulate_step row r col = (cell_sub r (row_get row col NaN), COVERED).
Proof.
  intros (r0 & u & -> & Hu & Hle). unfold simulate_step. rewrite Hu. simpl.
  apply Qle_bool_iff in Hle. rewrite Hle. reflexivity.
Qed.

Lemma simulate_step_fails row r col :
  ~ covers r (row_get row col NaN) ->
  simulate_step row r col = (r, NOT_COVERED).
Proof.
  intros H. unfold simulate_step.
  destruct (row_get row col NaN) as [|u]; [reflexivity|].
  destruct r as [|r0]; [reflexivity|]. simpl.
  destruct (Qle_bool u r0) eqn:E; [|reflexivity].
  exfalso. apply H. exists r0, u. apply Qle_bool_iff in E. auto.
Qed.



Lemma simulate_loop_length row r cols :
  length (simulate_loop row r cols) = length cols.
Proof.
  revert r. induction cols as [|col rest IH]; intros r; simpl; [reflexivity|].
  destruct (simulate_step row r col) as [r' mark]. simpl. f_equal. apply IH.
Qed.

Lemma simulate_remaining_cons row r col rest :
  simulate_remaining row r (col :: rest) =
  simulate_remaining row (fst (simulate_step row r col)) rest.
Proof. reflexivity. Qed.


Lemma simulate_loop_app row r pre post :
  simulate_loop row r (pre ++ post) =
  simulate_loop row r pre ++
  simulate_loop row (simulate_remaining row r pre) post.
Proof.
  revert r. induction pre as [|col rest IH]; intros r; [reflexivity|].
  rewrite simulate_remaining_cons, <- app_comm_cons.
  cbn [simulate_loop].
  destruct (simulate_step row r col) as [r' mark].
  rewrite <- app_comm_cons. f_equal. apply IH.
Qed.













(** ** The runout estimate *)

Lemma stock_after_cons row s col rest :
  stock_after row s (col :: rest) = stock_after row (subtract_usage row s col) rest.
Proof. reflexivity. Qed.

Lemma never_runs_out_cons row s col rest :
  (0 < subtract_usage row s col)%Q ->
  never_runs_out row (subtract_usage row s col) rest ->
  never_runs_out row s (col :: rest).
Proof.
  intros Hpos Hrest j Hj. destruct j as [|j].
  - exact Hpos.
  - change (take (S (S j)) (col :: rest)) with (col :: take (S j) rest).
    rewrite stock_after_cons. apply Hrest. simpl in Hj. lia.
Qed.

Lemma runs_out_at_cons row s col rest i :
  (0 < subtract_usage row s col)%Q ->
  runs_out_at row (subtract_usage row s col) rest i ->
  runs_out_at row s (col :: rest) (S i).
Proof.
  intros Hpos (Hlen & Hle & Hbefore). split; [simpl; lia|]. split.
  - change (take (S (S i)) (col :: rest)) with (col :: take (S i) rest).
    rewrite stock_after_cons. exact Hle.
  - intros j Hj. destruct j as [|j]; [exact Hpos|].
    change (take (S (S j)) (col :: rest)) with (col :: take (S j) rest).
    rewrite stock_after_cons. apply Hbefore. lia.
Qed.

Lemma runs_out_at_head row s col rest :
  (subtract_usage row s col <= 0)%Q -> runs_out_at row s (col :: rest) 0.
Proof.
  intros Hle. split; [simpl; lia|]. split; [exact Hle|]. intros j Hj. lia.
Qed.



(** The loop entered at index [k] with positive stock [r]: it either falls
    through, and the stock stays positive, or returns [k + i] for the first
    period [i] of the remaining columns that exhausts the stock. *)
Lemma estimate_loop_spec row cols :
  forall (r : Q) (k : nat), (0 < r)%Q ->
    (estimate_loop row (Num r) k cols = NaN /\ never_runs_out row r cols) \/
    (exists i, estimate_loop row (Num r) k cols
                 = Num (inject_Z (Z.of_nat (k + i))) /\
               runs_out_at row r cols i).
Proof.
  induction cols as [|col rest IH]; intros r k Hr.
  { left. split; [reflexivity|]. intros j Hj. simpl in Hj. lia. }
  assert (Hnext : (0 < subtract_usage row r col)%Q ->
            estimate_loop row (Num r) k (col :: rest)
            = estimate_loop row (Num (subtract_usage row r col)) (S k) rest ->
            (estimate_loop row (Num r) k (col :: rest) = NaN /\
             never_runs_out row r (col :: rest)) \/
            (exists i, estimate_loop row (Num r) k (col :: rest)
                         = Num (inject_Z (Z.of_nat (k + i))) /\
                       runs_out_at row r (col :: rest) i)).
  { intros Hpos ->.
    destruct (IH _ (S k) Hpos) as [[-> Hnever] | (i & -> & Hi)].
    - left. split; [reflexivity|]. apply never_runs_out_cons; assumption.
    - right. exists (S i). split.
      + do 3 f_equal. lia.
      + apply runs_out_at_cons; assumption. }
  destruct (row_get row col zero) as [|u] eqn:Eu.
  - assert (Hsub : subtract_usage row r col = r).
    { unfold subtract_usage. rewrite Eu. reflexivity. }
    apply Hnext; rewrite Hsub; [exact Hr|].
    cbn [estimate_loop]. rewrite Eu. reflexivity.
  - assert (Hsub : subtract_usage row r col = (r - u)%Q).
    { unfold subtract_usage. rewrite Eu. reflexivity. }
    destruct (Qle_bool (r - u) 0) eqn:E.
    + right. exists 0%nat. split.
      * cbn [estimate_loop]. rewrite Eu. cbn [isna cell_sub cell_leb zero].
        rewrite E. do 3 f_equal. lia.
      * apply runs_out_at_head. rewrite Hsub. apply Qle_bool_iff, E.
    + apply Hnext; rewrite Hsub; [apply Qle_bool_nle, E|].
      cbn [estimate_loop]. rewrite Eu. cbn [isna cell_sub cell_leb zero].
      rewrite E. reflexivity.
Qed.

Lemma estimate_loop_NaN row cols k : estimate_loop row NaN k cols = NaN.
Proof.
  revert k. induction cols as [|col rest IH]; intros k; [reflexivity|].
  cbn [estimate_loop]. destruct (row_get row col zero); cbn; apply IH.
Qed.

Lemma estimate_runout_nil row : estimate_runout [] row = Return NaN.
Proof. reflexivity. Qed.

Lemma estimate_runout_cons row col rest soh :
  row !! "SOH" = Some soh ->
  estimate_runout (col :: rest) row =
    if cell_leb soh zero then Return NaN
    else Return (estimate_loop row soh 0 (col :: rest)).
Proof.
  intros H. unfold estimate_runout, row_item. rewrite H. cbn [mbind outcome_bind].
  destruct (cell_leb soh zero); reflexivity.
Qed.


(** The two ways [estimate_runout] ends on a row that has an on-hand
    column. *)
Lemma estimate_runout_cases row cols soh :
  row !! "SOH" = Some soh ->
  (estimate_runout cols row = Return NaN /\ no_runout row soh cols) \/
  (exists i s, estimate_runout cols row = Return (Num (inject_Z (Z.of_nat i))) /\
               soh = Num s /\ (0 < s)%Q /\ runs_out_at row s cols i).
Proof.
  intros Hsoh. destruct cols as [|col rest].
  { left. split; [reflexivity|]. unfold no_runout. tauto. }
  rewrite (estimate_runout_cons row col rest soh Hsoh).
  destruct soh as [|s].
  { left. split; [cbn [cell_leb]; rewrite estimate_loop_NaN; reflexivity|].
    unfold no_runout. tauto. }
  cbn [cell_leb zero]. destruct (Qle_bool s 0) eqn:E.
  { left. split; [reflexivity|]. apply Qle_bool_iff in E.
    unfold no_runout. eauto. }
  apply Qle_bool_nle in E.
  destruct (estimate_loop_spec row (col :: rest) s 0 E)
    as [[-> Hnever] | (i & -> & Hi)].
  - left. split; [reflexivity|]. unfold no_runout. eauto 6.
  - right. exists i, s. auto.
Qed.





(** ** Exact exhaustion *)







(** ** The purchase-order mitigation check *)

Lemma normalize_midnight (t : Z) :
  normalize t mod ns_per_day = 0 /\
  normalize t <= t < normalize t + ns_per_day.
Proof.
  unfold normalize.
  assert (Hpos : 0 < ns_per_day) by reflexivity.
  assert (H := Z.mod_pos_bound t ns_per_day Hpos).
  split; [|lia].
  rewrite Zminus_mod_idemp_r, Z.sub_diag. reflexivity.
Qed.

Lemma Timedelta_whole_weeks (n : Z) :
  Timedelta_weeks (inject_Z n) = n * ns_per_week.
Proof.
  unfold Timedelta_weeks. rewrite <- inject_Z_mult. apply Qtrunc_inject_Z.
Qed.

Lemma mitigates_oos_present now row period arrival :
  Runout_Period row = Num period -> Next_PO_Arrival row = Some arrival ->
  mitigates_oos now row =
    if arrival <=? normalize now + Timedelta_weeks period
    then MITIGATES else DOES_NOT_MITIGATE.
Proof. intros Hp Ha. unfold mitigates_oos. rewrite Hp, Ha. reflexivity. Qed.

(** C7: the check returns UNKNOWN exactly when Runout Period or Next PO
    Arrival is absent; otherwise, with runout_date = today normalized to
    midnight plus Runout Period weeks, it returns MITIGATES when
    Next PO Arrival <= runout_date and DOES_NOT_MITIGATE otherwise.  It is a
    function of its two inputs and of the clock, and depends on the clock
    only through the current date. *)
Theorem mitigates_oos_rule :
  forall (now : Z) (row : po_columns),
    (mitigates_oos now row = UNKNOWN <->
     Runout_Period row = NaN \/ Next_PO_Arrival row = None) /\
    (forall period arrival,
       Runout_Period row = Num period -> Next_PO_Arrival row = Some arrival ->
       (arrival <= normalize now + Timedelta_weeks period ->
        mitigates_oos now row = MITIGATES) /\
       (normalize now + Timedelta_weeks period < arrival ->
        mitigates_oos now row = DOES_NOT_MITIGATE)) /\
    (normalize now mod ns_per_day = 0 /\
     normalize now <= now < normalize now + ns_per_day) /\
    (forall n : Z, Timedelta_weeks (inject_Z n) = n * ns_per_week) /\
    (forall now', normalize now' = normalize now ->
                  mitigates_oos now' row = mitigates_oos now row).
Proof.
  intros now row. split; [|split; [|split; [|split]]].
  - unfold mitigates_oos.
    destruct (Runout_Period row) as [|period]; [tauto|].
    destruct (Next_PO_Arrival row) as [arrival|]; [|tauto].
    split.
    + destruct (arrival <=? _); discriminate.
    + intros [H|H]; discriminate H.
  - intros period arrival Hp Ha.
    rewrite (mitigates_oos_present now row period arrival Hp Ha).
    split; intros H.
    + apply Z.leb_le in H. rewrite H. reflexivity.
    + apply Z.leb_gt in H. rewrite H. reflexivity.
  - apply normalize_midnight.
  - apply Timedelta_whole_weeks.
  - intros now' H. unfold mitigates_oos. rewrite H. reflexivity.
Qed.

Example scenario_E_mitigates : mitigates_oos clock_E scenario_E = MITIGATES.
Proof. vm_compute. reflexivity. Qed.

(** ** The PO-by-SKU index *)

Lemma clean_sku_is_Some l : is_Some (SKU_Code (clean_sku l)).
Proof. unfold clean_sku. simpl. destruct (SKU_Code l); simpl; eauto. Qed.

(** After line 80 no SKU Code is missing any more, so line 88 only drops
    the lines without a date. *)
Lemma clean_po_filter_date df_po :
  clean_po df_po =
  map clean_sku
    (List.filter (fun l => bool_decide (is_Some (Expected_Delivery_Date l)))
       df_po).
Proof.
  unfold clean_po, dropna. induction df_po as [|l df IH]; [reflexivity|].
  cbn [map List.filter]. rewrite IH.
  unfold keep_line at 1.
  destruct (clean_sku_is_Some l) as [k ->]. cbn [clean_sku Expected_Delivery_Date].
  destruct (Expected_Delivery_Date l); reflexivity.
Qed.

Lemma clean_po_keeps_missing_sku df_po l d :
  l ∈ df_po -> SKU_Code l = None -> Expected_Delivery_Date l = Some d ->
  mk_po_line (Some "nan") (Order_Qty l) (Some d) ∈ clean_po df_po.
Proof.
  intros Hin Hsku Hd. rewrite clean_po_filter_date.
  apply list_elem_of_In, in_map_iff. exists l. split.
  - unfold clean_sku. rewrite Hsku, Hd. reflexivity.
  - apply filter_In. split; [apply list_elem_of_In, Hin|].
    rewrite Hd. reflexivity.
Qed.

Lemma clean_po_drops_unparsed df_po l :
  l ∈ clean_po df_po ->
  is_Some (SKU_Code l) /\ is_Some (Expected_Delivery_Date l).
Proof.
  unfold clean_po, dropna. intros H.
  apply list_elem_of_In, filter_In in H. destruct H as [_ H].
  unfold keep_line in H.
  destruct (SKU_Code l), (Expected_Delivery_Date l); try discriminate H; eauto.
Qed.

Lemma groupby_min_snoc df l :
  groupby_min (df ++ [l]) =
  match SKU_Code l, Expected_Delivery_Date l with
  | Some k, Some d =>
      match groupby_min df !! k with
      | Some d' => <[k := Z.min d' d]> (groupby_min df)
      | None => <[k := d]> (groupby_min df)
      end
  | _, _ => groupby_min df
  end.
Proof. unfold groupby_min. rewrite foldl_snoc. reflexivity. Qed.

(** The date recorded for a SKU is the date of one of its lines and is
    earlier than or equal to the date of each of them; a SKU without a dated
    line has no entry. *)
Lemma groupby_min_lookup df k :
  match groupby_min df !! k with
  | Some d =>
      (exists l, l ∈ df /\ SKU_Code l = Some k /\
                 Expected_Delivery_Date l = Some d) /\
      (forall l d', l ∈ df -> SKU_Code l = Some k ->
                    Expected_Delivery_Date l = Some d' -> d <= d')
  | None =>
      forall l d', l ∈ df -> SKU_Code l = Some k ->
                   Expected_Delivery_Date l = Some d' -> False
  end.
Proof.
  induction df as [|l df IH] using rev_ind.
  { unfold groupby_min. simpl. rewrite lookup_empty.
    intros l d' H. apply elem_of_nil in H. destruct H. }
  rewrite groupby_min_snoc.
  assert (Hskip : forall m : gmap string Z,
             m !! k = groupby_min df !! k ->
             (forall d', SKU_Code l = Some k ->
                         Expected_Delivery_Date l = Some d' -> False) ->
             match m !! k with
             | Some d =>
                 (exists l0, l0 ∈ df ++ [l] /\ SKU_Code l0 = Some k /\
                             Expected_Delivery_Date l0 = Some d) /\
                 (forall l0 d', l0 ∈ df ++ [l] -> SKU_Code l0 = Some k ->
                                Expected_Delivery_Date l0 = Some d' -> d <= d')
             | None =>
                 forall l0 d', l0 ∈ df ++ [l] -> SKU_Code l0 = Some k ->
                               Expected_Delivery_Date l0 = Some d' -> False
             end).
  { intros m -> Hl. destruct (groupby_min df !! k) as [d|].
    - destruct IH as [(l0 & Hin & Hk & Hd) Hmin]. split.
      + exists l0. rewrite elem_of_app. auto.
      + intros l1 d' Hin1 Hk1 Hd1. apply elem_of_app in Hin1 as [Hin1|Hin1].
        * eapply Hmin; eauto.
        * apply list_elem_of_singleton in Hin1. subst l1.
          exfalso. eapply Hl; eauto.
    - intros l1 d' Hin1 Hk1 Hd1. apply elem_of_app in Hin1 as [Hin1|Hin1].
      + eapply IH; eauto.
      + apply list_elem_of_singleton in Hin1. subst l1. eapply Hl; eauto. }
  destruct (SKU_Code l) as [k'|] eqn:Ek; [|apply Hskip; [reflexivity|discriminate]].
  destruct (Expected_Delivery_Date l) as [d|] eqn:Ed;
    [|apply Hskip; [reflexivity|discriminate]].
  destruct (decide (k' = k)) as [->|Hne].
  2: { destruct (groupby_min df !! k') ; apply Hskip;
         try (apply lookup_insert_ne; exact Hne); congruence. }
  destruct (groupby_min df !! k) as [d0|] eqn:E0.
  - rewrite lookup_insert_eq.
    destruct IH as [(l0 & Hin & Hk & Hd) Hmin]. split.
    + destruct (Z.min_spec d0 d) as [[_ ->]|[_ ->]].
      * exists l0. rewrite elem_of_app. auto.
      * exists l. rewrite elem_of_app, list_elem_of_singleton. auto.
    + intros l1 d' Hin1 Hk1 Hd1. apply elem_of_app in Hin1 as [Hin1|Hin1].
      * specialize (Hmin l1 d' Hin1 Hk1 Hd1). lia.
      * apply list_elem_of_singleton in Hin1. subst l1.
        assert (d' = d) by congruence. lia.
  - rewrite lookup_insert_eq. split.
    + exists l. rewrite elem_of_app, list_elem_of_singleton. auto.
    + intros l1 d' Hin1 Hk1 Hd1. apply elem_of_app in Hin1 as [Hin1|Hin1].
      * exfalso. eapply IH; eauto.
      * apply list_elem_of_singleton in Hin1. subst l1.
        assert (d' = d) by congruence. lia.
Qed.

Lemma groupby_sum_snoc df l :
  groupby_sum (df ++ [l]) =
  match SKU_Code l with
  | Some k =>
      match groupby_sum df !! k with
      | Some q => <[k := (q + qty_or_zero (Order_Qty l))%Q]> (groupby_sum df)
      | None => <[k := (0 + qty_or_zero (Order_Qty l))%Q]> (groupby_sum df)
      end
  | None => groupby_sum df
  end.
Proof. unfold groupby_sum. rewrite foldl_snoc. reflexivity. Qed.

Lemma qty_of_sku_snoc k df l :
  qty_of_sku k (df ++ [l]) =
  if decide (SKU_Code l = Some k)
  then (qty_of_sku k df + qty_or_zero (Order_Qty l))%Q
  else qty_of_sku k df.
Proof. unfold qty_of_sku. rewrite foldl_snoc. reflexivity. Qed.

Lemma has_sku_snoc k df l :
  has_sku k (df ++ [l]) <-> has_sku k df \/ SKU_Code l = Some k.
Proof.
  unfold has_sku. split.
  - intros (l0 & Hin & Hk). apply elem_of_app in Hin as [Hin|Hin]; [eauto|].
    apply list_elem_of_singleton in Hin. subst l0. auto.
  - intros [(l0 & Hin & Hk) | Hk].
    + exists l0. rewrite elem_of_app. auto.
    + exists l. rewrite elem_of_app, list_elem_of_singleton. auto.
Qed.

(** The quantity recorded for a SKU is the sum, in line order, of the
    present order quantities of its lines; a SKU without a line has no
    entry. *)
Lemma groupby_sum_lookup df k :
  match groupby_sum df !! k with
  | Some q => has_sku k df /\ q = qty_of_sku k df
  | None => ~ has_sku k df /\ qty_of_sku k df = 0%Q
  end.
Proof.
  induction df as [|l df IH] using rev_ind.
  { unfold groupby_sum. simpl. rewrite lookup_empty. split; [|reflexivity].
    intros (l & Hin & _). apply elem_of_nil in Hin. destruct Hin. }
  rewrite groupby_sum_snoc, qty_of_sku_snoc.
  destruct (decide (SKU_Code l = Some k)) as [Hk|Hk].
  - rewrite Hk. destruct (groupby_sum df !! k) as [q|];
      rewrite lookup_insert_eq; destruct IH as [IH1 IH2]; split.
    + apply has_sku_snoc. auto.
    + rewrite IH2. reflexivity.
    + apply has_sku_snoc. auto.
    + rewrite IH2. reflexivity.
  - assert (Hsame : forall m : gmap string Q,
              m !! k = groupby_sum df !! k ->
              match m !! k with
              | Some q => has_sku k (df ++ [l]) /\ q = qty_of_sku k df
              | None => ~ has_sku k (df ++ [l]) /\ qty_of_sku k df = 0%Q
              end).
    { intros m ->. destruct (groupby_sum df !! k); destruct IH as [IH1 IH2];
        rewrite has_sku_snoc; tauto. }
    destruct (SKU_Code l) as [k'|]; [|apply Hsame; reflexivity].
    assert (k' <> k) by congruence.
    destruct (groupby_sum df !! k'); apply Hsame, lookup_insert_ne; assumption.
Qed.


(** C8 (failing input): the first line of [po_missing_sku] has no SKU Code;
    it is not dropped but kept under the key "nan", which the index maps to
    that line's date and quantity.  The line with the unparseable date is
    dropped, and the two lines of "A1" are aggregated. *)
Theorem po_missing_sku_kept_as_nan :
  clean_po po_missing_sku =
    [ mk_po_line (Some "nan") (Num 5) (Some 100);
      mk_po_line (Some "A1") (Num 3) (Some 200);
      mk_po_line (Some "A1") (Num 4) (Some 150) ] /\
  po_next_arrival po_missing_sku !! "nan" = Some 100 /\
  po_next_qty po_missing_sku !! "nan" = Some 5%Q /\
  po_next_arrival po_missing_sku !! "A1" = Some 150 /\
  po_next_qty po_missing_sku !! "A1" = Some 7%Q /\
  po_next_arrival po_missing_sku !! "B2" = None.
Proof. vm_compute. repeat split; reflexivity. Qed.

(** X18: a line without SKU Code and with a parsed date always reaches the
    index, under the key "nan", whose date is at most the date of that
    line. *)
Lemma po_next_arrival_missing_sku df_po l d :
  l ∈ df_po -> SKU_Code l = None -> Expected_Delivery_Date l = Some d ->
  exists d0, po_next_arrival df_po !! "nan" = Some d0 /\ d0 <= d.
Proof.
  intros Hin Hsku Hd.
  assert (Hkept := clean_po_keeps_missing_sku df_po l d Hin Hsku Hd).
  unfold po_next_arrival.
  assert (Hmin := groupby_min_lookup (clean_po df_po) "nan").
  destruct (groupby_min (clean_po df_po) !! "nan") as [d0|].
  - exists d0. split; [reflexivity|].
    destruct Hmin as [_ Hmin]. apply (Hmin _ d Hkept); reflexivity.
  - exfalso. apply (Hmin _ d Hkept); reflexivity.
Qed.

(** * Further properties of the code *)

(** ** Status, colour and reorder suggestion together *)

Ltac case_Qltb :=
  repeat match goal with
         | |- context [Qltb ?a ?b] =>
             let E := fresh "E" in
             destruct (Qltb a b) eqn:E;
             [apply Qltb_lt in E | apply Qltb_nlt in E]
         | H : context [Qltb ?a ?b] |- _ =>
             let E := fresh "E" in
             destruct (Qltb a b) eqn:E;
             [apply Qltb_lt in E | apply Qltb_nlt in E]
         end.

Lemma present_insert row k q : present (<[k := Num q]> row) k q.
Proof. unfold present. apply lookup_insert_eq. Qed.

Lemma present_insert_ne row k k' q q' :
  k <> k' -> present row k' q' -> present (<[k := Num q]> row) k' q'.
Proof. unfold present. intros Hne H. rewrite lookup_insert_ne; assumption. Qed.


Ltac in_list :=
  repeat first [apply list_elem_of_here | apply list_elem_of_further].

(** X1: the colour of an assessed row is never the default white: each of
    the five statuses [assess_status] can return has its own colour in
    [get_row_fill_color], distinct statuses get distinct colours, and any
    other text gets white. *)
Theorem assessed_row_has_status_colour :
  forall row : gmap string cell,
    get_row_fill_color (assess_status row) <> "#FFFFFF" /\
    get_row_fill_color (assess_status row)
      ∈ ["#FFCCCC"; "#FFE4B3"; "#FFCCFF"; "#CCFFCC"; "#E0E0E0"] /\
    (forall st st', st ∈ statuses -> st' ∈ statuses ->
                    get_row_fill_color st = get_row_fill_color st' -> st = st') /\
    (forall st, st ∉ statuses -> get_row_fill_color st = "#FFFFFF").
Proof.
  intros row.
  assert (Hall : Forall (fun st =>
            get_row_fill_color st <> "#FFFFFF" /\
            get_row_fill_color st
              ∈ ["#FFCCCC"; "#FFE4B3"; "#FFCCFF"; "#CCFFCC"; "#E0E0E0"])
            statuses).
  { unfold statuses. repeat constructor; try (vm_compute; discriminate);
      vm_compute; in_list. }
  rewrite Forall_forall in Hall.
  destruct (Hall _ (assess_status_in_statuses row)) as [H1 H2].
  split; [exact H1|]. split; [exact H2|]. split.
  - intros st st' Hst Hst'. unfold statuses in Hst, Hst'.
    repeat (apply elem_of_cons in Hst as [->|Hst]);
      try (apply elem_of_nil in Hst; destruct Hst);
      repeat (apply elem_of_cons in Hst' as [->|Hst']);
      try (apply elem_of_nil in Hst'; destruct Hst');
      vm_compute; intros H; first [reflexivity | discriminate H].
  - intros st Hst. unfold get_row_fill_color.
    destruct (_ !! st) as [c|] eqn:E; [|reflexivity].
    exfalso. apply Hst. unfold statuses.
    repeat (apply lookup_insert_Some in E as [[<- _]|[_ E]]; [in_list|]).
    apply lookup_singleton_Some in E as [<- _]. in_list.
Qed.



(** With min above max the intervals overlap: a row can be CRITICAL while
    its on-hand is above max and above the reorder threshold, and it then
    gets no reorder suggestion. *)
Example critical_above_max :
  assess_status row_min_above_max = CRITICAL_BELOW_MIN /\
  suggest_reorder row_min_above_max = Return None.
Proof. vm_compute. auto. Qed.

(** X3: with min and max fixed, more stock never lowers the status in the
    order CRITICAL, REORDER, HEALTHY, OVERSTOCKED (whatever min and max
    are). *)
Theorem status_monotone_in_on_hand row s s' lo hi :
  present row "Min Qty" lo -> present row "Max Qty" hi -> (s <= s')%Q ->
  (status_rank (assess_status (<["SOH" := Num s]> row))
   <= status_rank (assess_status (<["SOH" := Num s']> row)))%nat.
Proof.
  intros Hlo Hhi Hle.
  rewrite (assess_status_present _ s lo hi);
    [|apply present_insert | apply present_insert_ne; [discriminate|exact Hlo]
     | apply present_insert_ne; [discriminate|exact Hhi]].
  rewrite (assess_status_present _ s' lo hi);
    [|apply present_insert | apply present_insert_ne; [discriminate|exact Hlo]
     | apply present_insert_ne; [discriminate|exact Hhi]].
  case_Qltb; try (vm_compute; lia); exfalso; lra.
Qed.

Lemma status_monotone_in_on_hand_witness :
  (status_rank (assess_status (<["SOH" := Num 30]> scenario_A))
   <= status_rank (assess_status (<["SOH" := Num 160]> scenario_A)))%nat.
Proof.
  apply (status_monotone_in_on_hand scenario_A 30 160 50 200);
    first [reflexivity | vm_compute; discriminate].
Defined.

(** X4: a reorder suggestion is only ever given to a row whose status is
    CRITICAL_BELOW_MIN or REORDER_LEVEL. *)
Theorem suggestion_only_below_reorder_level row n :
  suggest_reorder row = Return (Some n) ->
  assess_status row = CRITICAL_BELOW_MIN \/ assess_status row = REORDER_LEVEL.
Proof.
  destruct (row_get_cases row "SOH") as [[Ha _]|[s [Hs _]]].
  { rewrite suggest_reorder_absent by tauto. discriminate. }
  destruct (row_get_cases row "Min Qty") as [[Ha _]|[lo [Hlo _]]].
  { rewrite suggest_reorder_absent by tauto. discriminate. }
  destruct (row_get_cases row "Max Qty") as [[Ha _]|[hi [Hhi _]]].
  { rewrite suggest_reorder_absent by tauto. discriminate. }
  destruct (row_get_cases row "MOQ") as [[Ha _]|[q [Hq _]]].
  { rewrite suggest_reorder_absent by tauto. discriminate. }
  rewrite (suggest_reorder_present row s lo hi q Hs Hlo Hhi Hq),
    (assess_status_present row s lo hi Hs Hlo Hhi).
  destruct (Qltb s (reorder_threshold_of lo hi)); [|discriminate].
  intros _. destruct (Qltb s lo); auto.
Qed.

Lemma suggestion_only_below_reorder_level_witness :
  assess_status scenario_A = CRITICAL_BELOW_MIN \/
  assess_status scenario_A = REORDER_LEVEL.
Proof.
  apply (suggestion_only_below_reorder_level scenario_A 20).
  vm_compute. reflexivity.
Defined.



(** ** Bounds on the suggested quantity *)










(** ** Row styles, forecast highlights and the spreadsheet fill *)

Lemma get_row_fill_color_cases (st : string) :
  ((st ∈ statuses) /\ get_row_fill_color st <> "#FFFFFF") \/
  ((st ∉ statuses) /\ get_row_fill_color st = "#FFFFFF").
Proof.
  destruct (decide (st ∈ statuses)) as [Hin|Hout].
  - left. split; [exact Hin|]. unfold statuses in Hin.
    repeat (apply elem_of_cons in Hin as [->|Hin]);
      try (apply elem_of_nil in Hin; destruct Hin); vm_compute; discriminate.
  - right. split; [exact Hout|]. unfold get_row_fill_color.
    destruct (_ !! st) as [c|] eqn:E; [|reflexivity].
    exfalso. apply Hout. unfold statuses.
    repeat (apply lookup_insert_Some in E as [[<- _]|[_ E]]; [in_list|]).
    apply lookup_singleton_Some in E as [<- _]. in_list.
Qed.

Lemma get_row_fill_color_range (st : string) :
  get_row_fill_color st
    ∈ ["#FFCCCC"; "#FFE4B3"; "#FFCCFF"; "#CCFFCC"; "#E0E0E0"; "#FFFFFF"].
Proof.
  destruct (get_row_fill_color_cases st) as [[Hin _]|[_ ->]]; [|in_list].
  unfold statuses in Hin.
  repeat (apply elem_of_cons in Hin as [->|Hin]);
    try (apply elem_of_nil in Hin; destruct Hin); vm_compute; in_list.
Qed.

Lemma fill_color_of_range (v : value) :
  fill_color_of v
    ∈ ["#FFCCCC"; "#FFE4B3"; "#FFCCFF"; "#CCFFCC"; "#E0E0E0"; "#FFFFFF"].
Proof.
  destruct v; simpl; [apply get_row_fill_color_range | in_list ..].
Qed.

(** X8: [highlight_row] returns one style per cell of the row, the same for
    every cell; the style is the white one when the row has no Status cell,
    or a Status that is not one of the five statuses, and a non-white one
    when Status is one of them. *)
Theorem highlight_row_uniform :
  forall row : list (string * value),
    length (highlight_row row) = length row /\
    (forall style, style ∈ highlight_row row ->
       style = "background-color: "
               +:+ fill_color_of (series_get row "Status" (VStr ""))
               +:+ "; color: black;") /\
    (forall st, series_get row "Status" (VStr "") = VStr st ->
                st ∉ statuses ->
                forall style, style ∈ highlight_row row ->
                  style = "background-color: #FFFFFF; color: black;") /\
    (forall st, series_get row "Status" (VStr "") = VStr st ->
                st ∈ statuses ->
                forall style, style ∈ highlight_row row ->
                  style <> "background-color: #FFFFFF; color: black;").
Proof.
  intros row.
  assert (Hall : forall style, style ∈ highlight_row row ->
            style = "background-color: "
                    +:+ fill_color_of (series_get row "Status" (VStr ""))
                    +:+ "; color: black;").
  { intros style H. unfold highlight_row in H.
    apply list_elem_of_In, in_map_iff in H. destruct H as (_ & <- & _).
    reflexivity. }
  split; [unfold highlight_row; apply length_map|]. split; [exact Hall|].
  split.
  - intros st Hst Hout style Hin. rewrite (Hall style Hin), Hst. simpl.
    destruct (get_row_fill_color_cases st) as [[Hin' _]|[_ ->]];
      [contradiction | reflexivity].
  - intros st Hst Hin style Hstyle. rewrite (Hall style Hstyle), Hst. simpl.
    unfold statuses in Hin.
    repeat (apply elem_of_cons in Hin as [->|Hin]);
      try (apply elem_of_nil in Hin; destruct Hin); vm_compute; discriminate.
Qed.

Example highlight_row_A :
  highlight_row display_row_A =
  [ "background-color: #FFCCCC; color: black;";
    "background-color: #FFCCCC; color: black;";
    "background-color: #FFCCCC; color: black;" ].
Proof. vm_compute. reflexivity. Qed.

Lemma highlight_forecast_green (m : string) :
  highlight_forecast (VStr m) = "background-color: lightgreen" <-> m = COVERED.
Proof.
  unfold highlight_forecast. destruct (String.eqb m "✅") eqn:E.
  - apply String.eqb_eq in E. split; [intros _; exact E | reflexivity].
  - apply String.eqb_neq in E. split; [discriminate | intros H; contradiction].
Qed.



Lemma lookup_cons_map {A B : Type} (f : A -> B) (x : B) (l : list A)
    (i : nat) (a : A) :
  l !! i = Some a -> (x :: map f l) !! S i = Some (f a).
Proof.
  intros H. change ((f <$> l) !! i = Some (f a)).
  rewrite list_lookup_fmap, H. reflexivity.
Qed.

(** X10: the sheet written by [generate_excel] has the header line first,
    without fill, then one line per row; every row is filled (the colour is
    never empty), with the six hexadecimal digits of the row colour, the
    leading '#' removed. *)
Theorem generate_excel_fills_every_row :
  forall (headers : list string) (rows : list (list (string * value))),
    length (generate_excel headers rows) = S (length rows) /\
    generate_excel headers rows !! 0%nat = Some (map VStr headers, None) /\
    (forall i row, rows !! i = Some row ->
       exists rgb,
         generate_excel headers rows !! S i = Some (map snd row, Some rgb) /\
         is_rgb rgb = true /\
         "#" +:+ rgb = fill_color_of (series_get row "Status" (VStr ""))).
Proof.
  intros headers rows. unfold generate_excel. split; [|split].
  - simpl. rewrite length_map. reflexivity.
  - reflexivity.
  - intros i row Hi.
    rewrite (lookup_cons_map _ _ _ _ _ Hi). unfold excel_fill.
    assert (H := fill_color_of_range (series_get row "Status" (VStr ""))).
    repeat (apply elem_of_cons in H as [->|H]);
      try (apply elem_of_nil in H; destruct H);
      eexists; (split; [reflexivity|]); split; reflexivity.
Qed.

Lemma generate_excel_fills_every_row_example :
  generate_excel ["SKU Code"; "SOH"; "Status"] [display_row_A] =
  [ ([VStr "SKU Code"; VStr "SOH"; VStr "Status"], None);
    ([VStr "SKU001"; VNum (Num 30); VStr CRITICAL_BELOW_MIN], Some "FFCCCC") ].
Proof. vm_compute. reflexivity. Qed.

(** ** Forecast columns *)

Lemma endswith_spec (s suffix : string) :
  endswith s suffix = true <-> exists p, s = p +:+ suffix.
Proof.
  induction s as [|a s IH]; cbn [endswith].
  - rewrite orb_false_r. split.
    + intros H. apply String.eqb_eq in H. exists "". subst. reflexivity.
    + intros [p Hp]. destruct p as [|b p].
      * change ("" = suffix) in Hp. subst. apply String.eqb_refl.
      * change ("" = String b (p +:+ suffix)) in Hp. discriminate Hp.
  - rewrite orb_true_iff, IH. split.
    + intros [H | [p Hp]].
      * apply String.eqb_eq in H. exists "". subst. reflexivity.
      * exists (String a p). rewrite Hp. reflexivity.
    + intros [p Hp]. destruct p as [|b p].
      * left. change (String a s = suffix) in Hp. subst. apply String.eqb_refl.
      * right. change (String a s = String b (p +:+ suffix)) in Hp.
        injection Hp as -> ->. exists p. reflexivity.
Qed.

Lemma forecast_columns_assign (columns : list string) (c : string) :
  endswith c FORECAST_SUFFIX = false ->
  forecast_columns (assign_column columns c) = forecast_columns columns.
Proof.
  intros Hc. unfold assign_column, forecast_columns.
  destruct (bool_decide (c ∈ columns)); [reflexivity|].
  rewrite List.filter_app. simpl. rewrite Hc. apply app_nil_r.
Qed.

(** X11: adding the derived columns does not change which columns are
    forecast columns: the list computed for the coverage table (line 159,
    after Status, Suggested Reorder Qty and the purchase-order columns were
    added) is the list the runout estimate used (line 95). *)
Theorem forecast_columns_stable :
  forall columns : list string,
    (forall with_po : bool,
       forecast_columns (enriched_columns with_po columns)
       = forecast_columns columns) /\
    forecast_columns (enriched_columns true columns)
    = forecast_columns (enriched_columns false columns).
Proof.
  assert (Hstable : forall with_po columns,
            forecast_columns (enriched_columns with_po columns)
            = forecast_columns columns).
  { intros with_po columns. unfold enriched_columns.
    assert (Hd : Forall (fun c => endswith c FORECAST_SUFFIX = false)
                   (derived_cols with_po)).
    { destruct with_po; repeat constructor. }
    revert columns. induction Hd as [|c rest Hc _ IH]; intros columns.
    - reflexivity.
    - simpl. rewrite IH. apply forecast_columns_assign, Hc. }
  intros columns. split; [intros with_po; apply Hstable|].
  rewrite !Hstable. reflexivity.
Qed.

(** X12: the forecast columns are exactly the columns whose name ends with
    "-25", in the order of the table; no required column is one of them, so
    the numeric coercion of line 52 never touches a forecast column. *)
Theorem forecast_columns_selection :
  forall columns : list string,
    (forall col, col ∈ forecast_columns columns <->
                 col ∈ columns /\ exists p, col = p +:+ "-25") /\
    forecast_columns columns `sublist_of` columns /\
    (forall col, col ∈ required_cols -> col ∉ forecast_columns columns) /\
    (forall col, col ∈ numeric_cols -> col ∉ forecast_columns columns).
Proof.
  intros columns. split; [|split; [|split]].
  - intros col. unfold forecast_columns.
    rewrite list_elem_of_In, filter_In, <- list_elem_of_In, endswith_spec.
    reflexivity.
  - unfold forecast_columns. induction columns as [|c cs IH]; simpl.
    + constructor.
    + destruct (endswith c FORECAST_SUFFIX).
      * apply sublist_skip, IH.
      * apply sublist_cons, IH.
  - intros col Hreq Hin. unfold forecast_columns in Hin.
    apply list_elem_of_In, filter_In in Hin. destruct Hin as [_ Hend].
    unfold required_cols in Hreq.
    repeat (apply elem_of_cons in Hreq as [->|Hreq]);
      try (apply elem_of_nil in Hreq; destruct Hreq); discriminate Hend.
  - intros col Hnum Hin. unfold forecast_columns in Hin.
    apply list_elem_of_In, filter_In in Hin. destruct Hin as [_ Hend].
    unfold numeric_cols in Hnum.
    repeat (apply elem_of_cons in Hnum as [->|Hnum]);
      try (apply elem_of_nil in Hnum; destruct Hnum); discriminate Hend.
Qed.

Example forecast_columns_example :
  forecast_columns ["SKU Code"; "SOH"; "Jan-25"; "Note"; "Feb-25"; "-25"; "25"]
  = ["Jan-25"; "Feb-25"; "-25"].
Proof. vm_compute. reflexivity. Qed.

(** ** The sidebar filter *)

Lemma unique_from_elem (seen l : list string) (x : string) :
  x ∈ unique_from seen l <-> x ∈ l /\ x ∉ seen.
Proof.
  revert seen. induction l as [|y l IH]; intros seen; simpl.
  - rewrite elem_of_nil. tauto.
  - destruct (bool_decide (y ∈ seen)) eqn:E.
    + apply bool_decide_eq_true in E. rewrite IH, elem_of_cons.
      split; [tauto|]. intros [[->|H] Hs]; [contradiction | tauto].
    + apply bool_decide_eq_false in E.
      rewrite !elem_of_cons, IH, elem_of_cons.
      destruct (decide (x = y)) as [->|Hne]; [tauto|]. tauto.
Qed.

Lemma unique_elem (l : list string) (x : string) : x ∈ unique l <-> x ∈ l.
Proof.
  unfold unique. rewrite unique_from_elem, elem_of_nil. tauto.
Qed.

Lemma unique_from_NoDup (seen l : list string) : NoDup (unique_from seen l).
Proof.
  revert seen. induction l as [|y l IH]; intros seen; simpl.
  - constructor.
  - destruct (bool_decide (y ∈ seen)); [apply IH|].
    constructor; [|apply IH].
    rewrite unique_from_elem, elem_of_cons. tauto.
Qed.

Lemma filter_all_true {A : Type} (f : A -> bool) (l : list A) :
  (forall x, x ∈ l -> f x = true) -> List.filter f l = l.
Proof.
  induction l as [|a l IH]; intros H; simpl; [reflexivity|].
  rewrite (H a) by apply list_elem_of_here. f_equal.
  apply IH. intros x Hx. apply H, list_elem_of_further, Hx.
Qed.

(** X13: with the default selections of the sidebar (all the distinct
    values of Site, SKU Category and Source) the filter keeps every line, in
    order; the offered values are without repetition; and a filter left
    with an empty selection empties the table. *)
Theorem filter_table_default_keeps_all :
  forall df : list inventory_line,
    filter_table (unique (map line_site df)) (unique (map line_category df))
                 (unique (map line_source df)) df = df /\
    NoDup (unique (map line_site df)) /\
    (forall cats sources, filter_table [] cats sources df = []) /\
    (forall sites cats sources r,
       r ∈ filter_table sites cats sources df <->
       r ∈ df /\ line_site r ∈ sites /\ line_category r ∈ cats /\
       line_source r ∈ sources).
Proof.
  intros df. split; [|split; [|split]].
  - unfold filter_table. apply filter_all_true. intros r Hr. unfold isin.
    rewrite !andb_true_iff, !bool_decide_eq_true, !unique_elem.
    repeat split; apply list_elem_of_In, in_map, list_elem_of_In, Hr.
  - apply unique_from_NoDup.
  - intros cats sources. unfold filter_table.
    induction df as [|r df IH]; [reflexivity|]. cbn [List.filter].
    replace (isin (line_site r) []) with false; [exact IH|].
    symmetry. apply bool_decide_eq_false_2, not_elem_of_nil.
  - intros sites cats sources r. unfold filter_table, isin.
    rewrite list_elem_of_In, filter_In, <- list_elem_of_In,
      !andb_true_iff, !bool_decide_eq_true. tauto.
Qed.

(** ** Text columns *)


(** ** The table height *)

(** X15: the table height grows by 30 per line from 40 and is capped at
    600, reached from 19 lines on. *)
Theorem table_height_bounds :
  forall n : nat,
    40 <= table_height n <= 600 /\
    ((n <= 18)%nat -> table_height n = 40 + 30 * Z.of_nat n) /\
    ((19 <= n)%nat -> table_height n = 600) /\
    (forall m, (n <= m)%nat -> table_height n <= table_height m).
Proof.
  intros n. unfold table_height. repeat split; intros; lia.
Qed.

(** ** More on the purchase-order index *)

(** X16: cleaning a purchase-order report drops exactly the lines whose
    date did not parse and keeps the others in order, each under the
    stripped text of its SKU Code; no line is ever dropped for its SKU Code,
    and no kept line lacks a key or a date. *)
Theorem clean_po_keeps_dated_lines :
  forall df_po : list po_line,
    clean_po df_po =
      map clean_sku
        (List.filter
           (fun l => bool_decide (is_Some (Expected_Delivery_Date l))) df_po) /\
    (forall l, l ∈ clean_po df_po ->
               is_Some (SKU_Code l) /\ is_Some (Expected_Delivery_Date l)) /\
    (length (clean_po df_po) <= length df_po)%nat /\
    (Forall (fun l => is_Some (Expected_Delivery_Date l)) df_po ->
     length (clean_po df_po) = length df_po).
Proof.
  intros df_po. split; [apply clean_po_filter_date|].
  split; [apply clean_po_drops_unparsed|].
  rewrite clean_po_filter_date, length_map. split.
  - apply List.filter_length_le.
  - intros Hall. f_equal. apply filter_all_true. intros l Hl.
    rewrite Forall_forall in Hall. apply bool_decide_eq_true, Hall, Hl.
Qed.

Lemma clean_po_elem (df_po : list po_line) (l : po_line) :
  l ∈ clean_po df_po <->
  exists l0, l0 ∈ df_po /\ is_Some (Expected_Delivery_Date l0) /\
             l = clean_sku l0.
Proof.
  rewrite clean_po_filter_date, list_elem_of_In, in_map_iff. split.
  - intros (l0 & <- & H). apply filter_In in H. destruct H as [Hin Hd].
    exists l0. rewrite list_elem_of_In. apply bool_decide_eq_true in Hd. auto.
  - intros (l0 & Hin & Hd & ->). exists l0. split; [reflexivity|].
    apply filter_In. rewrite <- list_elem_of_In.
    split; [exact Hin | apply bool_decide_eq_true, Hd].
Qed.

(** X19: the earliest-arrival index does not depend on the order of the
    lines of the report. *)
Theorem po_next_arrival_order_independent df_po df_po' :
  df_po ≡ₚ df_po' -> po_next_arrival df_po = po_next_arrival df_po'.
Proof.
  intros Hperm. apply map_eq. intros k. unfold po_next_arrival.
  assert (Hmem : forall l, l ∈ clean_po df_po <-> l ∈ clean_po df_po').
  { intros l. rewrite !clean_po_elem.
    split; intros (l0 & Hin & H); exists l0; split; auto.
    - rewrite <- Hperm. exact Hin.
    - rewrite Hperm. exact Hin. }
  assert (H1 := groupby_min_lookup (clean_po df_po) k).
  assert (H2 := groupby_min_lookup (clean_po df_po') k).
  destruct (groupby_min (clean_po df_po) !! k) as [d|],
    (groupby_min (clean_po df_po') !! k) as [d'|].
  - destruct H1 as [(l & Hl & Hk & Hd) Hmin], H2 as [(l' & Hl' & Hk' & Hd') Hmin'].
    assert (d <= d') by (apply (Hmin l'); auto; apply Hmem, Hl').
    assert (d' <= d) by (apply (Hmin' l); auto; apply Hmem, Hl).
    f_equal. lia.
  - exfalso. destruct H1 as [(l & Hl & Hk & Hd) _].
    apply (H2 l d); auto. apply Hmem, Hl.
  - exfalso. destruct H2 as [(l & Hl & Hk & Hd) _].
    apply (H1 l d'); auto. apply Hmem, Hl.
  - reflexivity.
Qed.

Lemma po_next_arrival_order_independent_witness :
  po_next_arrival po_two_lines = po_next_arrival po_two_lines_swapped.
Proof.
  apply (po_next_arrival_order_independent po_two_lines po_two_lines_swapped).
  apply perm_swap.
Defined.

Lemma po_index_lookup_cases (df_po : list po_line) (k : string) :
  (~ has_sku k (clean_po df_po) /\ po_next_arrival df_po !! k = None) \/
  (exists d, has_sku k (clean_po df_po) /\
     po_next_arrival df_po !! k = Some d /\
     (exists l, l ∈ clean_po df_po /\ SKU_Code l = Some k /\
                Expected_Delivery_Date l = Some d) /\
     (forall l d', l ∈ clean_po df_po -> SKU_Code l = Some k ->
                   Expected_Delivery_Date l = Some d' -> d <= d')).
Proof.
  unfold po_next_arrival.
  assert (Hmin := groupby_min_lookup (clean_po df_po) k).
  destruct (groupby_min (clean_po df_po) !! k) as [d|].
  - right. exists d. destruct Hmin as [(l & Hin & Hk & Hd) Hmin].
    split; [exists l; auto|]. split; [reflexivity|].
    split; [exists l; auto | exact Hmin].
  - left. split; [|reflexivity]. intros (l & Hin & Hk).
    destruct (clean_po_drops_unparsed _ _ Hin) as [_ [d Hd]].
    apply (Hmin l d Hin Hk Hd).
Qed.

(** X17: the index built from a purchase-order report: a SKU with a dated
    line is mapped to the earliest date among its dated lines, a SKU without
    one has no entry, and the quantity index has an entry for exactly the
    same SKUs. *)
Theorem po_next_arrival_earliest_date df_po k :
  (has_sku k (clean_po df_po) ->
   exists d, po_next_arrival df_po !! k = Some d /\
     (exists l, l ∈ clean_po df_po /\ SKU_Code l = Some k /\
                Expected_Delivery_Date l = Some d) /\
     (forall l d', l ∈ clean_po df_po -> SKU_Code l = Some k ->
                   Expected_Delivery_Date l = Some d' -> d <= d')) /\
  (~ has_sku k (clean_po df_po) -> po_next_arrival df_po !! k = None) /\
  (is_Some (po_next_qty df_po !! k) <-> has_sku k (clean_po df_po)).
Proof.
  split; [|split].
  - intros Hhas.
    destruct (po_index_lookup_cases df_po k)
      as [(Hno & _) | (d & _ & Hd & Hl & Hmin)]; [contradiction|].
    exists d. auto.
  - intros Hno.
    destruct (po_index_lookup_cases df_po k)
      as [(_ & Hnone) | (d & Hhas & _)]; [exact Hnone | contradiction].
  - unfold po_next_qty.
    assert (Hsum := groupby_sum_lookup (clean_po df_po) k).
    destruct (groupby_sum (clean_po df_po) !! k) as [q|].
    + split; [intros _; apply Hsum | eauto].
    + split; [intros [q Hq]; discriminate Hq | intros H; destruct Hsum; contradiction].
Qed.

(** X20: the mitigation column of a row, computed from the index: it is
    'N/A' when no dated line of the report has the row's SKU or when the
    runout period is absent; otherwise it is 'Yes' exactly when some dated
    line of that SKU arrives no later than today's midnight plus the runout
    period in weeks, and 'No' when none does. *)
Theorem po_mitigates_column_rule :
  forall (now : Z) (df_po : list po_line) (sku : string) (runout : cell),
    (~ has_sku sku (clean_po df_po) ->
     po_mitigates_column now (po_next_arrival df_po) sku runout = UNKNOWN) /\
    (runout = NaN ->
     po_mitigates_column now (po_next_arrival df_po) sku runout = UNKNOWN) /\
    (forall p, runout = Num p -> has_sku sku (clean_po df_po) ->
       (po_mitigates_column now (po_next_arrival df_po) sku runout = MITIGATES
        <-> exists l d, l ∈ clean_po df_po /\ SKU_Code l = Some sku /\
                        Expected_Delivery_Date l = Some d /\
                        d <= normalize now + Timedelta_weeks p) /\
       (po_mitigates_column now (po_next_arrival df_po) sku runout = MITIGATES
        \/ po_mitigates_column now (po_next_arrival df_po) sku runout
           = DOES_NOT_MITIGATE)).
Proof.
  intros now df_po sku runout.
  unfold po_mitigates_column, get_next_po, mitigates_oos. simpl.
  destruct (po_index_lookup_cases df_po sku) as [(Hno & ->)|(d & Hhas & -> & Hl & Hmin)].
  - split; [destruct runout; reflexivity|].
    split; [intros ->; reflexivity|]. intros p -> Hhas. contradiction.
  - split; [intros Hno; contradiction|].
    split; [intros ->; reflexivity|]. intros p -> _.
    destruct (Z.leb_spec d (normalize now + Timedelta_weeks p)) as [Hle|Hgt].
    + split; [|left; reflexivity]. split; [|reflexivity].
      intros _. destruct Hl as (l & Hin & Hk & Hd). exists l, d. auto.
    + split; [|right; reflexivity]. split; [discriminate|].
      intros (l & d' & Hin & Hk & Hd & Hle).
      specialize (Hmin l d' Hin Hk Hd). lia.
Qed.

(** ** Stock accounting in the coverage simulation *)

Lemma simulate_loop_cons row r col rest :
  simulate_loop row r (col :: rest) =
  snd (simulate_step row r col)
  :: simulate_loop row (fst (simulate_step row r col)) rest.
Proof. simpl. destruct (simulate_step row r col). reflexivity. Qed.

(** From a present stock the loop ends on a present stock: the initial one
    less the usage of the covered periods, and non-negative if the initial
    one was. *)
Lemma simulate_remaining_account row cols :
  forall r0 : Q,
    exists r1, simulate_remaining row (Num r0) cols = Num r1 /\
      (r1 == r0 - covered_total row cols (simulate_loop row (Num r0) cols))%Q /\
      ((0 <= r0)%Q -> (0 <= r1)%Q).
Proof.
  induction cols as [|col rest IH]; intros r0.
  { exists r0. split; [reflexivity|]. split; [simpl; ring | auto]. }
  rewrite simulate_remaining_cons, simulate_loop_cons.
  destruct (covers_dec (Num r0) (row_get row col NaN)) as [Hc|Hc].
  - rewrite (simulate_step_covers _ _ _ Hc).
    destruct Hc as (r & u & [= <-] & Hu & Hle). rewrite Hu. cbn [fst snd cell_sub].
    destruct (IH (r0 - u)%Q) as (r1 & -> & Hr1 & Hpos).
    exists r1. split; [reflexivity|]. split.
    + cbn [covered_total]. rewrite Hu. rewrite String.eqb_refl.
      cbn [qty_or_zero]. rewrite Hr1. ring.
    + intros _. apply Hpos. lra.
  - rewrite (simulate_step_fails _ _ _ Hc). cbn [fst snd].
    destruct (IH r0) as (r1 & -> & Hr1 & Hpos).
    exists r1. split; [reflexivity|]. split; [|exact Hpos].
    cbn [covered_total].
    replace (String.eqb NOT_COVERED COVERED) with false by reflexivity.
    rewrite Hr1. ring.
Qed.

(** X21: with a present, non-negative on-hand the stock the simulation
    holds is present and never negative, at every period, whatever the
    usages are (negative ones included). *)
Theorem remaining_never_negative row cols s :
  present row "SOH" s -> (0 <= s)%Q ->
  forall i, exists r, remaining_before row cols i = Num r /\ (0 <= r)%Q.
Proof.
  intros Hs Hpos i. unfold remaining_before.
  rewrite (row_get_present _ _ _ _ Hs).
  destruct (simulate_remaining_account row (take i cols) s) as (r & Hr & _ & H).
  exists r. auto.
Qed.

Lemma remaining_never_negative_witness :
  exists r,
    remaining_before row_dip ["Jan-25"; "Feb-25"; "Mar-25"] 2 = Num r /\
    (0 <= r)%Q.
Proof.
  apply (remaining_never_negative row_dip ["Jan-25"; "Feb-25"; "Mar-25"] 100);
    first [reflexivity | vm_compute; discriminate].
Defined.



(** ** The two simulations side by side *)







(** X24: a forecast column that the row does not have, or whose usage is
    absent, is marked not covered and changes nothing else: the marks of the
    other periods are those of the list without that column. *)
Theorem absent_column_is_skipped row pre c post :
  absent row c ->
  simulate_runout row (pre ++ c :: post) =
  take (length pre) (simulate_runout row (pre ++ post))
  ++ NOT_COVERED :: drop (length pre) (simulate_runout row (pre ++ post)).
Proof.
  intros Ha. apply row_get_absent in Ha. unfold simulate_runout.
  rewrite !simulate_loop_app, simulate_loop_cons.
  assert (Hstep : forall r, simulate_step row r c = (r, NOT_COVERED)).
  { intros r. apply simulate_step_fails. rewrite Ha.
    intros (? & ? & _ & ? & _). discriminate. }
  rewrite Hstep. cbn [fst snd].
  rewrite <- (simulate_loop_length row (row_get row "SOH" NaN) pre) at 1 2.
  rewrite take_app_length, drop_app_length. reflexivity.
Qed.

Lemma absent_column_is_skipped_witness :
  simulate_runout row_gap (["Jan-25"] ++ "Feb-25" :: ["Mar-25"]) =
  take (length ["Jan-25"]) (simulate_runout row_gap (["Jan-25"] ++ ["Mar-25"]))
  ++ NOT_COVERED
     :: drop (length ["Jan-25"])
          (simulate_runout row_gap (["Jan-25"] ++ ["Mar-25"])).
Proof.
  apply (absent_column_is_skipped row_gap ["Jan-25"] "Feb-25" ["Mar-25"]).
  right. reflexivity.
Defined.


(** ** The runout estimate and the on-hand quantity *)

Lemma stock_after_mono row cols :
  forall s s', (s <= s')%Q ->
               (stock_after row s cols <= stock_after row s' cols)%Q.
Proof.
  induction cols as [|col rest IH]; intros s s' Hle; [exact Hle|].
  rewrite !stock_after_cons. apply IH. unfold subtract_usage.
  destruct (row_get row col zero); lra.
Qed.

Lemma stock_after_insert_SOH row c s cols :
  "SOH" ∉ cols ->
  stock_after (<["SOH" := c]> row) s cols = stock_after row s cols.
Proof.
  revert s. induction cols as [|col rest IH]; intros s Hnot; [reflexivity|].
  rewrite !stock_after_cons.
  assert (Hcol : col <> "SOH").
  { intros ->. apply Hnot. apply list_elem_of_here. }
  assert (Hget : subtract_usage (<["SOH" := c]> row) s col
                 = subtract_usage row s col).
  { unfold subtract_usage, row_get. rewrite lookup_insert_ne by auto.
    reflexivity. }
  rewrite Hget. apply IH. intros H. apply Hnot, list_elem_of_further, H.
Qed.

Lemma estimate_runout_with_SOH row cols s :
  (estimate_runout cols (<["SOH" := Num s]> row) = Return NaN /\
   no_runout (<["SOH" := Num s]> row) (Num s) cols) \/
  (exists i, estimate_runout cols (<["SOH" := Num s]> row)
               = Return (Num (inject_Z (Z.of_nat i))) /\
             (0 < s)%Q /\ runs_out_at (<["SOH" := Num s]> row) s cols i).
Proof.
  destruct (estimate_runout_cases (<["SOH" := Num s]> row) cols (Num s))
    as [H | (i & s0 & Hret & [= <-] & Hs & Hi)];
    [apply lookup_insert_eq | left; exact H | right; eauto].
Qed.

(** X26: more on-hand never brings the runout earlier.  For two rows that
    differ only in on-hand, s <= s': if both estimates find a runout
    period, the one for s' is not earlier; and if the estimate for a
    positive s finds no runout, neither does the one for s'. *)
Theorem more_stock_later_runout row cols s s' :
  "SOH" ∉ cols -> (s <= s')%Q ->
  (forall i i',
     estimate_runout cols (<["SOH" := Num s]> row)
       = Return (Num (inject_Z (Z.of_nat i))) ->
     estimate_runout cols (<["SOH" := Num s']> row)
       = Return (Num (inject_Z (Z.of_nat i'))) ->
     (i <= i')%nat) /\
  ((0 < s)%Q ->
   estimate_runout cols (<["SOH" := Num s]> row) = Return NaN ->
   estimate_runout cols (<["SOH" := Num s']> row) = Return NaN).
Proof.
  intros Hnot Hle. split.
  - intros i i' Hi Hi'.
    destruct (estimate_runout_with_SOH row cols s)
      as [[Hret _] | (i0 & Hret & _ & _ & _ & Hbefore)];
      rewrite Hret in Hi; [discriminate Hi|].
    injection Hi as Hi. apply Nat2Z.inj in Hi. subst i0.
    destruct (estimate_runout_with_SOH row cols s')
      as [[Hret' _] | (i0 & Hret' & _ & _ & Hout & _)];
      rewrite Hret' in Hi'; [discriminate Hi'|].
    injection Hi' as Hi'. apply Nat2Z.inj in Hi'. subst i0.
    destruct (le_lt_dec i i') as [H|H]; [exact H|]. exfalso.
    specialize (Hbefore i' H).
    rewrite stock_after_insert_SOH in Hbefore, Hout
      by (intros Hin; apply Hnot; eapply subseteq_take; exact Hin).
    assert (Hm := stock_after_mono row (take (S i') cols) s s' Hle). lra.
  - intros Hs Hnan.
    destruct (estimate_runout_with_SOH row cols s)
      as [[_ Hno] | (i0 & Hret & _)]; [|rewrite Hret in Hnan; discriminate Hnan].
    destruct (estimate_runout_with_SOH row cols s')
      as [[Hret' _] | (i' & _ & _ & Hlen & Hout & _)]; [exact Hret'|].
    exfalso.
    destruct Hno as [H | [(s0 & [= <-] & H) | [-> | (s0 & [= <-] & Hnever)]]].
    + discriminate H.
    + lra.
    + simpl in Hlen. lia.
    + specialize (Hnever i' Hlen).
      rewrite stock_after_insert_SOH in Hnever, Hout
        by (intros Hin; apply Hnot; eapply subseteq_take; exact Hin).
      assert (Hm := stock_after_mono row (take (S i') cols) s s' Hle). lra.
Qed.

Lemma more_stock_later_runout_witness :
  (forall i i',
     estimate_runout scenario_D_cols (<["SOH" := Num 50]> scenario_D)
       = Return (Num (inject_Z (Z.of_nat i))) ->
     estimate_runout scenario_D_cols (<["SOH" := Num 100]> scenario_D)
       = Return (Num (inject_Z (Z.of_nat i'))) ->
     (i <= i')%nat) /\
  ((0 < 50)%Q ->
   estimate_runout scenario_D_cols (<["SOH" := Num 50]> scenario_D)
     = Return NaN ->
   estimate_runout scenario_D_cols (<["SOH" := Num 100]> scenario_D)
     = Return NaN).
Proof.
  apply (more_stock_later_runout scenario_D scenario_D_cols 50 100).
  - unfold scenario_D_cols. intros H.
    repeat (apply elem_of_cons in H as [H|H]; [discriminate H|]).
    apply elem_of_nil in H. exact H.
  - vm_compute. discriminate.
Defined.



Lemma po_next_arrival_missing_sku_witness :
  exists d0, po_next_arrival po_missing_sku !! "nan" = Some d0 /\ d0 <= 100.
Proof.
  apply (po_next_arrival_missing_sku po_missing_sku
           (mk_po_line None (Num 5) (Some 100)) 100).
  - apply list_elem_of_here.
  - reflexivity.
  - reflexivity.
Defined.

(** * Properties on the binary64 embedding *)

Import F64.

(** ** Cells and rows *)

Lemma f64_row_get_present row k x d :
  F64.present row k x -> F64.row_get row k d = Float x.
Proof. intros [H _]. unfold F64.row_get. rewrite H. reflexivity. Qed.

Lemma f64_row_get_absent row k :
  F64.absent row k ->
  exists x, F64.row_get row k F64.NaN = Float x /\ PrimFloat.is_nan x = true.
Proof.
  unfold F64.row_get. intros [H | (x & H & Hx)]; rewrite H.
  - exists PrimFloat.nan. split; reflexivity.
  - exists x. auto.
Qed.

(** A numeric cell is absent or present. *)
Lemma f64_numeric_cases row k :
  F64.numeric row k ->
  F64.absent row k \/ exists x, F64.present row k x.
Proof.
  intros Hnum. unfold F64.absent, F64.present.
  destruct (row !! k) as [[x|t]|] eqn:E.
  - destruct (PrimFloat.is_nan x) eqn:Hx; eauto.
  - exfalso. apply (Hnum t). exact E.
  - auto.
Qed.

Lemma f64_present_not_absent row k x :
  F64.present row k x -> ~ F64.absent row k.
Proof.
  intros [H Hx] [H' | (y & H' & Hy)]; rewrite H in H'; [discriminate|].
  injection H' as <-. congruence.
Qed.

Lemma f64_present_inj row k x y :
  F64.present row k x -> F64.present row k y -> x = y.
Proof. intros [H _] [H' _]. congruence. Qed.

(** ** The status classifier *)

Lemma f64_assess_status_absent row :
  F64.absent row "SOH" \/ F64.absent row "Min Qty" \/
  F64.absent row "Max Qty" ->
  F64.assess_status row = Return MISSING_SOH.
Proof.
  unfold F64.assess_status. intros [Ha | Ha].
  - destruct (f64_row_get_absent row _ Ha) as (x & -> & Hx).
    simpl. rewrite Hx. reflexivity.
  - destruct (F64.isna (F64.row_get row "SOH" F64.NaN)); [reflexivity|].
    destruct Ha as [Ha | Ha];
      destruct (f64_row_get_absent row _ Ha) as (x & -> & Hx);
      simpl; rewrite Hx, ?orb_true_r; reflexivity.
Qed.

Lemma f64_assess_status_present row s lo hi :
  F64.present row "SOH" s -> F64.present row "Min Qty" lo ->
  F64.present row "Max Qty" hi ->
  F64.assess_status row =
    Return (if PrimFloat.ltb s lo then CRITICAL_BELOW_MIN
            else if PrimFloat.ltb s (F64.reorder_threshold_of lo hi)
                 then REORDER_LEVEL
                 else if PrimFloat.ltb hi s then OVERSTOCKED
                      else HEALTHY).
Proof.
  intros Hs Hlo Hhi. unfold F64.assess_status.
  rewrite (f64_row_get_present _ _ _ _ Hs), (f64_row_get_present _ _ _ _ Hlo),
    (f64_row_get_present _ _ _ _ Hhi).
  destruct Hs as [_ Hs], Hlo as [_ Hlo], Hhi as [_ Hhi].
  cbn [F64.isna]. rewrite Hs, Hlo, Hhi. cbn.
  fold (F64.reorder_threshold_of lo hi).
  destruct (PrimFloat.ltb s lo); [reflexivity|].
  destruct (PrimFloat.ltb s (F64.reorder_threshold_of lo hi)); [reflexivity|].
  destruct (PrimFloat.ltb hi s); reflexivity.
Qed.

Lemma f64_status_rule_sound row :
  F64.numeric row "SOH" -> F64.numeric row "Min Qty" ->
  F64.numeric row "Max Qty" ->
  exists st, F64.assess_status row = Return st /\ F64.status_rule row st.
Proof.
  intros N1 N2 N3.
  destruct (f64_numeric_cases row _ N1) as [Ha | [s Hs]].
  { exists MISSING_SOH. split; [apply f64_assess_status_absent; tauto|].
    apply F64.rule_missing_soh, Ha. }
  destruct (f64_numeric_cases row _ N2) as [Ha | [lo Hlo]].
  { exists MISSING_SOH. split; [apply f64_assess_status_absent; tauto|].
    apply F64.rule_missing_bound. tauto. }
  destruct (f64_numeric_cases row _ N3) as [Ha | [hi Hhi]].
  { exists MISSING_SOH. split; [apply f64_assess_status_absent; tauto|].
    apply F64.rule_missing_bound. tauto. }
  rewrite (f64_assess_status_present row s lo hi Hs Hlo Hhi).
  destruct (PrimFloat.ltb s lo) eqn:E1.
  { eexists. split; [reflexivity|]. eapply F64.rule_critical; eauto. }
  destruct (PrimFloat.ltb s (F64.reorder_threshold_of lo hi)) eqn:E2.
  { eexists. split; [reflexivity|]. eapply F64.rule_reorder; eauto. }
  destruct (PrimFloat.ltb hi s) eqn:E3.
  { eexists. split; [reflexivity|]. eapply F64.rule_overstocked; eauto. }
  eexists. split; [reflexivity|]. eapply F64.rule_healthy; eauto.
Qed.

Lemma f64_status_rule_complete row st :
  F64.status_rule row st -> F64.assess_status row = Return st.
Proof.
  intros H. destruct H as
    [Ha | Ha
     | s lo hi Hs Hlo Hhi H1
     | s lo hi Hs Hlo Hhi H1 H2
     | s lo hi Hs Hlo Hhi H1 H2 H3
     | s lo hi Hs Hlo Hhi H1 H2 H3];
    try (apply f64_assess_status_absent; tauto);
    rewrite (f64_assess_status_present row s lo hi Hs Hlo Hhi), H1;
    try rewrite H2; try rewrite H3; reflexivity.
Qed.

(** C3: for on-hand, min and max given as numbers or absent, the status
    follows the fixed-order rule: absent on-hand, or absent min or max, gives
    MISSING_SOH; otherwise, with reorder_threshold = max - (max - min)/3 in
    float arithmetic, on-hand < min gives CRITICAL_BELOW_MIN, else
    on-hand < reorder_threshold gives REORDER_LEVEL, else on-hand > max gives
    OVERSTOCKED, else HEALTHY.  The classifier returns, without exception,
    exactly one of the five pairwise distinct statuses, the one the rule
    gives. *)
Theorem f64_assess_status_fixed_order_rule row :
  F64.numeric row "SOH" -> F64.numeric row "Min Qty" ->
  F64.numeric row "Max Qty" ->
  exists st,
    F64.assess_status row = Return st /\
    F64.status_rule row st /\
    (forall st', F64.status_rule row st' -> st' = st) /\
    st ∈ statuses /\ NoDup statuses.
Proof.
  intros N1 N2 N3.
  destruct (f64_status_rule_sound row N1 N2 N3) as (st & Hret & Hrule).
  exists st. split; [exact Hret|]. split; [exact Hrule|]. split.
  - intros st' H'. apply f64_status_rule_complete in H'.
    rewrite Hret in H'. congruence.
  - split; [|apply statuses_NoDup].
    clear Hret. destruct Hrule; unfold statuses; in_list.
Qed.

Lemma f64_assess_status_fixed_order_rule_witness :
  exists st,
    F64.assess_status F64.row_threshold = Return st /\
    F64.status_rule F64.row_threshold st /\
    (forall st', F64.status_rule F64.row_threshold st' -> st' = st) /\
    st ∈ statuses /\ NoDup statuses.
Proof.
  apply (f64_assess_status_fixed_order_rule F64.row_threshold);
    intros t; vm_compute; discriminate.
Defined.

(** On on-hand 3.9, min 1.1, max 5.3 the threshold computed in floats is
    3.9000000000000004, and the row is at REORDER_LEVEL. *)
Example f64_threshold_rounds_up :
  F64.assess_status F64.row_threshold = Return REORDER_LEVEL.
Proof. vm_compute. reflexivity. Qed.

(** ** Not-a-number, infinities and truncation *)

Import PrimFloat.

Lemma f64_is_nan_spec x :
  PrimFloat.is_nan x = true <-> FloatOps.Prim2SF x = SpecFloat.S754_nan.
Proof.
  unfold FloatOps.Prim2SF. destruct (PrimFloat.is_nan x); [tauto|].
  split; [discriminate|].
  destruct (PrimFloat.is_zero x); [discriminate|].
  destruct (PrimFloat.is_infinity x); [discriminate|].
  destruct (FloatOps.Z.frexp x) as [r e].
  destruct (SpecFloat.shr_fexp _ _ _ _ _) as [shr e'].
  destruct (SpecFloat.shr_m shr); discriminate.
Qed.

Lemma f64_is_infinity_spec x :
  PrimFloat.is_infinity x = true <->
  exists s, FloatOps.Prim2SF x = SpecFloat.S754_infinity s.
Proof.
  unfold PrimFloat.is_infinity.
  rewrite FloatAxioms.eqb_spec, FloatAxioms.abs_spec.
  change (FloatOps.Prim2SF PrimFloat.infinity)
    with (SpecFloat.S754_infinity false).
  destruct (FloatOps.Prim2SF x) as [s | s | | s m e]; simpl;
    split; try discriminate; try (intros [? ?]; discriminate); eauto.
Qed.

Lemma f64_is_nan_false x :
  PrimFloat.is_nan x = false <-> FloatOps.Prim2SF x <> SpecFloat.S754_nan.
Proof.
  rewrite <- f64_is_nan_spec. destruct (PrimFloat.is_nan x); split; congruence.
Qed.

Lemma f64_Qtrunc_finite (s : bool) (m : positive) (e : Z) :
  Qtrunc (let n := if s then Zneg m else Zpos m in
          if (0 <=? e)%Z then inject_Z (n * 2 ^ e)
          else Qmake n (Z.to_pos (2 ^ (- e)))) =
  let mag := if (0 <=? e)%Z then (Zpos m * 2 ^ e)%Z
             else (Zpos m / 2 ^ (- e))%Z in
  if s then (- mag)%Z else mag.
Proof.
  cbv zeta. destruct (Z.leb_spec 0 e) as [He | He].
  - rewrite Qtrunc_inject_Z. destruct s; [|reflexivity].
    change (Z.neg m) with (- Z.pos m). lia.
  - unfold Qtrunc. cbn [Qnum Qden].
    assert (Hp : 0 < 2 ^ (- e)) by (apply Z.pow_pos_nonneg; lia).
    rewrite Z2Pos.id by exact Hp.
    destruct s.
    + change (Z.neg m) with (- Z.pos m). rewrite Z.quot_opp_l by lia.
      rewrite Z.quot_div_nonneg by lia. reflexivity.
    + rewrite Z.quot_div_nonneg by lia. reflexivity.
Qed.

Lemma f64_py_int_finite x s m e :
  FloatOps.Prim2SF x = SpecFloat.S754_finite s m e ->
  F64.py_int x = Return (Qtrunc (F64.exact x)).
Proof.
  intros H. unfold F64.py_int, F64.exact. rewrite H.
  rewrite f64_Qtrunc_finite. reflexivity.
Qed.

Lemma f64_py_int_zero x s :
  FloatOps.Prim2SF x = SpecFloat.S754_zero s ->
  F64.py_int x = Return (Qtrunc (F64.exact x)).
Proof. intros H. unfold F64.py_int, F64.exact. rewrite H. reflexivity. Qed.

Lemma f64_is_finite_spec x :
  PrimFloat.is_finite x = true <-> F64.finite x.
Proof.
  unfold PrimFloat.is_finite, F64.finite.
  destruct (PrimFloat.is_nan x) eqn:En.
  { apply f64_is_nan_spec in En. rewrite En. simpl. split; [discriminate|tauto]. }
  apply f64_is_nan_false in En.
  destruct (PrimFloat.is_infinity x) eqn:Ei.
  { apply f64_is_infinity_spec in Ei as [s ->]. simpl. split; [discriminate|tauto]. }
  simpl. split; [intros _|reflexivity].
  destruct (FloatOps.Prim2SF x) as [s | s | | s m e] eqn:E; try exact I.
  - assert (H : PrimFloat.is_infinity x = true)
      by (apply f64_is_infinity_spec; eauto).
    congruence.
  - congruence.
Qed.

Lemma f64_truncation_py_int x :
  F64.truncation x (n ← F64.py_int x; Return (Some n)).
Proof.
  destruct (FloatOps.Prim2SF x) as [s | s | | s m e] eqn:E.
  - rewrite (f64_py_int_zero x s E). apply F64.truncation_finite.
    apply f64_is_finite_spec. unfold F64.finite. rewrite E. exact I.
  - unfold F64.py_int. rewrite E. apply F64.truncation_infinite.
    apply f64_is_infinity_spec. eauto.
  - unfold F64.py_int. rewrite E. apply F64.truncation_nan.
    apply f64_is_nan_spec, E.
  - rewrite (f64_py_int_finite x s m e E). apply F64.truncation_finite.
    apply f64_is_finite_spec. unfold F64.finite. rewrite E. exact I.
Qed.

Lemma f64_truncation_unique x r :
  F64.truncation x r -> r = (n ← F64.py_int x; Return (Some n)).
Proof.
  intros H. destruct H as [H | H | H].
  - apply f64_is_nan_spec in H. unfold F64.py_int. rewrite H. reflexivity.
  - apply f64_is_infinity_spec in H as [s H]. unfold F64.py_int. rewrite H.
    reflexivity.
  - apply f64_is_finite_spec in H. unfold F64.finite in H.
    destruct (FloatOps.Prim2SF x) as [s | s | | s m e] eqn:E; try tauto.
    + rewrite (f64_py_int_zero x s E). reflexivity.
    + rewrite (f64_py_int_finite x s m e E). reflexivity.
Qed.

(** ** The reorder suggestion *)

Lemma f64_suggest_reorder_absent row :
  F64.absent row "SOH" \/ F64.absent row "Min Qty" \/
  F64.absent row "Max Qty" \/ F64.absent row "MOQ" ->
  F64.suggest_reorder row = Return None.
Proof.
  unfold F64.suggest_reorder. intros Ha.
  assert (H : F64.isna (F64.row_get row "SOH" F64.NaN)
              || F64.isna (F64.row_get row "Min Qty" F64.NaN)
              || F64.isna (F64.row_get row "Max Qty" F64.NaN)
              || F64.isna (F64.row_get row "MOQ" F64.NaN) = true).
  { destruct Ha as [Ha | [Ha | [Ha | Ha]]];
      destruct (f64_row_get_absent row _ Ha) as (x & -> & Hx);
      cbn [F64.isna]; rewrite Hx, ?orb_true_r; reflexivity. }
  rewrite H. reflexivity.
Qed.

(** The quantity before truncation. *)
Lemma f64_suggest_reorder_present row s lo hi q :
  F64.present row "SOH" s -> F64.present row "Min Qty" lo ->
  F64.present row "Max Qty" hi -> F64.present row "MOQ" q ->
  (F64.absent row "Minor Order Multiple" ->
   F64.suggest_reorder row =
     if PrimFloat.ltb s (F64.reorder_threshold_of lo hi)
     then n ← F64.py_int (F64.order_base s lo q); Return (Some n)
     else Return None) /\
  (forall m, F64.present row "Minor Order Multiple" m ->
   F64.suggest_reorder row =
     if PrimFloat.ltb s (F64.reorder_threshold_of lo hi)
     then n ← F64.py_int (if PrimFloat.ltb 0%float m
                          then F64.round_up (F64.order_base s lo q) m
                          else F64.order_base s lo q);
          Return (Some n)
     else Return None).
Proof.
  intros Hs Hlo Hhi Hq. unfold F64.suggest_reorder.
  rewrite (f64_row_get_present _ _ _ _ Hs), (f64_row_get_present _ _ _ _ Hlo),
    (f64_row_get_present _ _ _ _ Hhi), (f64_row_get_present _ _ _ _ Hq).
  destruct Hs as [_ Hs], Hlo as [_ Hlo], Hhi as [_ Hhi], Hq as [_ Hq].
  cbn [F64.isna]. rewrite Hs, Hlo, Hhi, Hq. cbn [orb].
  cbn [F64.sub F64.div F64.three F64.lt mbind outcome_bind].
  fold (F64.reorder_threshold_of lo hi).
  destruct (PrimFloat.ltb s (F64.reorder_threshold_of lo hi));
    [|split; reflexivity].
  cbn [F64.py_max mbind outcome_bind]. fold (F64.order_base s lo q).
  split.
  - intros Ha. destruct (f64_row_get_absent row _ Ha) as (x & -> & Hx).
    cbn [F64.isna]. rewrite Hx. reflexivity.
  - intros m Hm. rewrite (f64_row_get_present _ _ _ _ Hm).
    destruct Hm as [_ Hm]. cbn [F64.isna]. rewrite Hm.
    cbn [negb F64.gt F64.lt F64.zero mbind outcome_bind].
    destruct (PrimFloat.ltb 0%float m); reflexivity.
Qed.

Lemma f64_reorder_rule_sound row :
  F64.numeric row "SOH" -> F64.numeric row "Min Qty" ->
  F64.numeric row "Max Qty" -> F64.numeric row "MOQ" ->
  F64.numeric row "Minor Order Multiple" ->
  F64.reorder_rule row (F64.suggest_reorder row).
Proof.
  intros N1 N2 N3 N4 N5.
  destruct (f64_numeric_cases row _ N1) as [Ha | [s Hs]].
  { rewrite f64_suggest_reorder_absent by tauto.
    apply F64.reorder_missing. tauto. }
  destruct (f64_numeric_cases row _ N2) as [Ha | [lo Hlo]].
  { rewrite f64_suggest_reorder_absent by tauto.
    apply F64.reorder_missing. tauto. }
  destruct (f64_numeric_cases row _ N3) as [Ha | [hi Hhi]].
  { rewrite f64_suggest_reorder_absent by tauto.
    apply F64.reorder_missing. tauto. }
  destruct (f64_numeric_cases row _ N4) as [Ha | [q Hq]].
  { rewrite f64_suggest_reorder_absent by tauto.
    apply F64.reorder_missing. tauto. }
  destruct (f64_suggest_reorder_present row s lo hi q Hs Hlo Hhi Hq)
    as [Habs Hpres].
  destruct (PrimFloat.ltb s (F64.reorder_threshold_of lo hi)) eqn:E.
  2:{ assert (H : F64.suggest_reorder row = Return None).
      { destruct (f64_numeric_cases row _ N5) as [Ha | [m Hm]];
          [apply Habs, Ha | apply (Hpres m Hm)]. }
      rewrite H. eapply F64.reorder_not_below; eauto. }
  destruct (f64_numeric_cases row _ N5) as [Ha | [m Hm]].
  - rewrite (Habs Ha).
    eapply F64.reorder_below; eauto using f64_truncation_py_int.
    apply F64.multiple_absent, Ha.
  - rewrite (Hpres m Hm).
    eapply F64.reorder_below; eauto using f64_truncation_py_int.
    destruct (PrimFloat.ltb 0%float m) eqn:Em.
    + eapply F64.multiple_positive; eauto.
    + eapply F64.multiple_not_positive; eauto.
Qed.

Lemma f64_reorder_rule_complete row r :
  F64.reorder_rule row r -> r = F64.suggest_reorder row.
Proof.
  intros H.
  destruct H as [Ha | s lo hi q Hs Hlo Hhi Hq E
                 | s lo hi q b r Hs Hlo Hhi Hq E Hm Ht].
  - symmetry. apply f64_suggest_reorder_absent, Ha.
  - destruct (f64_suggest_reorder_present row s lo hi q Hs Hlo Hhi Hq)
      as [Habs Hpres].
    rewrite E in Habs, Hpres.
    destruct (row !! "Minor Order Multiple") as [[m|t]|] eqn:Em.
    + destruct (PrimFloat.is_nan m) eqn:Hn.
      * symmetry. apply Habs. right. eauto.
      * symmetry. apply (Hpres m). split; assumption.
    + (* a text multiple is never reached *)
      unfold F64.suggest_reorder.
      rewrite (f64_row_get_present _ _ _ _ Hs),
        (f64_row_get_present _ _ _ _ Hlo),
        (f64_row_get_present _ _ _ _ Hhi), (f64_row_get_present _ _ _ _ Hq).
      destruct Hs as [_ Hs], Hlo as [_ Hlo], Hhi as [_ Hhi], Hq as [_ Hq].
      cbn [F64.isna]. rewrite Hs, Hlo, Hhi, Hq. cbn [orb].
      cbn [F64.sub F64.div F64.three F64.lt mbind outcome_bind].
      fold (F64.reorder_threshold_of lo hi). rewrite E. reflexivity.
    + symmetry. apply Habs. left. exact Em.
  - destruct (f64_suggest_reorder_present row s lo hi q Hs Hlo Hhi Hq)
      as [Habs Hpres].
    rewrite E in Habs, Hpres.
    apply f64_truncation_unique in Ht. subst r.
    destruct Hm as [Ha | m Hm Hpos | m Hm Hpos].
    + rewrite (Habs Ha). reflexivity.
    + rewrite (Hpres m Hm), Hpos. reflexivity.
    + rewrite (Hpres m Hm), Hpos. reflexivity.
Qed.

(** ** Signs *)

Lemma f64_binary_round_aux_sign sx mx ex lx :
  match SpecFloat.binary_round_aux FloatOps.prec FloatOps.emax sx mx ex lx with
  | SpecFloat.S754_finite s _ _ => s = sx
  | _ => True
  end.
Proof.
  unfold SpecFloat.binary_round_aux.
  destruct (SpecFloat.shr_fexp _ _ mx ex lx) as [mrs' e'].
  destruct (SpecFloat.shr_fexp _ _ _ e' _) as [mrs'' e''].
  destruct (SpecFloat.shr_m mrs''); try exact I.
  destruct (e'' <=? _)%Z; [reflexivity | exact I].
Qed.

Lemma f64_not_negative_round sx mx ex lx x :
  FloatOps.Prim2SF x
  = SpecFloat.binary_round_aux FloatOps.prec FloatOps.emax sx mx ex lx ->
  sx = false -> F64.not_negative x.
Proof.
  intros H ->. unfold F64.not_negative. rewrite H.
  pose proof (f64_binary_round_aux_sign false mx ex lx) as Hs.
  destruct (SpecFloat.binary_round_aux _ _ _ _ _ _) as [| | |s m e];
    try exact I.
  subst s. exact I.
Qed.

Lemma f64_not_negative_of_Z z : F64.not_negative (F64.float_of_Z z).
Proof.
  unfold F64.float_of_Z.
  pose proof (FloatAxioms.of_uint63_spec (Uint63.of_Z z)) as H.
  pose proof (Uint63.to_Z_bounded (Uint63.of_Z z)) as Hb.
  destruct (Uint63.to_Z (Uint63.of_Z z)) as [|p|p]; [| |lia].
  - unfold F64.not_negative. rewrite H. exact I.
  - cbn [SpecFloat.binary_normalize] in H. unfold SpecFloat.binary_round in H.
    destruct (SpecFloat.shl_align _ _ _) as [mz ez].
    eapply f64_not_negative_round; [exact H | reflexivity].
Qed.

Lemma f64_positive_cases m :
  (0 <? m)%float = true ->
  (exists p e, FloatOps.Prim2SF m = SpecFloat.S754_finite false p e) \/
  FloatOps.Prim2SF m = SpecFloat.S754_infinity false.
Proof.
  rewrite FloatAxioms.ltb_spec.
  change (FloatOps.Prim2SF 0%float) with (SpecFloat.S754_zero false).
  destruct (FloatOps.Prim2SF m) as [s | [] | | [] p e]; cbn;
    try discriminate; eauto.
Qed.

Lemma f64_not_negative_leb q : (0 <=? q)%float = true -> F64.not_negative q.
Proof.
  rewrite FloatAxioms.leb_spec. unfold F64.not_negative.
  change (FloatOps.Prim2SF 0%float) with (SpecFloat.S754_zero false).
  destruct (FloatOps.Prim2SF q) as [s | [] | | [] p e]; cbn;
    try discriminate; auto.
Qed.

Lemma f64_not_negative_above q g :
  (0 <=? q)%float = true -> (q <? g)%float = true -> F64.not_negative g.
Proof.
  rewrite FloatAxioms.leb_spec, FloatAxioms.ltb_spec. unfold F64.not_negative.
  change (FloatOps.Prim2SF 0%float) with (SpecFloat.S754_zero false).
  destruct (FloatOps.Prim2SF q) as [s | [] | | [] p e]; cbn;
    try discriminate;
    destruct (FloatOps.Prim2SF g) as [s' | [] | | [] p' e']; cbn;
    try discriminate; auto.
Qed.

Lemma f64_not_negative_order_base s lo q :
  (0 <=? q)%float = true -> F64.not_negative (F64.order_base s lo q).
Proof.
  intros Hq. unfold F64.order_base. cbv zeta.
  destruct (q <? lo - s)%float eqn:E.
  - apply (f64_not_negative_above q _ Hq E).
  - apply f64_not_negative_leb, Hq.
Qed.

Lemma f64_not_negative_div b m :
  F64.not_negative b -> (0 <? m)%float = true -> F64.not_negative (b / m)%float.
Proof.
  intros Hb Hm. unfold F64.not_negative in *.
  pose proof (FloatAxioms.div_spec b m) as H.
  destruct (f64_positive_cases m Hm) as [(p & e & E) | E]; rewrite E in H.
  - destruct (FloatOps.Prim2SF b) as [s | s | | [] pb eb];
      try (rewrite H; exact I); [tauto|].
    cbn [FloatAxioms.SF64div SpecFloat.SFdiv xorb] in H.
    unfold FloatAxioms.SF64div, SpecFloat.SFdiv in H.
    destruct (SpecFloat.SFdiv_core_binary _ _ _ _ _ _) as [[mz ez] lz].
    apply (f64_not_negative_round _ _ _ _ _ H). reflexivity.
  - destruct (FloatOps.Prim2SF b) as [s | s | | [] pb eb];
      rewrite H; exact I.
Qed.

Lemma f64_not_negative_mul c m :
  F64.not_negative c -> (0 <? m)%float = true -> F64.not_negative (c * m)%float.
Proof.
  intros Hc Hm. unfold F64.not_negative in *.
  pose proof (FloatAxioms.mul_spec c m) as H.
  destruct (f64_positive_cases m Hm) as [(p & e & E) | E]; rewrite E in H.
  - destruct (FloatOps.Prim2SF c) as [s | s | | [] pc ec];
      try (rewrite H; exact I); [tauto|].
    unfold FloatAxioms.SF64mul, SpecFloat.SFmul in H.
    apply (f64_not_negative_round _ _ _ _ _ H). reflexivity.
  - destruct (FloatOps.Prim2SF c) as [s | s | | [] pc ec];
      rewrite H; exact I.
Qed.

Lemma f64_not_negative_ceil x : F64.not_negative x -> F64.not_negative (F64.ceil x).
Proof.
  intros Hx. unfold F64.ceil.
  destruct (FloatOps.Prim2SF x) as [s | s | | s p e] eqn:E; try exact Hx.
  destruct (0 <=? e)%Z; [exact Hx|].
  unfold F64.not_negative in Hx. rewrite E in Hx. destruct s; [tauto|].
  apply f64_not_negative_of_Z.
Qed.

Lemma f64_py_int_not_negative x n :
  F64.not_negative x -> F64.py_int x = Return n -> 0 <= n.
Proof.
  unfold F64.not_negative, F64.py_int.
  destruct (FloatOps.Prim2SF x) as [s | s | | [] p e]; try discriminate;
    try tauto.
  - intros _ [= <-]. lia.
  - intros _ [= <-]. destruct (Z.leb_spec 0 e).
    + apply Z.mul_nonneg_nonneg; [lia|]. apply Z.pow_nonneg. lia.
    + apply Z.div_pos; [lia|]. apply Z.pow_pos_nonneg; lia.
Qed.

#[local] Set Warnings "-inexact-float".

(** C5 as stated fails on finite quantities.  With minimum order quantity
    1e308 and multiple 0.5 the quotient overflows and [int] raises
    [OverflowError] on a row that is below its reorder level.  With minimum
    order quantity 2.7 and multiple 0.3 the float quotient is
    9.000000000000002, so the suggestion is 3, while rounding the exact
    quotient up and truncating gives 2. *)
Lemma f64_suggest_reorder_overflow_and_rounding :
  F64.assess_status F64.row_overflow = Return CRITICAL_BELOW_MIN /\
  F64.suggest_reorder F64.row_overflow = Raise OverflowError /\
  F64.suggest_reorder F64.row_multiple = Return (Some 3) /\
  Qtrunc (inject_Z (Qceiling (F64.exact 2.7 / F64.exact 0.3))
          * F64.exact 0.3) = 2.
Proof. vm_compute. auto. Qed.

(** C5 (amended): on a row whose five quantities are numbers or absent,
    [suggest_reorder] returns no suggestion when on-hand, min, max or the
    minimum order quantity is absent, and no suggestion when on-hand is not
    below the reorder threshold of the status classifier.  Otherwise the
    quantity is the larger of the minimum order quantity and min - on-hand;
    when the multiple is present and positive it becomes
    ceil(quantity / multiple) * multiple, each operation rounded to a float;
    the result is that quantity truncated to an integer, and the call raises
    [OverflowError] when the quantity is infinite and [ValueError] when it is
    not a number.  The rule determines the outcome. *)
Theorem f64_suggest_reorder_follows_rule row :
  F64.numeric row "SOH" -> F64.numeric row "Min Qty" ->
  F64.numeric row "Max Qty" -> F64.numeric row "MOQ" ->
  F64.numeric row "Minor Order Multiple" ->
  F64.reorder_rule row (F64.suggest_reorder row) /\
  (forall r, F64.reorder_rule row r -> r = F64.suggest_reorder row).
Proof.
  intros N1 N2 N3 N4 N5. split.
  - apply f64_reorder_rule_sound; assumption.
  - apply f64_reorder_rule_complete.
Qed.

Lemma f64_suggest_reorder_follows_rule_witness :
  F64.reorder_rule F64.row_multiple (F64.suggest_reorder F64.row_multiple) /\
  (forall r, F64.reorder_rule F64.row_multiple r ->
             r = F64.suggest_reorder F64.row_multiple).
Proof.
  apply (f64_suggest_reorder_follows_rule F64.row_multiple);
    intros t; vm_compute; discriminate.
Defined.

(** C4 as stated fails: a negative minimum order quantity is returned as
    it is, a suggestion need not be a multiple of the minor order multiple
    even when that multiple is an integer (2^53 is not a multiple of 3), and
    the call may raise instead of returning. *)
Lemma f64_suggest_reorder_negative_and_indivisible :
  F64.suggest_reorder F64.row_negative_moq = Return (Some (-5)) /\
  F64.suggest_reorder F64.row_big = Return (Some 9007199254740992) /\
  9007199254740992 mod 3 = 2 /\
  F64.suggest_reorder F64.row_overflow = Raise OverflowError.
Proof. vm_compute. auto. Qed.

Lemma f64_suggest_reorder_outcomes row :
  F64.numeric row "SOH" -> F64.numeric row "Min Qty" ->
  F64.numeric row "Max Qty" -> F64.numeric row "MOQ" ->
  F64.numeric row "Minor Order Multiple" ->
  F64.suggest_reorder row = Return None \/
  (exists n, F64.suggest_reorder row = Return (Some n)) \/
  F64.suggest_reorder row = Raise OverflowError \/
  F64.suggest_reorder row = Raise ValueError.
Proof.
  intros N1 N2 N3 N4 N5.
  pose proof (f64_reorder_rule_sound row N1 N2 N3 N4 N5) as H.
  destruct H as [Ha | s lo hi q Hs Hlo Hhi Hq E
                 | s lo hi q b r Hs Hlo Hhi Hq E Hm Ht]; auto.
  destruct Ht; eauto.
Qed.

Lemma f64_suggest_reorder_not_negative row q n :
  F64.numeric row "SOH" -> F64.numeric row "Min Qty" ->
  F64.numeric row "Max Qty" -> F64.numeric row "MOQ" ->
  F64.numeric row "Minor Order Multiple" ->
  F64.present row "MOQ" q -> (0 <=? q)%float = true ->
  F64.suggest_reorder row = Return (Some n) -> 0 <= n.
Proof.
  intros N1 N2 N3 N4 N5 Hq Hpos Hret.
  pose proof (f64_reorder_rule_sound row N1 N2 N3 N4 N5) as H.
  rewrite Hret in H.
  inversion H as [Ha | s lo hi q' Hs Hlo Hhi Hq' E
                  | s lo hi q' b r Hs Hlo Hhi Hq' E Hm Ht]; subst.
  rewrite <- (f64_present_inj _ _ _ _ Hq Hq') in Hm.
  apply f64_truncation_unique in Ht.
  destruct (F64.py_int b) as [k|e] eqn:Ek; [|discriminate].
  injection Ht as ->.
  apply (f64_py_int_not_negative b k); [|exact Ek].
  destruct Hm as [Ha | m Hm Hle | m Hm Hlt].
  - apply f64_not_negative_order_base, Hpos.
  - apply f64_not_negative_order_base, Hpos.
  - unfold F64.round_up.
    apply f64_not_negative_mul; [|exact Hlt].
    apply f64_not_negative_ceil, f64_not_negative_div; [|exact Hlt].
    apply f64_not_negative_order_base, Hpos.
Qed.

(** C4 (amended): on a row whose five quantities are numbers or absent,
    [suggest_reorder] returns no suggestion or an integer, or raises
    [OverflowError] or [ValueError]; a returned integer is non-negative
    whenever the minimum order quantity is non-negative. *)
Theorem f64_suggest_reorder_integer_or_none row :
  F64.numeric row "SOH" -> F64.numeric row "Min Qty" ->
  F64.numeric row "Max Qty" -> F64.numeric row "MOQ" ->
  F64.numeric row "Minor Order Multiple" ->
  (F64.suggest_reorder row = Return None \/
   (exists n, F64.suggest_reorder row = Return (Some n)) \/
   F64.suggest_reorder row = Raise OverflowError \/
   F64.suggest_reorder row = Raise ValueError) /\
  (forall q n, F64.present row "MOQ" q -> (0 <=? q)%float = true ->
               F64.suggest_reorder row = Return (Some n) -> 0 <= n).
Proof.
  intros N1 N2 N3 N4 N5. split.
  - apply f64_suggest_reorder_outcomes; assumption.
  - intros q n. apply f64_suggest_reorder_not_negative; assumption.
Qed.

Lemma f64_suggest_reorder_integer_or_none_witness :
  (F64.suggest_reorder F64.row_A = Return None \/
   (exists n, F64.suggest_reorder F64.row_A = Return (Some n)) \/
   F64.suggest_reorder F64.row_A = Raise OverflowError \/
   F64.suggest_reorder F64.row_A = Raise ValueError) /\
  (forall q n, F64.present F64.row_A "MOQ" q -> (0 <=? q)%float = true ->
               F64.suggest_reorder F64.row_A = Return (Some n) -> 0 <= n).
Proof.
  apply (f64_suggest_reorder_integer_or_none F64.row_A);
    intros t; vm_compute; discriminate.
Defined.

Example f64_scenario_A_reorder :
  F64.suggest_reorder F64.row_A = Return (Some 20).
Proof. vm_compute. reflexivity. Qed.

(** ** The coverage marks *)

Lemma f64_numeric_row_get row col d :
  F64.numeric row col -> (forall t, d <> Text t) ->
  exists u, F64.row_get row col d = Float u.
Proof.
  intros Hnum Hd. unfold F64.row_get.
  destruct (row !! col) as [[u|t]|] eqn:E.
  - eauto.
  - exfalso. apply (Hnum t), E.
  - destruct d as [u|t]; [eauto|]. exfalso. apply (Hd t). reflexivity.
Qed.

Lemma f64_simulate_step_float row r col u :
  F64.row_get row col F64.NaN = Float u ->
  F64.simulate_step row (Float r) col =
    Return (if F64.covered r u then (Float (r - u)%float, COVERED)
            else (Float r, NOT_COVERED)).
Proof.
  intros H. unfold F64.simulate_step, F64.covered. rewrite H.
  cbn [F64.isna].
  destruct (is_nan u), (is_nan r); cbn; try reflexivity.
  destruct (u <=? r)%float; reflexivity.
Qed.

(** With no stock on hand the step never compares. *)
Lemma f64_simulate_step_nan row r col :
  is_nan r = true ->
  F64.simulate_step row (Float r) col = Return (Float r, NOT_COVERED).
Proof.
  intros H. unfold F64.simulate_step. cbn [F64.isna]. rewrite H.
  rewrite orb_true_r. reflexivity.
Qed.

Lemma f64_simulate_loop_nan row r cols :
  is_nan r = true ->
  F64.simulate_loop row (Float r) cols
  = Return (replicate (length cols) NOT_COVERED).
Proof.
  intros H. induction cols as [|col rest IH]; [reflexivity|].
  cbn [F64.simulate_loop]. rewrite (f64_simulate_step_nan _ _ _ H).
  cbn [mbind outcome_bind fst snd]. rewrite IH. reflexivity.
Qed.

(** On numeric cells the loop returns, one mark per column, and the marks
    and the stock are those of the steps. *)
Lemma f64_simulate_loop_numeric row cols :
  (forall col, col ∈ cols -> F64.numeric row col) ->
  forall r, exists marks,
    F64.simulate_loop row (Float r) cols = Return marks /\
    length marks = length cols /\
    forall i col, cols !! i = Some col ->
      exists ri u,
        F64.simulate_remaining row (Float r) (take i cols) = Return (Float ri) /\
        F64.row_get row col F64.NaN = Float u /\
        marks !! i = Some (if F64.covered ri u then COVERED else NOT_COVERED) /\
        F64.simulate_remaining row (Float r) (take (S i) cols)
        = Return (Float (if F64.covered ri u then (ri - u)%float else ri)).
Proof.
  induction cols as [|c rest IH]; intros Hnum r.
  { exists []. split; [reflexivity|]. split; [reflexivity|].
    intros i col H. discriminate H. }
  destruct (f64_numeric_row_get row c F64.NaN) as [u Hu].
  { apply Hnum. left. }
  { discriminate. }
  assert (Hrest : forall col, col ∈ rest -> F64.numeric row col).
  { intros col Hcol. apply Hnum. right. exact Hcol. }
  pose proof (f64_simulate_step_float row r c u Hu) as Hstep.
  set (r1 := if F64.covered r u then (r - u)%float else r).
  assert (Hfst : F64.simulate_step row (Float r) c
                 = Return (Float r1,
                           if F64.covered r u then COVERED else NOT_COVERED)).
  { rewrite Hstep. unfold r1. destruct (F64.covered r u); reflexivity. }
  destruct (IH Hrest r1) as (marks & Hloop & Hlen & Hmarks).
  exists ((if F64.covered r u then COVERED else NOT_COVERED) :: marks).
  split; [|split].
  - cbn [F64.simulate_loop]. rewrite Hfst. cbn [mbind outcome_bind fst snd].
    rewrite Hloop. reflexivity.
  - cbn [length]. rewrite Hlen. reflexivity.
  - intros i col Hi. destruct i as [|i].
    + injection Hi as <-. exists r, u.
      split; [reflexivity|]. split; [exact Hu|]. split; [reflexivity|].
      cbn [take F64.simulate_remaining]. rewrite Hfst. reflexivity.
    + cbn [lookup list_lookup] in Hi.
      destruct (Hmarks i col Hi) as (ri & ui & H1 & H2 & H3 & H4).
      exists ri, ui.
      change (take (S i) (c :: rest)) with (c :: take i rest).
      change (take (S (S i)) (c :: rest)) with (c :: take (S i) rest).
      cbn [F64.simulate_remaining]. rewrite Hfst.
      cbn [mbind outcome_bind fst].
      split; [exact H1|]. split; [exact H2|]. split; [exact H3|exact H4].
Qed.

(** C1 as stated fails: with on-hand 100 and usages 40, 80, 40 the second
    period is not covered (60 < 80) and the third is covered again
    (60 >= 40). *)
Lemma f64_simulate_runout_resumes :
  F64.simulate_runout
    (F64.forecast_row 100 [Float 40; Float 80; Float 40]) F64.periods
  = Return [COVERED; NOT_COVERED; COVERED].
Proof. vm_compute. reflexivity. Qed.

(** C1 (amended): for every row whose on-hand and forecast cells are
    numbers or absent, and every ordered list of forecast columns,
    [simulate_runout] gives one mark per period, each by the same rule on
    the stock left by the periods before it: covered, with the stock
    decremented by the usage (rounded to a float), when stock and usage are
    present and stock >= usage; otherwise not covered, with the stock left
    unchanged, and the scan goes on to the next period.  When on-hand is
    absent no period is covered. *)
Theorem f64_simulate_runout_marking row cols :
  F64.numeric row "SOH" ->
  (forall col, col ∈ cols -> F64.numeric row col) ->
  exists marks,
    F64.simulate_runout row cols = Return marks /\
    length marks = length cols /\
    (forall i col, cols !! i = Some col ->
       exists r u,
         F64.remaining_before row cols i = Return (Float r) /\
         F64.row_get row col F64.NaN = Float u /\
         (F64.covered r u = true ->
          marks !! i = Some COVERED /\
          F64.remaining_before row cols (S i) = Return (Float (r - u)%float)) /\
         (F64.covered r u = false ->
          marks !! i = Some NOT_COVERED /\
          F64.remaining_before row cols (S i) = Return (Float r))) /\
    (F64.absent row "SOH" ->
     forall i, (i < length cols)%nat -> marks !! i = Some NOT_COVERED).
Proof.
  intros Nsoh Ncols.
  destruct (f64_numeric_row_get row "SOH" F64.NaN Nsoh) as [s Hs];
    [discriminate|].
  destruct (f64_simulate_loop_numeric row cols Ncols s)
    as (marks & Hloop & Hlen & Hmarks).
  exists marks. unfold F64.simulate_runout, F64.remaining_before.
  rewrite Hs. split; [exact Hloop|]. split; [exact Hlen|]. split.
  - intros i col Hi.
    destruct (Hmarks i col Hi) as (r & u & H1 & H2 & H3 & H4).
    exists r, u. split; [exact H1|]. split; [exact H2|].
    split; intros Hc; rewrite Hc in H3, H4; auto.
  - intros Ha i Hi.
    destruct (f64_row_get_absent row _ Ha) as (x & Hx & Hnan).
    rewrite Hs in Hx. injection Hx as <-.
    rewrite (f64_simulate_loop_nan row s cols Hnan) in Hloop.
    injection Hloop as <-. apply lookup_replicate_2. exact Hi.
Qed.

Lemma f64_simulate_runout_marking_witness :
  exists marks,
    F64.simulate_runout
      (F64.forecast_row 0.8 [Float 0.3; Float 0.4; Float 0.1]) F64.periods
    = Return marks /\
    length marks = length F64.periods /\
    (forall i col, F64.periods !! i = Some col ->
       exists r u,
         F64.remaining_before
           (F64.forecast_row 0.8 [Float 0.3; Float 0.4; Float 0.1])
           F64.periods i = Return (Float r) /\
         F64.row_get (F64.forecast_row 0.8 [Float 0.3; Float 0.4; Float 0.1])
           col F64.NaN = Float u /\
         (F64.covered r u = true ->
          marks !! i = Some COVERED /\
          F64.remaining_before
            (F64.forecast_row 0.8 [Float 0.3; Float 0.4; Float 0.1])
            F64.periods (S i) = Return (Float (r - u)%float)) /\
         (F64.covered r u = false ->
          marks !! i = Some NOT_COVERED /\
          F64.remaining_before
            (F64.forecast_row 0.8 [Float 0.3; Float 0.4; Float 0.1])
            F64.periods (S i) = Return (Float r))) /\
    (F64.absent (F64.forecast_row 0.8 [Float 0.3; Float 0.4; Float 0.1]) "SOH" ->
     forall i, (i < length F64.periods)%nat -> marks !! i = Some NOT_COVERED).
Proof.
  apply (f64_simulate_runout_marking
           (F64.forecast_row 0.8 [Float 0.3; Float 0.4; Float 0.1])
           F64.periods).
  - intros t. vm_compute. discriminate.
  - intros col Hcol t. unfold F64.periods in Hcol.
    repeat (apply elem_of_cons in Hcol as [-> | Hcol];
            [vm_compute; discriminate|]).
    apply elem_of_nil in Hcol. destruct Hcol.
Defined.

(** The stock 0.8 covers 0.3 and 0.4; what is left is the float
    0.09999999999999998, which does not cover 0.1. *)
Example f64_rounded_stock :
  F64.simulate_runout
    (F64.forecast_row 0.8 [Float 0.3; Float 0.4; Float 0.1]) F64.periods
  = Return [COVERED; COVERED; NOT_COVERED].
Proof. vm_compute. reflexivity. Qed.

(** ** The runout estimate *)

Lemma f64_stock_after_cons row s col rest :
  F64.stock_after row s (col :: rest)
  = F64.stock_after row (F64.subtract_usage row s col) rest.
Proof. reflexivity. Qed.

Lemma f64_never_runs_out_cons row s col rest :
  (F64.subtract_usage row s col <=? 0)%float = false ->
  F64.never_runs_out row (F64.subtract_usage row s col) rest ->
  F64.never_runs_out row s (col :: rest).
Proof.
  intros Hpos Hrest j Hj. destruct j as [|j].
  - exact Hpos.
  - change (take (S (S j)) (col :: rest)) with (col :: take (S j) rest).
    rewrite f64_stock_after_cons. apply Hrest. simpl in Hj. lia.
Qed.

Lemma f64_runs_out_at_cons row s col rest i :
  (F64.subtract_usage row s col <=? 0)%float = false ->
  F64.runs_out_at row (F64.subtract_usage row s col) rest i ->
  F64.runs_out_at row s (col :: rest) (S i).
Proof.
  intros Hpos (Hlen & Hle & Hbefore). split; [simpl; lia|]. split.
  - change (take (S (S i)) (col :: rest)) with (col :: take (S i) rest).
    rewrite f64_stock_after_cons. exact Hle.
  - intros j Hj. destruct j as [|j]; [exact Hpos|].
    change (take (S (S j)) (col :: rest)) with (col :: take (S j) rest).
    rewrite f64_stock_after_cons. apply Hbefore. lia.
Qed.

Lemma f64_runs_out_at_head row s col rest :
  (F64.subtract_usage row s col <=? 0)%float = true ->
  F64.runs_out_at row s (col :: rest) 0.
Proof.
  intros Hle. split; [simpl; lia|]. split; [exact Hle|]. intros j Hj. lia.
Qed.

Lemma f64_runs_out_at_unique row s cols i i' :
  F64.runs_out_at row s cols i -> F64.runs_out_at row s cols i' -> i = i'.
Proof.
  intros (_ & Hle & Hbefore) (_ & Hle' & Hbefore').
  destruct (lt_eq_lt_dec i i') as [[Hlt|Heq]|Hgt]; [|exact Heq|].
  - rewrite (Hbefore' i Hlt) in Hle. discriminate.
  - rewrite (Hbefore i' Hgt) in Hle'. discriminate.
Qed.

Lemma f64_runs_out_at_not_never row s cols i :
  F64.runs_out_at row s cols i -> ~ F64.never_runs_out row s cols.
Proof.
  intros (Hlen & Hle & _) Hnever. rewrite (Hnever i Hlen) in Hle.
  discriminate.
Qed.

(** The loop entered at index [k] with a stock [r] that is not exhausted:
    it either falls through, and the stock is never exhausted, or returns
    [k + i] for the first period [i] of the remaining columns that exhausts
    the stock. *)
Lemma f64_estimate_loop_spec row cols :
  (forall col, col ∈ cols -> F64.numeric row col) ->
  forall (r : float) (k : nat), (r <=? 0)%float = false ->
    (F64.estimate_loop row (Float r) k cols = Return nan /\
     F64.never_runs_out row r cols) \/
    (exists i, F64.estimate_loop row (Float r) k cols
                 = Return (F64.float_of_nat (k + i)) /\
               F64.runs_out_at row r cols i).
Proof.
  induction cols as [|col rest IH]; intros Hnum r k Hr.
  { left. split; [reflexivity|]. intros j Hj. simpl in Hj. lia. }
  assert (Hrest : forall c, c ∈ rest -> F64.numeric row c).
  { intros c Hc. apply Hnum. right. exact Hc. }
  assert (Hnext : (F64.subtract_usage row r col <=? 0)%float = false ->
            F64.estimate_loop row (Float r) k (col :: rest)
            = F64.estimate_loop row (Float (F64.subtract_usage row r col))
                (S k) rest ->
            (F64.estimate_loop row (Float r) k (col :: rest) = Return nan /\
             F64.never_runs_out row r (col :: rest)) \/
            (exists i, F64.estimate_loop row (Float r) k (col :: rest)
                         = Return (F64.float_of_nat (k + i)) /\
                       F64.runs_out_at row r (col :: rest) i)).
  { intros Hpos ->.
    destruct (IH Hrest _ (S k) Hpos) as [[-> Hnever] | (i & -> & Hi)].
    - left. split; [reflexivity|]. apply f64_never_runs_out_cons; assumption.
    - right. exists (S i). split.
      + do 2 f_equal. lia.
      + apply f64_runs_out_at_cons; assumption. }
  destruct (f64_numeric_row_get row col F64.zero) as [u Eu].
  { apply Hnum. left. }
  { discriminate. }
  destruct (is_nan u) eqn:En.
  - assert (Hsub : F64.subtract_usage row r col = r).
    { unfold F64.subtract_usage. rewrite Eu, En. reflexivity. }
    apply Hnext; rewrite Hsub; [exact Hr|].
    cbn [F64.estimate_loop]. rewrite Eu. cbn [F64.isna]. rewrite En.
    reflexivity.
  - assert (Hsub : F64.subtract_usage row r col = (r - u)%float).
    { unfold F64.subtract_usage. rewrite Eu, En. reflexivity. }
    destruct (r - u <=? 0)%float eqn:E.
    + right. exists 0%nat. split.
      * cbn [F64.estimate_loop]. rewrite Eu. cbn [F64.isna]. rewrite En.
        cbn [F64.sub F64.le F64.zero mbind outcome_bind]. rewrite E.
        do 2 f_equal. lia.
      * apply f64_runs_out_at_head. rewrite Hsub. exact E.
    + apply Hnext; rewrite Hsub; [exact E|].
      cbn [F64.estimate_loop]. rewrite Eu. cbn [F64.isna]. rewrite En.
      cbn [F64.sub F64.le F64.zero mbind outcome_bind]. rewrite E.
      reflexivity.
Qed.

Lemma f64_estimate_runout_cons row col rest soh :
  row !! "SOH" = Some (Float soh) ->
  F64.estimate_runout (col :: rest) row =
    if (soh <=? 0)%float then Return nan
    else F64.estimate_loop row (Float soh) 0 (col :: rest).
Proof.
  intros H. unfold F64.estimate_runout, F64.row_item. rewrite H.
  cbn [mbind outcome_bind F64.le F64.zero].
  destruct (soh <=? 0)%float; reflexivity.
Qed.

(** The two ways [estimate_runout] ends on a row with a numeric on-hand
    cell and numeric forecast cells. *)
Lemma f64_estimate_runout_cases row cols soh :
  row !! "SOH" = Some (Float soh) ->
  (forall col, col ∈ cols -> F64.numeric row col) ->
  (F64.estimate_runout cols row = Return nan /\ F64.no_runout row soh cols) \/
  (exists i, F64.estimate_runout cols row = Return (F64.float_of_nat i) /\
             (soh <=? 0)%float = false /\ F64.runs_out_at row soh cols i).
Proof.
  intros Hsoh Hnum. destruct cols as [|col rest].
  { left. split; [reflexivity|]. unfold F64.no_runout. tauto. }
  rewrite (f64_estimate_runout_cons row col rest soh Hsoh).
  destruct (soh <=? 0)%float eqn:E.
  { left. split; [reflexivity|]. unfold F64.no_runout. tauto. }
  destruct (f64_estimate_loop_spec row (col :: rest) Hnum soh 0 E)
    as [[-> Hnever] | (i & -> & Hi)].
  - left. split; [reflexivity|]. unfold F64.no_runout. tauto.
  - right. exists i. auto.
Qed.

Lemma f64_no_runout_not_runs_out row s cols i :
  (s <=? 0)%float = false -> F64.runs_out_at row s cols i ->
  ~ F64.no_runout row s cols.
Proof.
  intros Hs Hi [H | [-> | Hnever]].
  - congruence.
  - destruct Hi as [Hlen _]. simpl in Hlen. lia.
  - apply (f64_runs_out_at_not_never _ _ _ _ Hi Hnever).
Qed.

(** A stock that is not a number stays so and is never exhausted. *)
Lemma f64_nan_leb x : is_nan x = true -> (x <=? 0)%float = false.
Proof.
  intros H. apply f64_is_nan_spec in H.
  rewrite FloatAxioms.leb_spec, H. reflexivity.
Qed.

Lemma f64_nan_sub x y : is_nan x = true -> is_nan (x - y)%float = true.
Proof.
  intros H. apply f64_is_nan_spec in H. apply f64_is_nan_spec.
  rewrite FloatAxioms.sub_spec, H. reflexivity.
Qed.

Lemma f64_stock_after_nan row cols :
  forall s, is_nan s = true -> is_nan (F64.stock_after row s cols) = true.
Proof.
  induction cols as [|col rest IH]; intros s Hs; [exact Hs|].
  rewrite f64_stock_after_cons. apply IH. unfold F64.subtract_usage.
  destruct (F64.row_get row col F64.zero) as [u|t]; [|exact Hs].
  destruct (is_nan u); [exact Hs|]. apply f64_nan_sub, Hs.
Qed.

Lemma f64_nan_no_runout row s cols :
  is_nan s = true -> F64.no_runout row s cols.
Proof.
  intros Hs. right. right. intros j _.
  apply f64_nan_leb, f64_stock_after_nan, Hs.
Qed.

(** C6 as stated fails: forecast columns are not coerced to numbers, and
    on a text cell the subtraction raises [TypeError] instead of skipping
    the period. *)
Lemma f64_estimate_runout_text_cell :
  F64.estimate_runout F64.periods
    (F64.forecast_row 100 [Float 40; Text "TBC"; Float 70])
  = Raise TypeError.
Proof. vm_compute. reflexivity. Qed.

(** C6 (amended): on a row with a numeric on-hand cell whose forecast
    cells are numbers or absent, the Runout Period estimate starts from
    on-hand, goes through the periods in column order subtracting each
    present usage in float arithmetic (absent usages are skipped), and
    returns, as a float, the 0-indexed position of the first period after
    which the remaining stock is <= 0, which is below the number of forecast
    columns.  It is absent when on-hand is absent or <= 0, when there is no
    forecast column, or when the stock never runs out.  One of the two
    holds. *)
Theorem f64_estimate_runout_first_exhaustion row cols soh :
  row !! "SOH" = Some (Float soh) ->
  (forall col, col ∈ cols -> F64.numeric row col) ->
  (F64.no_runout row soh cols -> F64.estimate_runout cols row = Return nan) /\
  (forall i, (soh <=? 0)%float = false -> F64.runs_out_at row soh cols i ->
             F64.estimate_runout cols row = Return (F64.float_of_nat i) /\
             (i < length cols)%nat) /\
  (F64.no_runout row soh cols \/
   exists i, (soh <=? 0)%float = false /\ F64.runs_out_at row soh cols i) /\
  (is_nan soh = true -> F64.no_runout row soh cols).
Proof.
  intros Hsoh Hnum.
  destruct (f64_estimate_runout_cases row cols soh Hsoh Hnum)
    as [[Hret Hno] | (i & Hret & Hs & Hi)].
  - split; [auto|]. split; [|split; [auto | apply f64_nan_no_runout]].
    intros i Hs Hi. exfalso.
    apply (f64_no_runout_not_runs_out _ _ _ _ Hs Hi Hno).
  - split; [|split; [|split; [eauto | apply f64_nan_no_runout]]].
    + intros Hno. exfalso.
      apply (f64_no_runout_not_runs_out _ _ _ _ Hs Hi Hno).
    + intros i' _ Hi'. rewrite <- (f64_runs_out_at_unique _ _ _ _ _ Hi Hi').
      split; [exact Hret | apply Hi].
Qed.

Lemma f64_estimate_runout_first_exhaustion_witness :
  (F64.no_runout (F64.forecast_row 0.4 [Float 0.1; Float 0.1; Float 0.2])
     0.4 F64.periods ->
   F64.estimate_runout F64.periods
     (F64.forecast_row 0.4 [Float 0.1; Float 0.1; Float 0.2]) = Return nan) /\
  (forall i, (0.4 <=? 0)%float = false ->
     F64.runs_out_at (F64.forecast_row 0.4 [Float 0.1; Float 0.1; Float 0.2])
       0.4 F64.periods i ->
     F64.estimate_runout F64.periods
       (F64.forecast_row 0.4 [Float 0.1; Float 0.1; Float 0.2])
     = Return (F64.float_of_nat i) /\
     (i < length F64.periods)%nat) /\
  (F64.no_runout (F64.forecast_row 0.4 [Float 0.1; Float 0.1; Float 0.2])
     0.4 F64.periods \/
   exists i, (0.4 <=? 0)%float = false /\
     F64.runs_out_at (F64.forecast_row 0.4 [Float 0.1; Float 0.1; Float 0.2])
       0.4 F64.periods i) /\
  (is_nan 0.4 = true ->
   F64.no_runout (F64.forecast_row 0.4 [Float 0.1; Float 0.1; Float 0.2])
     0.4 F64.periods).
Proof.
  apply (f64_estimate_runout_first_exhaustion
           (F64.forecast_row 0.4 [Float 0.1; Float 0.1; Float 0.2])
           F64.periods 0.4).
  - vm_compute. reflexivity.
  - intros col Hcol t. unfold F64.periods in Hcol.
    repeat (apply elem_of_cons in Hcol as [-> | Hcol];
            [vm_compute; discriminate|]).
    apply elem_of_nil in Hcol. destruct Hcol.
Defined.

(** On-hand 0.4 with usages 0.1, 0.1 and 0.2: the stock left is the float
    2.7755575615628914e-17, and no runout is reported; on-hand 100 with
    usages 40, 40, 40 runs out in period 2. *)
Example f64_estimate_runout_examples :
  F64.estimate_runout F64.periods
    (F64.forecast_row 0.4 [Float 0.1; Float 0.1; Float 0.2]) = Return nan /\
  F64.estimate_runout F64.periods
    (F64.forecast_row 100 [Float 40; Float 40; Float 40]) = Return 2%float.
Proof. vm_compute. auto. Qed.

(** ** Subtraction of floats *)

Lemma f64_digits2_lower p :
  2 ^ (Zpos (SpecFloat.digits2_pos p) - 1) <= Zpos p.
Proof.
  induction p as [p IH | p IH |]; cbn [SpecFloat.digits2_pos].
  - rewrite Pos2Z.inj_succ. change (Z.pos p~1) with (2 * Z.pos p + 1).
    replace (Z.succ (Z.pos (SpecFloat.digits2_pos p)) - 1)
      with (Z.succ (Z.pos (SpecFloat.digits2_pos p) - 1)) by lia.
    rewrite Z.pow_succ_r by lia. lia.
  - rewrite Pos2Z.inj_succ. change (Z.pos p~0) with (2 * Z.pos p).
    replace (Z.succ (Z.pos (SpecFloat.digits2_pos p)) - 1)
      with (Z.succ (Z.pos (SpecFloat.digits2_pos p) - 1)) by lia.
    rewrite Z.pow_succ_r by lia. lia.
  - reflexivity.
Qed.

Lemma f64_digits2_upper p : Zpos p < 2 ^ Zpos (SpecFloat.digits2_pos p).
Proof.
  induction p as [p IH | p IH |]; cbn [SpecFloat.digits2_pos].
  - rewrite Pos2Z.inj_succ, Z.pow_succ_r by lia.
    change (Z.pos p~1) with (2 * Z.pos p + 1). lia.
  - rewrite Pos2Z.inj_succ, Z.pow_succ_r by lia.
    change (Z.pos p~0) with (2 * Z.pos p). lia.
  - reflexivity.
Qed.

Lemma f64_shr_1_half mrs :
  0 <= SpecFloat.shr_m mrs ->
  SpecFloat.shr_m (SpecFloat.shr_1 mrs) = SpecFloat.shr_m mrs / 2.
Proof.
  destruct mrs as [m r s]. cbn [SpecFloat.shr_m SpecFloat.shr_1].
  intros Hm. destruct m as [|[p|p|]|p]; cbn [SpecFloat.shr_m]; try lia.
  - reflexivity.
  - apply Z.div_unique with 1; lia.
  - apply Z.div_unique with 0; lia.
  - reflexivity.
Qed.

Lemma f64_shr_iter n :
  forall mrs, 0 <= SpecFloat.shr_m mrs ->
    SpecFloat.shr_m (SpecFloat.iter_pos SpecFloat.shr_1 n mrs)
    = SpecFloat.shr_m mrs / 2 ^ Zpos n.
Proof.
  induction n as [n IH | n IH |]; intros mrs Hm; cbn [SpecFloat.iter_pos].
  - assert (H1 : 0 <= SpecFloat.shr_m (SpecFloat.shr_1 mrs)).
    { rewrite f64_shr_1_half by exact Hm. apply Z.div_pos; lia. }
    assert (H2 : 0 <= SpecFloat.shr_m
                        (SpecFloat.iter_pos SpecFloat.shr_1 n
                           (SpecFloat.shr_1 mrs))).
    { rewrite IH by exact H1. apply Z.div_pos; [exact H1|].
      apply Z.pow_pos_nonneg; lia. }
    rewrite IH by exact H2. rewrite IH by exact H1.
    rewrite f64_shr_1_half by exact Hm.
    assert (Hp : 0 < 2 ^ Zpos n) by (apply Z.pow_pos_nonneg; lia).
    rewrite !Z.div_div by lia.
    f_equal. change (Z.pos n~1) with (2 * Z.pos n + 1).
    replace (2 * Z.pos n + 1) with (1 + Z.pos n + Z.pos n) by lia.
    rewrite !Z.pow_add_r by lia. change (2 ^ 1) with 2. ring.
  - assert (H2 : 0 <= SpecFloat.shr_m
                        (SpecFloat.iter_pos SpecFloat.shr_1 n mrs)).
    { rewrite IH by exact Hm. apply Z.div_pos; [exact Hm|].
      apply Z.pow_pos_nonneg; lia. }
    rewrite IH by exact H2. rewrite IH by exact Hm.
    assert (Hp : 0 < 2 ^ Zpos n) by (apply Z.pow_pos_nonneg; lia).
    rewrite !Z.div_div by lia.
    f_equal. change (Z.pos n~0) with (2 * Z.pos n).
    replace (2 * Z.pos n) with (Z.pos n + Z.pos n) by lia.
    rewrite !Z.pow_add_r by lia. ring.
  - apply f64_shr_1_half, Hm.
Qed.

Lemma f64_shr_record_of_loc_m m l :
  SpecFloat.shr_m (SpecFloat.shr_record_of_loc m l) = m.
Proof. destruct l as [|[]]; reflexivity. Qed.

(** Rounding a positive mantissa at an exponent of the format leaves a
    positive mantissa. *)
Lemma f64_shr_fexp_positive m e l :
  0 < m -> SpecFloat.emin FloatOps.prec FloatOps.emax <= e ->
  0 < SpecFloat.shr_m
        (fst (SpecFloat.shr_fexp FloatOps.prec FloatOps.emax m e l)) /\
  SpecFloat.emin FloatOps.prec FloatOps.emax
  <= snd (SpecFloat.shr_fexp FloatOps.prec FloatOps.emax m e l).
Proof.
  intros Hm He. unfold SpecFloat.shr_fexp, SpecFloat.shr.
  destruct m as [|p|p]; try lia. cbn [SpecFloat.Zdigits2].
  pose proof (f64_digits2_lower p) as Hd.
  set (d := Z.pos (SpecFloat.digits2_pos p)) in *.
  assert (Hd1 : 1 <= d) by (unfold d; lia).
  destruct (SpecFloat.fexp FloatOps.prec FloatOps.emax (d + e) - e)
    as [|k|k] eqn:Ek; cbn [fst snd];
    rewrite ?f64_shr_record_of_loc_m; try (split; lia).
  rewrite f64_shr_iter by (rewrite f64_shr_record_of_loc_m; lia).
  rewrite f64_shr_record_of_loc_m.
  unfold SpecFloat.fexp, SpecFloat.emin, FloatOps.prec, FloatOps.emax in *.
  split; [|lia].
  apply Z.div_str_pos. split; [apply Z.pow_pos_nonneg; lia|].
  apply Z.le_trans with (2 ^ (d - 1)); [|exact Hd].
  apply Z.pow_le_mono_r; lia.
Qed.

Lemma f64_round_nearest_even_ge m l :
  m <= SpecFloat.round_nearest_even m l.
Proof.
  unfold SpecFloat.round_nearest_even.
  destruct l as [|[]]; try destruct (Z.even m); lia.
Qed.

Lemma f64_binary_round_aux_positive m e l :
  0 < m -> SpecFloat.emin FloatOps.prec FloatOps.emax <= e ->
  F64.strictly_positive
    (SpecFloat.binary_round_aux FloatOps.prec FloatOps.emax false m e l).
Proof.
  intros Hm He. unfold SpecFloat.binary_round_aux.
  pose proof (f64_shr_fexp_positive m e l Hm He) as [H1 H2].
  destruct (SpecFloat.shr_fexp _ _ m e l) as [mrs' e'].
  cbn [fst snd] in H1, H2.
  pose proof (f64_round_nearest_even_ge (SpecFloat.shr_m mrs')
                (SpecFloat.loc_of_shr_record mrs')) as Hr.
  set (m2 := SpecFloat.round_nearest_even _ _) in *.
  assert (Hm2 : 0 < m2) by lia.
  pose proof (f64_shr_fexp_positive m2 e' SpecFloat.loc_Exact Hm2 H2)
    as [H3 H4].
  destruct (SpecFloat.shr_fexp _ _ m2 e' _) as [mrs'' e''].
  cbn [fst snd] in H3, H4.
  destruct (SpecFloat.shr_m mrs'') as [|q|q]; try lia.
  destruct (e'' <=? _); exact I.
Qed.

Lemma f64_iter_xO d m : Zpos (Pos.iter xO m d) = Zpos m * 2 ^ Zpos d.
Proof.
  induction d as [|d IH] using Pos.peano_ind.
  - cbn [Pos.iter]. change (Z.pos m~0) with (2 * Z.pos m). lia.
  - rewrite Pos.iter_succ, Pos2Z.inj_succ, Z.pow_succ_r by lia.
    change (Z.pos (Pos.iter xO m d)~0) with (2 * Z.pos (Pos.iter xO m d)).
    rewrite IH. ring.
Qed.

Lemma f64_shl_align_value mx ex ez :
  ez <= ex ->
  Zpos (fst (SpecFloat.shl_align mx ex ez)) = Zpos mx * 2 ^ (ex - ez).
Proof.
  intros H. unfold SpecFloat.shl_align.
  destruct (ez - ex) as [|k|k] eqn:E; cbn [fst]; try lia.
  - replace (ex - ez) with 0 by lia. lia.
  - rewrite f64_iter_xO. replace (ex - ez) with (Z.pos k) by lia.
    reflexivity.
Qed.

Lemma f64_binary_round_positive m e :
  SpecFloat.emin FloatOps.prec FloatOps.emax <= e ->
  F64.strictly_positive (SpecFloat.binary_round FloatOps.prec FloatOps.emax false m e).
Proof.
  intros He. unfold SpecFloat.binary_round.
  destruct (SpecFloat.shl_align m e _) as [mz ez] eqn:E.
  apply f64_binary_round_aux_positive; [lia|].
  unfold SpecFloat.shl_align in E.
  destruct (_ - e) as [|k|k] eqn:Ek; injection E as <- <-; try exact He.
  unfold SpecFloat.fexp. lia.
Qed.

(** What validity gives on a finite float. *)
Lemma f64_valid_finite s m e :
  SpecFloat.valid_binary FloatOps.prec FloatOps.emax
    (SpecFloat.S754_finite s m e) = true ->
  SpecFloat.emin FloatOps.prec FloatOps.emax <= e /\
  Zpos m < 2 ^ 53 /\
  (SpecFloat.emin FloatOps.prec FloatOps.emax < e -> 2 ^ 52 <= Zpos m).
Proof.
  cbn [SpecFloat.valid_binary]. unfold SpecFloat.bounded.
  intros H. apply andb_prop in H as [H _].
  unfold SpecFloat.canonical_mantissa in H. apply Z.eqb_eq in H.
  pose proof (f64_digits2_lower m) as Hl.
  pose proof (f64_digits2_upper m) as Hu.
  set (d := Z.pos (SpecFloat.digits2_pos m)) in *.
  unfold SpecFloat.fexp, SpecFloat.emin, FloatOps.prec, FloatOps.emax in *.
  split; [lia|]. split.
  - apply Z.lt_le_trans with (2 ^ d); [exact Hu|].
    apply Z.pow_le_mono_r; lia.
  - intros He. replace d with 53 in Hl by lia. exact Hl.
Qed.

Lemma f64_binary_normalize_positive d e :
  0 < d -> SpecFloat.emin FloatOps.prec FloatOps.emax <= e ->
  F64.strictly_positive
    (SpecFloat.binary_normalize FloatOps.prec FloatOps.emax d e false).
Proof.
  intros Hd He. destruct d as [|p|p]; try lia.
  apply f64_binary_round_positive, He.
Qed.

Lemma f64_scaled_above mr mu k :
  2 ^ 52 <= Zpos mr -> Zpos mu < 2 ^ 53 -> 0 < k ->
  Zpos mu < Zpos mr * 2 ^ k.
Proof.
  intros Hr Hu Hk.
  assert (H2 : 2 ^ 1 <= 2 ^ k) by (apply Z.pow_le_mono_r; lia).
  change (2 ^ 1) with 2 in H2.
  apply Z.lt_le_trans with (2 ^ 52 * 2); [exact Hu|].
  apply Z.mul_le_mono_nonneg; lia.
Qed.

(** The difference of two finite floats, the larger first, as the integer
    that is rounded. *)
Lemma f64_aligned_difference_positive su mu eu sr mr er :
  SpecFloat.valid_binary FloatOps.prec FloatOps.emax
    (SpecFloat.S754_finite su mu eu) = true ->
  SpecFloat.valid_binary FloatOps.prec FloatOps.emax
    (SpecFloat.S754_finite sr mr er) = true ->
  SpecFloat.SFltb (SpecFloat.S754_finite su mu eu)
    (SpecFloat.S754_finite sr mr er) = true ->
  0 < SpecFloat.cond_Zopp sr
        (Zpos (fst (SpecFloat.shl_align mr er (Z.min er eu))))
      - SpecFloat.cond_Zopp su
          (Zpos (fst (SpecFloat.shl_align mu eu (Z.min er eu)))).
Proof.
  intros Vu Vr Hlt.
  apply f64_valid_finite in Vu as (Hu1 & Hu2 & Hu3).
  apply f64_valid_finite in Vr as (Hr1 & Hr2 & Hr3).
  rewrite !f64_shl_align_value by lia.
  unfold SpecFloat.SFltb, SpecFloat.SFcompare in Hlt.
  change (Pos.compare_cont Eq mu mr) with (Pos.compare mu mr) in Hlt.
  assert (Hpu : 0 < Zpos mu * 2 ^ (eu - Z.min er eu)).
  { apply Z.mul_pos_pos; [lia|]. apply Z.pow_pos_nonneg; lia. }
  assert (Hpr : 0 < Zpos mr * 2 ^ (er - Z.min er eu)).
  { apply Z.mul_pos_pos; [lia|]. apply Z.pow_pos_nonneg; lia. }
  destruct su, sr; cbn [SpecFloat.cond_Zopp]; try discriminate; try lia.
  - (* both negative: the first has the larger magnitude *)
    destruct (Z.compare_spec eu er) as [Heq | Hl | Hg]; try discriminate.
    + subst er. rewrite Z.min_id, Z.sub_diag, !Z.mul_1_r.
      destruct (Pos.compare_spec mu mr) as [? | ? | Hm]; try discriminate.
      lia.
    + rewrite Z.min_l by lia. rewrite Z.sub_diag, Z.mul_1_r.
      pose proof (f64_scaled_above mu mr (eu - er)). lia.
  - (* both positive *)
    destruct (Z.compare_spec eu er) as [Heq | Hl | Hg]; try discriminate.
    + subst er. rewrite Z.min_id, Z.sub_diag, !Z.mul_1_r.
      destruct (Pos.compare_spec mu mr) as [? | Hm | ?]; try discriminate.
      lia.
    + rewrite Z.min_r by lia. rewrite Z.sub_diag, Z.mul_1_r.
      pose proof (f64_scaled_above mr mu (er - eu)). lia.
Qed.

(** Subtracting a smaller float from a larger one gives a positive float or
    the positive infinity, never zero. *)
Lemma f64_SFsub_positive U R :
  SpecFloat.valid_binary FloatOps.prec FloatOps.emax U = true ->
  SpecFloat.valid_binary FloatOps.prec FloatOps.emax R = true ->
  SpecFloat.SFltb U R = true ->
  F64.strictly_positive (FloatAxioms.SF64sub R U).
Proof.
  intros Vu Vr Hlt.
  destruct U as [su | su | | su mu eu], R as [sr | sr | | sr mr er];
    try discriminate Hlt;
    try (destruct su, sr; try discriminate Hlt; exact I);
    try (destruct su; try discriminate Hlt; exact I);
    try (destruct sr; try discriminate Hlt; exact I).
  unfold FloatAxioms.SF64sub, SpecFloat.SFsub.
  apply f64_binary_normalize_positive.
  - apply f64_aligned_difference_positive; assumption.
  - apply f64_valid_finite in Vu as (Hu1 & _).
    apply f64_valid_finite in Vr as (Hr1 & _). lia.
Qed.

Lemma f64_sub_positive u r :
  (u <? r)%float = true -> (r - u <=? 0)%float = false.
Proof.
  intros H. rewrite FloatAxioms.ltb_spec in H.
  pose proof (f64_SFsub_positive _ _ (FloatAxioms.Prim2SF_valid u)
                (FloatAxioms.Prim2SF_valid r) H) as Hp.
  rewrite FloatAxioms.leb_spec, FloatAxioms.sub_spec.
  change (FloatOps.Prim2SF 0%float) with (SpecFloat.S754_zero false).
  destruct (FloatAxioms.SF64sub _ _) as [s | [] | | [] m e];
    cbn in Hp; try tauto; reflexivity.
Qed.

(** Subtracting a finite float from an equal one gives zero. *)
Lemma f64_SFsub_equal U R :
  SpecFloat.SFeqb U R = true ->
  match U with SpecFloat.S754_infinity _ => False | _ => True end ->
  exists s, FloatAxioms.SF64sub R U = SpecFloat.S754_zero s.
Proof.
  intros Heq Hfin.
  destruct U as [su | su | | su mu eu], R as [sr | sr | | sr mr er];
    try discriminate Heq; try (exfalso; exact Hfin).
  - destruct su, sr; cbn; eauto.
  - destruct sr; discriminate Heq.
  - destruct sr; discriminate Heq.
  - destruct su; discriminate Heq.
  - destruct sr; discriminate Heq.
  - unfold SpecFloat.SFeqb, SpecFloat.SFcompare in Heq.
    change (Pos.compare_cont Eq mu mr) with (Pos.compare mu mr) in Heq.
    assert (H : su = sr /\ eu = er /\ mu = mr).
    { destruct su, sr; try discriminate Heq;
        destruct (Z.compare_spec eu er); try discriminate Heq;
        destruct (Pos.compare_spec mu mr); try discriminate Heq; auto. }
    destruct H as (-> & -> & ->).
    unfold FloatAxioms.SF64sub, SpecFloat.SFsub.
    rewrite Z.min_id, Z.sub_diag. cbn [SpecFloat.binary_normalize]. eauto.
Qed.

Lemma f64_sub_equal u r :
  (u =? r)%float = true -> is_infinity u = false ->
  (r - u <=? 0)%float = true.
Proof.
  intros H Hfin. rewrite FloatAxioms.eqb_spec in H.
  rewrite FloatAxioms.leb_spec, FloatAxioms.sub_spec.
  change (FloatOps.Prim2SF 0%float) with (SpecFloat.S754_zero false).
  destruct (f64_SFsub_equal _ _ H) as [s ->]; [|reflexivity].
  destruct (FloatOps.Prim2SF u) as [| s | |] eqn:E; try exact I.
  assert (Hi : is_infinity u = true) by (apply f64_is_infinity_spec; eauto).
  congruence.
Qed.

(** ** Exact exhaustion *)

Lemma f64_ltb_covered u r : (u <? r)%float = true -> F64.covered r u = true.
Proof.
  intros H. unfold F64.covered.
  rewrite FloatAxioms.ltb_spec in H. unfold SpecFloat.SFltb in H.
  assert (Hu : is_nan u = false).
  { apply f64_is_nan_false. intros E. rewrite E in H. discriminate. }
  assert (Hr : is_nan r = false).
  { apply f64_is_nan_false. intros E. rewrite E in H.
    destruct (FloatOps.Prim2SF u); discriminate. }
  rewrite Hu, Hr, FloatAxioms.leb_spec. unfold SpecFloat.SFleb.
  destruct (SpecFloat.SFcompare _ _) as [[]|]; try discriminate. reflexivity.
Qed.

Lemma f64_eqb_covered u r : (u =? r)%float = true -> F64.covered r u = true.
Proof.
  intros H. unfold F64.covered.
  rewrite FloatAxioms.eqb_spec in H. unfold SpecFloat.SFeqb in H.
  assert (Hu : is_nan u = false).
  { apply f64_is_nan_false. intros E. rewrite E in H. discriminate. }
  assert (Hr : is_nan r = false).
  { apply f64_is_nan_false. intros E. rewrite E in H.
    destruct (FloatOps.Prim2SF u); discriminate. }
  rewrite Hu, Hr, FloatAxioms.leb_spec. unfold SpecFloat.SFleb.
  destruct (SpecFloat.SFcompare _ _) as [[]|]; try discriminate. reflexivity.
Qed.

Lemma f64_positive_not_leb s : (0 <? s)%float = true -> (s <=? 0)%float = false.
Proof.
  intros H. rewrite FloatAxioms.leb_spec.
  change (FloatOps.Prim2SF 0%float) with (SpecFloat.S754_zero false).
  destruct (f64_positive_cases s H) as [(p & e & ->) | ->]; reflexivity.
Qed.

Lemma f64_present_numeric row cols us :
  Forall2 (F64.present row) cols us ->
  forall col, col ∈ cols -> F64.numeric row col.
Proof.
  intros Hall col Hcol t Ht.
  apply list_elem_of_lookup in Hcol as [i Hi].
  destruct (Forall2_lookup_l _ _ _ _ _ Hall Hi) as (u & _ & [Hu _]).
  congruence.
Qed.

Lemma f64_stock_left_snoc s us i u :
  us !! i = Some u ->
  F64.stock_left s (take (S i) us) = (F64.stock_left s (take i us) - u)%float.
Proof.
  intros H. rewrite (take_S_r us i u H). unfold F64.stock_left.
  rewrite foldl_app. reflexivity.
Qed.

Lemma f64_stock_after_present row cols us :
  Forall2 (F64.present row) cols us ->
  forall s, F64.stock_after row s cols = F64.stock_left s us.
Proof.
  induction 1 as [|col u cols us Hu _ IH]; intros s; [reflexivity|].
  rewrite f64_stock_after_cons. unfold F64.subtract_usage.
  rewrite (f64_row_get_present _ _ _ _ Hu). destruct Hu as [_ Hu].
  rewrite Hu. apply IH.
Qed.

Lemma f64_stock_after_take_present row cols us s n :
  Forall2 (F64.present row) cols us ->
  F64.stock_after row s (take n cols) = F64.stock_left s (take n us).
Proof. intros H. apply f64_stock_after_present, Forall2_take, H. Qed.

Lemma f64_simulate_remaining_app row pre post :
  forall r, F64.simulate_remaining row r (pre ++ post)
            = (r' ← F64.simulate_remaining row r pre;
               F64.simulate_remaining row r' post).
Proof.
  induction pre as [|c pre IH]; intros r; [reflexivity|].
  cbn [app F64.simulate_remaining].
  destruct (F64.simulate_step row r c) as [step|e]; [|reflexivity].
  cbn [mbind outcome_bind]. apply IH.
Qed.

(** While every usage is below the stock left, both simulations hold the
    same stock. *)
Lemma f64_simulate_remaining_present row cols us s i :
  Forall2 (F64.present row) cols us -> (i <= length us)%nat ->
  (forall j u, (j < i)%nat -> us !! j = Some u ->
               (u <? F64.stock_left s (take j us))%float = true) ->
  F64.simulate_remaining row (Float s) (take i cols)
  = Return (Float (F64.stock_left s (take i us))).
Proof.
  intros Hall. induction i as [|i IH]; intros Hlen Hbelow.
  { rewrite !take_0. reflexivity. }
  destruct (lookup_lt_is_Some_2 us i) as [u Hu]; [lia|].
  destruct (Forall2_lookup_r _ _ _ _ _ Hall Hu) as (col & Hcol & Hpres).
  rewrite (take_S_r cols i col Hcol), f64_simulate_remaining_app.
  rewrite IH; [|lia|intros j u' Hj; apply Hbelow; lia].
  cbn [mbind outcome_bind F64.simulate_remaining].
  rewrite (f64_simulate_step_float row _ col u
             (f64_row_get_present _ _ _ _ Hpres)).
  rewrite (f64_ltb_covered _ _ (Hbelow i u (Nat.lt_succ_diag_r i) Hu)).
  cbn [mbind outcome_bind fst]. rewrite (f64_stock_left_snoc _ _ _ _ Hu).
  reflexivity.
Qed.

(** C10: on exact exhaustion the two simulations disagree at the boundary
    period.  For a row with present on-hand > 0 whose forecast usages are
    all present, if every period before index i has usage strictly less than
    the stock then remaining, and the usage of period i, a finite number,
    equals the remaining stock exactly, then [simulate_runout] marks period i
    covered while [estimate_runout] returns i as the runout period.  The
    stock is the float the code computes. *)
Theorem f64_exact_exhaustion_boundary row cols us s i ui :
  row !! "SOH" = Some (Float s) -> (0 <? s)%float = true ->
  Forall2 (F64.present row) cols us ->
  us !! i = Some ui ->
  (forall j u, (j < i)%nat -> us !! j = Some u ->
               (u <? F64.stock_left s (take j us))%float = true) ->
  (ui =? F64.stock_left s (take i us))%float = true ->
  is_infinity ui = false ->
  (exists marks, F64.simulate_runout row cols = Return marks /\
                 marks !! i = Some COVERED) /\
  F64.estimate_runout cols row = Return (F64.float_of_nat i).
Proof.
  intros Hsoh Hs Hall Hui Hbelow Hexact Hfin.
  assert (Hi : (i < length us)%nat) by (apply lookup_lt_Some in Hui; exact Hui).
  destruct (Forall2_lookup_r _ _ _ _ _ Hall Hui) as (col & Hcol & Hpres).
  pose proof (f64_present_numeric row cols us Hall) as Hnum.
  split.
  - destruct (f64_simulate_loop_numeric row cols Hnum s)
      as (marks & Hloop & _ & Hmarks).
    exists marks. unfold F64.simulate_runout, F64.row_get. rewrite Hsoh.
    split; [exact Hloop|].
    destruct (Hmarks i col Hcol) as (ri & u & H1 & H2 & H3 & _).
    rewrite (f64_simulate_remaining_present row cols us s i Hall) in H1;
      [|lia|exact Hbelow].
    injection H1 as <-.
    rewrite (f64_row_get_present _ _ _ _ Hpres) in H2. injection H2 as <-.
    rewrite (f64_eqb_covered _ _ Hexact) in H3. exact H3.
  - assert (Hrun : F64.runs_out_at row s cols i).
    { split; [|split].
      - rewrite (Forall2_length _ _ _ Hall). exact Hi.
      - rewrite (f64_stock_after_take_present _ _ _ _ _ Hall),
          (f64_stock_left_snoc _ _ _ _ Hui).
        apply f64_sub_equal; assumption.
      - intros j Hj.
        destruct (lookup_lt_is_Some_2 us j) as [u Hu]; [lia|].
        rewrite (f64_stock_after_take_present _ _ _ _ _ Hall),
          (f64_stock_left_snoc _ _ _ _ Hu).
        apply f64_sub_positive, (Hbelow j u Hj Hu). }
    pose proof (f64_positive_not_leb s Hs) as Hs'.
    destruct (f64_estimate_runout_cases row cols s Hsoh Hnum)
      as [[_ Hno] | (i' & Hret & _ & Hi')].
    + exfalso. apply (f64_no_runout_not_runs_out _ _ _ _ Hs' Hrun Hno).
    + rewrite (f64_runs_out_at_unique _ _ _ _ _ Hrun Hi'). exact Hret.
Qed.

Lemma f64_exact_exhaustion_boundary_witness :
  (exists marks,
     F64.simulate_runout (F64.forecast_row 100 [Float 40; Float 60; Float 10])
       F64.periods = Return marks /\
     marks !! 1%nat = Some COVERED) /\
  F64.estimate_runout F64.periods
    (F64.forecast_row 100 [Float 40; Float 60; Float 10])
  = Return (F64.float_of_nat 1).
Proof.
  apply (f64_exact_exhaustion_boundary
           (F64.forecast_row 100 [Float 40; Float 60; Float 10])
           F64.periods [40; 60; 10]%float 100%float 1 60%float).
  - vm_compute. reflexivity.
  - vm_compute. reflexivity.
  - repeat constructor.
  - reflexivity.
  - intros [|j] u Hj Hu; [|lia]. injection Hu as <-. vm_compute. reflexivity.
  - vm_compute. reflexivity.
  - vm_compute. reflexivity.
Defined.

(** ** Styles and exceptions *)

(** X9: in the coverage table of a row with numeric cells, a cell is
    highlighted green exactly when the period is covered, that is when the
    stock left by the earlier periods and the usage are both present and the
    stock is at least the usage; every other cell gets the empty style. *)
Theorem f64_forecast_cell_green_iff_covered row cols i col :
  F64.numeric row "SOH" ->
  (forall c, c ∈ cols -> F64.numeric row c) ->
  cols !! i = Some col ->
  exists marks style r u,
    F64.simulate_runout row cols = Return marks /\
    (highlight_forecast ∘ VStr <$> marks) !! i = Some style /\
    (style = "background-color: lightgreen" \/ style = "") /\
    F64.remaining_before row cols i = Return (Float r) /\
    F64.row_get row col F64.NaN = Float u /\
    (style = "background-color: lightgreen" <-> F64.covered r u = true).
Proof.
  intros Nsoh Ncols Hi.
  destruct (f64_numeric_row_get row "SOH" F64.NaN Nsoh) as [s Hs];
    [discriminate|].
  destruct (f64_simulate_loop_numeric row cols Ncols s)
    as (marks & Hloop & _ & Hmarks).
  destruct (Hmarks i col Hi) as (r & u & H1 & H2 & H3 & _).
  exists marks,
    (highlight_forecast
       (VStr (if F64.covered r u then COVERED else NOT_COVERED))), r, u.
  unfold F64.simulate_runout, F64.remaining_before. rewrite Hs.
  split; [exact Hloop|]. split.
  { rewrite list_lookup_fmap, H3. reflexivity. }
  split; [destruct (F64.covered r u); [left|right]; reflexivity|].
  split; [exact H1|]. split; [exact H2|].
  rewrite highlight_forecast_green.
  destruct (F64.covered r u); split; try reflexivity; discriminate.
Qed.

Lemma f64_forecast_cell_green_iff_covered_witness :
  exists marks style r u,
    F64.simulate_runout
      (F64.forecast_row 100 [Float 40; Float 80; Float 40]) F64.periods
    = Return marks /\
    (highlight_forecast ∘ VStr <$> marks) !! 1%nat = Some style /\
    (style = "background-color: lightgreen" \/ style = "") /\
    F64.remaining_before
      (F64.forecast_row 100 [Float 40; Float 80; Float 40]) F64.periods 1
    = Return (Float r) /\
    F64.row_get (F64.forecast_row 100 [Float 40; Float 80; Float 40])
      "Feb-25" F64.NaN = Float u /\
    (style = "background-color: lightgreen" <-> F64.covered r u = true).
Proof.
  apply (f64_forecast_cell_green_iff_covered
           (F64.forecast_row 100 [Float 40; Float 80; Float 40])
           F64.periods 1 "Feb-25").
  - intros t. vm_compute. discriminate.
  - intros col Hcol t. unfold F64.periods in Hcol.
    repeat (apply elem_of_cons in Hcol as [-> | Hcol];
            [vm_compute; discriminate|]).
    apply elem_of_nil in Hcol. destruct Hcol.
  - reflexivity.
Defined.

Lemma f64_estimate_loop_raises row cols :
  forall r k e,
    F64.estimate_loop row (Float r) k cols = Raise e ->
    e = TypeError /\
    exists col t, col ∈ cols /\ row !! col = Some (Text t).
Proof.
  induction cols as [|col rest IH]; intros r k e H; [discriminate H|].
  cbn [F64.estimate_loop] in H.
  assert (Hin : forall c t, c ∈ rest /\ row !! c = Some (Text t) ->
                            c ∈ col :: rest /\ row !! c = Some (Text t)).
  { intros c t [H1 H2]. split; [right; exact H1 | exact H2]. }
  destruct (F64.row_get row col F64.zero) as [u|t] eqn:Eu.
  - cbn [F64.isna] in H. destruct (is_nan u).
    + destruct (IH _ _ _ H) as (-> & c & t & Hc). eauto.
    + cbn [F64.sub F64.le F64.zero mbind outcome_bind] in H.
      destruct (r - u <=? 0)%float; [discriminate H|].
      destruct (IH _ _ _ H) as (-> & c & t & Hc). eauto.
  - cbn [F64.isna F64.sub mbind outcome_bind] in H. injection H as <-.
    split; [reflexivity|]. exists col, t. split; [left|].
    unfold F64.row_get in Eu. destruct (row !! col) as [c|]; [|discriminate].
    congruence.
Qed.

(** X25: [estimate_runout] raises [KeyError] exactly on a row without an
    SOH column when there is at least one forecast column, and the key is
    'SOH'; any other exception is a [TypeError], which needs a text in the
    on-hand cell or in a forecast cell.  Without forecast columns it returns
    the absent result without reading the row. *)
Theorem f64_estimate_runout_raises :
  forall (cols : list string) (row : gmap string F64.cell),
    (forall k, F64.estimate_runout cols row = Raise (KeyError k) <->
               cols <> [] /\ row !! "SOH" = None /\ k = "SOH") /\
    (forall e, F64.estimate_runout cols row = Raise e ->
               e = KeyError "SOH" \/ e = TypeError) /\
    (F64.estimate_runout cols row = Raise TypeError ->
     (exists t, row !! "SOH" = Some (Text t)) \/
     (exists col t, col ∈ cols /\ row !! col = Some (Text t))) /\
    F64.estimate_runout [] row = Return nan.
Proof.
  intros cols row.
  assert (Hcases : forall e, F64.estimate_runout cols row = Raise e ->
            (cols <> [] /\ row !! "SOH" = None /\ e = KeyError "SOH") \/
            (e = TypeError /\
             ((exists t, row !! "SOH" = Some (Text t)) \/
              (exists col t, col ∈ cols /\ row !! col = Some (Text t))))).
  { intros e H. destruct cols as [|col rest]; [discriminate H|].
    unfold F64.estimate_runout, F64.row_item in H.
    destruct (row !! "SOH") as [[s|t]|] eqn:Hsoh.
    - cbn [mbind outcome_bind F64.le F64.zero] in H.
      destruct (s <=? 0)%float; [discriminate H|].
      right. destruct (f64_estimate_loop_raises _ _ _ _ _ H) as [-> Ht].
      auto.
    - cbn [mbind outcome_bind F64.le F64.zero] in H. injection H as <-.
      right. eauto.
    - cbn [mbind outcome_bind] in H. injection H as <-. left.
      split; [discriminate|]. auto. }
  split; [|split; [|split; [|reflexivity]]].
  - intros k. split.
    + intros H. destruct (Hcases _ H) as [(H1 & H2 & [= ->]) | [H1 _]];
        [auto | discriminate H1].
    + intros (Hne & Hsoh & ->). destruct cols as [|col rest]; [contradiction|].
      unfold F64.estimate_runout, F64.row_item. rewrite Hsoh. reflexivity.
  - intros e H. destruct (Hcases _ H) as [(_ & _ & ->) | [-> _]]; auto.
  - intros H. destruct (Hcases _ H) as [(_ & _ & H1) | [_ H1]];
      [discriminate H1 | exact H1].
Qed.
